(** * phd2_mqtt_bridge: a shallow embedding of [phd2_mqtt_bridge.py]

    The bridge reads newline-delimited JSON from a PHD2 guiding server and
    republishes guiding telemetry over MQTT.  The module-level globals of the
    script become the record [globals]; what the script does to the outside
    world (MQTT publishes, log records, socket operations, sleeps) becomes a
    trace of [effect]s; a Python exception becomes the [Raise] outcome.  The
    MQTT helpers, the two MQTT callbacks, [getenv_int] and
    [read_phd2_events] are computations in the monad [M] below and keep
    their Python names; [setup_mqtt] and [main], which also call the MQTT
    client, are computations of the main thread in the monad [Proc].  The
    set up of logging ([_init_logging]) is not modelled: every log call is
    recorded, whatever the level in force.  What the script gets from the
    outside is an input: the lines of a stream, each as the two decoders
    take it ([raw_line]); the way an attempt to connect goes ([attempt]);
    the environment; and the C library's [pow], on which [**] rests
    ([Libm]), so that every statement holds whatever that library returns.
    Line numbers are those of [phd2_mqtt_bridge.py]. *)

From Stdlib Require Import ZArith Floats Bool List Lia.
From stdpp Require Import gmap strings list.

Set Warnings "-register-all".
Local Open Scope string_scope.
Local Open Scope Z_scope.
Local Open Scope list_scope.

(** ** Python values *)

(** What [json.loads] can return, and what the script computes with.  A dict
    is a finite map from its (string) keys to values.  Python's [int] is
    unbounded ([Z]); its [float] is an IEEE-754 binary64 (Rocq's primitive
    [float], whose operations round to nearest, ties to even). *)
Inductive pyval :=
| PNone
| PBool (b : bool)
| PInt (z : Z)
| PFloat (f : float)
| PStr (s : string)
| PList (l : list pyval)
| PDict (d : gmap string pyval).

(** Exception classes the script can meet.  [ConnectionRefusedError] is a
    subclass of [OSError] and is not told apart from it. *)
Inductive exn :=
| TypeError
| AttributeError
| OverflowError
| ValueError
| RecursionError
| OSError
| KeyboardInterrupt.

Inductive outcome (A : Type) :=
| Ret (a : A)
| Raise (e : exn).
Arguments Ret {A} a.
Arguments Raise {A} e.

(** [d.get(k)]: the value under [k], [None] when the key is missing. *)
Definition dict_get (d : gmap string pyval) (k : string) : pyval :=
  default PNone (d !! k).

(** [k in d] for a dict [d]. *)
Definition dict_has (d : gmap string pyval) (k : string) : bool :=
  match d !! k with Some _ => true | None => false end.

(** [v is None]. *)
Definition is_None (v : pyval) : bool :=
  match v with PNone => true | _ => false end.

Definition bool_to_Z (b : bool) : Z := if b then 1 else 0.

(** Conversion of a Python [int] to a [float]: the nearest binary64, ties to
    even; CPython raises [OverflowError] when that is not finite. *)
Definition Z_to_float (z : Z) : float :=
  SF2Prim (binary_normalize prec emax z 0 false).

Definition int_to_float (z : Z) : outcome float :=
  let f := Z_to_float z in
  if is_infinity f then Raise OverflowError else Ret f.

(** [isinstance(v, (int, float))].  [bool] is a subclass of [int] in Python,
    so [True] and [False] pass the test. *)
Definition isinstance_int_float (v : pyval) : bool :=
  match v with
  | PBool _ | PInt _ | PFloat _ => true
  | _ => false
  end.

(** [float(v)] for a [v] that passed [isinstance_int_float]. *)
Definition py_float (v : pyval) : outcome float :=
  match v with
  | PFloat f => Ret f
  | PInt z => int_to_float z
  | PBool b => int_to_float (bool_to_Z b)
  | _ => Raise TypeError
  end.

(** [v == n] for one of the two small integer constants [n] the script
    compares RPC ids with (1 and 2, both exact as floats).  Python compares
    numbers by value across [bool], [int] and [float]; anything else is
    unequal to an [int]. *)
Definition py_eq_int (v : pyval) (n : Z) : bool :=
  match v with
  | PInt z => z =? n
  | PBool b => bool_to_Z b =? n
  | PFloat f => PrimFloat.eqb f (Z_to_float n)
  | _ => false
  end.

(** [v == s] for a string constant [s]. *)
Definition py_eq_str (v : pyval) (s : string) : bool :=
  match v with
  | PStr s' => String.eqb s' s
  | _ => false
  end.

(** ** Arithmetic of the GuideStep branch *)

(** [x * scale] where [scale] is a float (lines 393, 394, 396).  A string or
    list times a float, and a dict or [None] times anything, is a
    [TypeError]. *)
Definition py_mul_float (x : pyval) (scale : float) : outcome pyval :=
  match x with
  | PFloat a => Ret (PFloat (a * scale)%float)
  | PInt z =>
      match int_to_float z with
      | Ret a => Ret (PFloat (a * scale)%float)
      | Raise e => Raise e
      end
  | PBool b => Ret (PFloat (Z_to_float (bool_to_Z b) * scale)%float)
  | _ => Raise TypeError
  end.

(** What a call of the C library leaves in [errno]. *)
Inductive errno :=
| NoError
| ERANGE
| OtherErrno.

(** The C library CPython is built on, as far as the script reaches it:
    [pow(x, y)], with the [errno] it leaves.  Nothing is assumed of it: it
    need not return the correctly rounded power, and glibc's does not
    ([pow(4.536, 2.0)] is one unit in the last place below
    [4.536 * 4.536]). *)
Class Libm := libm_pow : float → float → float * errno.

(** CPython's adjustment of [errno] after a library call: an infinite result
    is a range error whether the library said so or not, and a range error
    with a zero result (an underflow) is none. *)
Definition adjust_erange (r : float) (e : errno) : errno :=
  match e with
  | NoError => if is_infinity r then ERANGE else NoError
  | ERANGE => if is_zero r then NoError else ERANGE
  | OtherErrno => OtherErrno
  end.

(** [a ** 2] on floats, as [float.__pow__] computes it: a NaN is returned as
    it is, an infinity gives the positive infinity and a zero the positive
    zero, all without a call of the library; the sign of a negative base is
    dropped (the exponent is even) and a base of absolute value one gives
    one; any other base is handed to [pow(|a|, 2.0)], after which a range
    error is an [OverflowError] and any other [errno] a [ValueError]. *)
Definition float_pow2 `{Libm} (a : float) : outcome float :=
  if is_nan a then Ret a
  else if is_infinity a then Ret infinity
  else if is_zero a then Ret zero
  else if (abs a =? one)%float then Ret one
  else
    let '(r, e) := libm_pow (abs a) 2 in
    match adjust_erange r e with
    | NoError => Ret r
    | ERANGE => Raise OverflowError
    | OtherErrno => Raise ValueError
    end.

(** One C library, for the examples at the end of the file and for nothing
    else: [pow(x, 2.0)] as CPython 3.11 on glibc 2.36 returns it at the
    bases the examples use.  At 7.964 that is one unit in the last place
    below the rounded product; at 2.0, at 3.0, at 4.0 and at 2.957 it is
    the product.  [errno] is left alone. *)
Definition sampled_pow : Libm := λ x y,
  (if (x =? 0x1.fdb22d0e56042p+2)%float then 0x1.fb670196d8f50p+5%float
   else (x * x)%float,
   NoError).

(** [x ** 2]: exact on [int] (and on [bool], an [int]), [float_pow2] on
    floats. *)
Definition py_pow2 `{Libm} (x : pyval) : outcome pyval :=
  match x with
  | PInt z => Ret (PInt (z * z))
  | PBool b => Ret (PInt (bool_to_Z b * bool_to_Z b))
  | PFloat a =>
      match float_pow2 a with
      | Ret r => Ret (PFloat r)
      | Raise e => Raise e
      end
  | _ => Raise TypeError
  end.

(** [x + y] on the numbers [py_pow2] returns: exact on two ints, float
    addition otherwise, an int operand being converted first. *)
Definition py_add (x y : pyval) : outcome pyval :=
  match x, y with
  | PInt a, PInt b => Ret (PInt (a + b))
  | PFloat a, PFloat b => Ret (PFloat (a + b)%float)
  | PInt a, PFloat b =>
      match int_to_float a with
      | Ret a' => Ret (PFloat (a' + b)%float)
      | Raise e => Raise e
      end
  | PFloat a, PInt b =>
      match int_to_float b with
      | Ret b' => Ret (PFloat (a + b')%float)
      | Raise e => Raise e
      end
  | _, _ => Raise TypeError
  end.

(** [math.sqrt(x)]: the argument is converted to a float; a negative one is
    a [ValueError] (math domain error), a NaN is returned as it is. *)
Definition math_sqrt (x : pyval) : outcome float :=
  let root (a : float) : outcome float :=
    if (a <? 0)%float then Raise ValueError else Ret (PrimFloat.sqrt a) in
  match x with
  | PFloat a => root a
  | PInt z =>
      match int_to_float z with
      | Ret a => root a
      | Raise e => Raise e
      end
  | PBool b => root (Z_to_float (bool_to_Z b))
  | _ => Raise TypeError
  end.

(** [datetime.fromtimestamp(ts)], whose result the script only logs: what
    matters is whether it raises.  A value that is not a number is a
    [TypeError]; a NaN is a [ValueError]; a number outside the platform's
    [time_t] is an [OverflowError]; one [localtime] cannot break down is an
    [OSError]; one whose year is not in 1..9999, or that lies in the first
    day of year 1 (CPython also breaks down the instant one day earlier),
    is a [ValueError].  The bounds are those of CPython on 64-bit Linux with
    the local zone at UTC; no statement below depends on where exactly
    they lie. *)
Definition datetime_fromtimestamp (ts : pyval) : outcome unit :=
  let of_float (f : float) : outcome unit :=
    if is_nan f then Raise ValueError
    else if negb ((-9223372036854775808 <=? f) && (f <? 9223372036854775808))%float
      then Raise OverflowError
    else if negb ((-67768040609740800 <=? f) && (f <? 67768036191676800))%float
      then Raise OSError
    else if negb ((-62135510400 <=? f) && (f <? 253402300800))%float
      then Raise ValueError
    else Ret tt in
  let of_int (z : Z) : outcome unit :=
    if negb ((-9223372036854775808 <=? z) && (z <? 9223372036854775808))
      then Raise OverflowError
    else if negb ((-67768040609740800 <=? z) && (z <? 67768036191676800))
      then Raise OSError
    else if negb ((-62135510400 <=? z) && (z <? 253402300800))
      then Raise ValueError
    else Ret tt in
  match ts with
  | PFloat f => of_float f
  | PInt z => of_int z
  | PBool b => of_int (bool_to_Z b)
  | _ => Raise TypeError
  end.

(** ** Configuration, globals, effects *)

(** The environment-driven settings the modelled functions read (lines
    42-63), with the script's defaults. *)
Record config := {
  PHD2_HOST : string;
  PHD2_PORT : Z;
  DISCOVERY_PREFIX : string;
  BASE_TOPIC : string;
  DEVICE_ID : string;
  DEVICE_NAME : string;
  DEVICE_MANUFACTURER : string;
  DEVICE_MODEL : string
}.

Definition default_config : config := {|
  PHD2_HOST := "127.0.0.1";
  PHD2_PORT := 4400;
  DISCOVERY_PREFIX := "homeassistant";
  BASE_TOPIC := "phd2/guiding";
  DEVICE_ID := "phd2_guiding_server";
  DEVICE_NAME := "PHD2 Guiding";
  DEVICE_MANUFACTURER := "Open PHD Guiding";
  DEVICE_MODEL := "PHD2 Server"
|}.

(** The module-level mutable state (lines 77-81); [mqtt_client] is set once
    by [setup_mqtt] before anything publishes and is not part of it. *)
Record globals := {
  discovery_published : bool;
  guide_star_available : option bool;
  PIXEL_SCALE_ARCSEC_PER_PX : option float
}.

(** The globals when the module has been loaded. *)
Definition initial_globals : globals := {|
  discovery_published := false;
  guide_star_available := None;
  PIXEL_SCALE_ARCSEC_PER_PX := None
|}.

Definition set_discovery_published (b : bool) (g : globals) : globals :=
  {| discovery_published := b;
     guide_star_available := guide_star_available g;
     PIXEL_SCALE_ARCSEC_PER_PX := PIXEL_SCALE_ARCSEC_PER_PX g |}.

Definition set_guide_star_available (a : option bool) (g : globals) : globals :=
  {| discovery_published := discovery_published g;
     guide_star_available := a;
     PIXEL_SCALE_ARCSEC_PER_PX := PIXEL_SCALE_ARCSEC_PER_PX g |}.

Definition set_PIXEL_SCALE (s : option float) (g : globals) : globals :=
  {| discovery_published := discovery_published g;
     guide_star_available := guide_star_available g;
     PIXEL_SCALE_ARCSEC_PER_PX := s |}.

(** The payload handed to [mqtt_client.publish]: a literal string, the
    f-string rendering [f"{value}"] of a value, or [json.dumps(config)]. *)
Inductive payload :=
| Text (s : string)
| Formatted (v : pyval)
| JsonDumps (v : pyval).

Inductive level := DEBUG | INFO | WARNING | ERROR.

(** One observable action.  A log record keeps its level and its format
    string; [SockSend req] is [f.write((json.dumps(req) + "\n").encode())];
    [SockClose] is the call [sock.close()] of the [finally] block, which
    does not by itself release the connection: the file object [f] of line
    308 holds it until [f] is rebound or released, and [f] is not
    modelled. *)
Inductive effect :=
| Publish (topic : string) (p : payload) (qos : Z) (retain : bool)
| Log (lv : level) (fmt : string)
| SockConnect (host : string) (port : Z)
| SockSend (req : pyval)
| SockClose
| Sleep (seconds : Z).

(** ** The monad of the script: globals, a trace, exceptions *)

(** A computation reads and updates the globals, appends to the trace, and
    either returns or raises.  Whatever was done before an exception stays
    done. *)
Definition M (A : Type) : Type := globals → outcome A * globals * list effect.

#[export] Instance M_ret : MRet M := λ A a g, (Ret a, g, []).

(** A finished run, with the trace [t] of what came before it put in front. *)
Definition prepend {A} (t : list effect) (x : outcome A * globals * list effect)
  : outcome A * globals * list effect :=
  match x with
  | (r, g, t') => (r, g, t ++ t')
  end.

#[export] Instance M_bind : MBind M := λ A B k m g,
  match m g with
  | (Ret a, g1, t1) => prepend t1 (k a g1)
  | (Raise e, g1, t1) => (Raise e, g1, t1)
  end.

Definition raise {A} (e : exn) : M A := λ g, (Raise e, g, []).
Definition emit (e : effect) : M unit := λ g, (Ret tt, g, [e]).
Definition get_globals : M globals := λ g, (Ret g, g, []).
Definition modify (f : globals → globals) : M unit := λ g, (Ret tt, f g, []).

(** An outcome of a pure library call, run as a statement. *)
Definition lift {A} (r : outcome A) : M A := λ g, (r, g, []).

(** [try: m] with the exception, if any, handed to the caller as a value. *)
Definition try_ {A} (m : M A) : M (outcome A) := λ g,
  match m g with
  | (r, g1, t1) => (Ret r, g1, t1)
  end.

Definition log (lv : level) (fmt : string) : M unit := emit (Log lv fmt).

(** [mqtt_client.publish(topic, payload, qos=.., retain=..)]. *)
Definition mqtt_publish (topic : string) (p : payload) (qos : Z) (retain : bool)
  : M unit := emit (Publish topic p qos retain).

(** Projections of a finished run. *)
Definition result_of {A} (x : outcome A * globals * list effect) : outcome A := x.1.1.
Definition globals_of {A} (x : outcome A * globals * list effect) : globals := x.1.2.
Definition trace_of {A} (x : outcome A * globals * list effect) : list effect := x.2.

(** The payloads published on [topic], in order. *)
Fixpoint published_on (topic : string) (t : list effect) : list payload :=
  match t with
  | [] => []
  | Publish topic' p _ _ :: t' =>
      if String.eqb topic' topic then p :: published_on topic t'
      else published_on topic t'
  | _ :: t' => published_on topic t'
  end.

Definition level_eqb (a b : level) : bool :=
  match a, b with
  | DEBUG, DEBUG | INFO, INFO | WARNING, WARNING | ERROR, ERROR => true
  | _, _ => false
  end.

(** The number of log records of level [lv]. *)
Fixpoint logged_at (lv : level) (t : list effect) : nat :=
  match t with
  | [] => O
  | Log lv' _ :: t' => if level_eqb lv' lv then S (logged_at lv t') else logged_at lv t'
  | _ :: t' => logged_at lv t'
  end.

(** The trace without its log records: what the outside world is made to do. *)
Definition is_log (e : effect) : bool :=
  match e with Log _ _ => true | _ => false end.

Definition actions (t : list effect) : list effect :=
  List.filter (λ e, negb (is_log e)) t.

(** ** MQTT helpers (lines 84-238) *)

Section Bridge.

Context {libm : Libm}.
Variable cfg : config.

Definition AVAILABILITY_TOPIC : string := BASE_TOPIC cfg +:+ "/availability".

(** [DEVICE_INFO] (lines 65-70). *)
Definition DEVICE_INFO : pyval :=
  PDict (list_to_map [
    ("identifiers", PList [PStr (DEVICE_ID cfg)]);
    ("name", PStr (DEVICE_NAME cfg));
    ("manufacturer", PStr (DEVICE_MANUFACTURER cfg));
    ("model", PStr (DEVICE_MODEL cfg))
  ]).

(** One entry of the [sensors] list of [publish_discovery]. *)
Record sensor := {
  object_id : string;
  name : string;
  unit_ : option string;
  icon : option string;
  state_topic : string;
  device_class : option string
}.

Definition sensors : list sensor := [
  {| object_id := "ra_error_arcsec"; name := "PHD2 RA Error";
     unit_ := Some "arcsec"; icon := Some "mdi:axis-arrow";
     state_topic := BASE_TOPIC cfg +:+ "/ra_error_arcsec"; device_class := None |};
  {| object_id := "dec_error_arcsec"; name := "PHD2 Dec Error";
     unit_ := Some "arcsec"; icon := Some "mdi:axis-arrow";
     state_topic := BASE_TOPIC cfg +:+ "/dec_error_arcsec"; device_class := None |};
  {| object_id := "total_error_arcsec"; name := "PHD2 Total Error";
     unit_ := Some "arcsec"; icon := Some "mdi:crosshairs-gps";
     state_topic := BASE_TOPIC cfg +:+ "/total_error_arcsec"; device_class := None |};
  {| object_id := "dx_px"; name := "PHD2 dx";
     unit_ := Some "px"; icon := Some "mdi:axis-arrow";
     state_topic := BASE_TOPIC cfg +:+ "/dx_px"; device_class := None |};
  {| object_id := "dy_px"; name := "PHD2 dy";
     unit_ := Some "px"; icon := Some "mdi:axis-arrow";
     state_topic := BASE_TOPIC cfg +:+ "/dy_px"; device_class := None |};
  {| object_id := "snr"; name := "PHD2 SNR";
     unit_ := None; icon := Some "mdi:signal";
     state_topic := BASE_TOPIC cfg +:+ "/snr"; device_class := None |};
  {| object_id := "avg_dist"; name := "PHD2 Avg Dist";
     unit_ := Some "arcsec"; icon := Some "mdi:chart-bell-curve";
     state_topic := BASE_TOPIC cfg +:+ "/avg_dist"; device_class := None |}
].

(** [config[key] = v] when [v] is not [None] (lines 175-180). *)
Definition set_if_some (key : string) (v : option string)
    (config : gmap string pyval) : gmap string pyval :=
  match v with
  | Some s => <[key := PStr s]> config
  | None => config
  end.

(** The body of the loop over [sensors] (lines 160-183). *)
Definition publish_sensor_config (s : sensor) : M unit :=
  let obj_id := object_id s in
  let unique_id := DEVICE_ID cfg +:+ "_" +:+ obj_id in
  let topic :=
    DISCOVERY_PREFIX cfg +:+ "/sensor/" +:+ DEVICE_ID cfg +:+ "/" +:+ obj_id +:+ "/config" in
  let config : gmap string pyval := list_to_map [
    ("name", PStr (name s));
    ("state_topic", PStr (state_topic s));
    ("unique_id", PStr unique_id);
    ("availability_topic", PStr AVAILABILITY_TOPIC);
    ("payload_available", PStr "online");
    ("payload_not_available", PStr "offline");
    ("device", DEVICE_INFO);
    ("state_class", PStr "measurement")
  ] in
  let config := set_if_some "unit_of_measurement" (unit_ s) config in
  let config := set_if_some "device_class" (device_class s) config in
  let config := set_if_some "icon" (icon s) config in
  log DEBUG "Discovery sensor config topic=%s payload=%s";;
  mqtt_publish topic (JsonDumps (PDict config)) 1 true.

(** [for x in xs: body(x)]. *)
Fixpoint for_each {A} (body : A → M unit) (xs : list A) : M unit :=
  match xs with
  | [] => mret tt
  | x :: xs' => body x;; for_each body xs'
  end.

Definition publish_discovery : M unit :=
  g ← get_globals;
  if discovery_published g then mret tt
  else
    log INFO "Publishing Home Assistant discovery messages";;
    for_each publish_sensor_config sensors;;
    let obj_id := "guide_star_available" in
    let unique_id := DEVICE_ID cfg +:+ "_" +:+ obj_id in
    let topic :=
      DISCOVERY_PREFIX cfg +:+ "/binary_sensor/" +:+ DEVICE_ID cfg +:+ "/" +:+ obj_id
        +:+ "/config" in
    let config : gmap string pyval := list_to_map [
      ("name", PStr "PHD2 Guide Star Available");
      ("state_topic", PStr (BASE_TOPIC cfg +:+ "/guide_star_available"));
      ("unique_id", PStr unique_id);
      ("availability_topic", PStr AVAILABILITY_TOPIC);
      ("payload_available", PStr "online");
      ("payload_not_available", PStr "offline");
      ("payload_on", PStr "ON");
      ("payload_off", PStr "OFF");
      ("device_class", PStr "connectivity");
      ("icon", PStr "mdi:star");
      ("device", DEVICE_INFO)
    ] in
    log DEBUG "Discovery binary_sensor config topic=%s payload=%s";;
    mqtt_publish topic (JsonDumps (PDict config)) 1 true;;
    modify (set_discovery_published true);;
    log INFO "Home Assistant discovery messages published".

Definition set_availability (online : bool) : M unit :=
  let payload := if online then "online" else "offline" in
  log INFO "Publishing availability %s to %s";;
  mqtt_publish AVAILABILITY_TOPIC (Text payload) 1 true.

Definition publish_numeric (topic : string) (value : pyval) : M unit :=
  if is_None value then
    log DEBUG "Skipping publish for %s because value is None"
  else
    log DEBUG "Publishing numeric %s = %s";;
    mqtt_publish topic (Formatted value) 0 true.

Definition publish_guide_star_available (available : bool) : M unit :=
  g ← get_globals;
  if bool_decide (guide_star_available g = Some available) then
    log DEBUG "guide_star_available already %s, not publishing"
  else
    modify (set_guide_star_available (Some available));;
    let payload := if available then "ON" else "OFF" in
    log INFO "guide_star_available -> %s";;
    mqtt_publish (BASE_TOPIC cfg +:+ "/guide_star_available") (Text payload) 0 true.

(** ** MQTT callbacks (lines 244-257) *)

Definition on_connect (rc : Z) : M unit :=
  log INFO "Connected to MQTT broker with result code %s";;
  log DEBUG "on_connect flags=%s properties=%s";;
  if rc =? 0 then
    set_availability true;;
    publish_discovery
  else
    log ERROR "MQTT connection failed with code %s".

Definition on_disconnect (rc : Z) : M unit :=
  log INFO "Disconnected from MQTT broker with result code %s";;
  log DEBUG "on_disconnect properties=%s".


(** ** The PHD2 reading loop (lines 296-450) *)

(** What [json.loads] raises besides [JSONDecodeError]: a [RecursionError]
    on a text nested deeper than the interpreter's recursion limit (a line
    of two thousand opening brackets is one), a plain [ValueError] on an integer literal
    longer than the interpreter's limit on integer digits (4300 by default
    since Python 3.11). *)
Inductive loads_error := TooDeep | TooManyDigits.

Definition loads_exn (err : loads_error) : exn :=
  match err with
  | TooDeep => RecursionError
  | TooManyDigits => ValueError
  end.

(** One line of the stream, as the two decoders of the loop body take it:
    [raw_line.decode("utf-8")] raises [UnicodeDecodeError]; or the decoded and
    stripped text is empty; or [json.loads] raises [JSONDecodeError] on it; or
    [json.loads] raises another exception; or [json.loads] returns a
    value. *)
Inductive raw_line :=
| Undecodable
| Blank
| NotJson (text : string)
| Unparsable (err : loads_error)
| Json (msg : pyval).

Definition APP_STATE_ID : Z := 1.
Definition PIXEL_SCALE_ID : Z := 2.

Definition req_app_state : pyval :=
  PDict (list_to_map [("method", PStr "get_app_state"); ("id", PInt APP_STATE_ID)]).

Definition req_pixel_scale : pyval :=
  PDict (list_to_map [("method", PStr "get_pixel_scale"); ("id", PInt PIXEL_SCALE_ID)]).

(** The RPC-response branch (lines 351-368). *)
Definition handle_rpc_response (msg : gmap string pyval) : M unit :=
  let rpc_id := dict_get msg "id" in
  let result := dict_get msg "result" in
  log INFO "PHD2 RPC response id=%s result=%s";;
  if py_eq_int rpc_id APP_STATE_ID then
    log DEBUG "App state: %s"
  else if py_eq_int rpc_id PIXEL_SCALE_ID then
    if isinstance_int_float result then
      scale ← lift (py_float result);
      modify (set_PIXEL_SCALE (Some scale));;
      log INFO "Pixel scale set from PHD2: %s arcsec/px"
    else
      log ERROR "Unexpected get_pixel_scale result: %r"
  else
    log DEBUG "Unhandled RPC id %s".

(** The format strings of the two long log calls of the GuideStep branch
    (lines 398-401 and 408-413). *)
Definition scale_unknown_fmt : string :=
  "Pixel scale not yet known, skipping RA/Dec/Total arcsec publish. Raw px values: RA=%s Dec=%s".

Definition GuideStep_fmt : string :=
  "GuideStep at %s RA_px=%s Dec_px=%s RA_arcsec=%s Dec_arcsec=%s Total_arcsec=%s dx=%s dy=%s SNR=%s AvgDist=%s".

(** Lines 391-401: the three arcsecond values, [None] unless the scale and
    both raw distances are there. *)
Definition compute_arcsec (scale : option float) (ra_err_px dec_err_px : pyval)
  : M (pyval * pyval * pyval) :=
  match scale with
  | Some s =>
      if negb (is_None ra_err_px) && negb (is_None dec_err_px) then
        ra_arcsec ← lift (py_mul_float ra_err_px s);
        dec_arcsec ← lift (py_mul_float dec_err_px s);
        ra2 ← lift (py_pow2 ra_err_px);
        dec2 ← lift (py_pow2 dec_err_px);
        sum ← lift (py_add ra2 dec2);
        total_err_px ← lift (math_sqrt sum);
        mret (ra_arcsec, dec_arcsec, PFloat (total_err_px * s)%float)
      else
        mret (PNone, PNone, PNone)
  | None =>
      log WARNING scale_unknown_fmt;;
      mret (PNone, PNone, PNone)
  end.

(** Lines 403-406: the timestamp is converted when there is one. *)
Definition convert_timestamp (ts : pyval) : M unit :=
  if is_None ts then mret tt else lift (datetime_fromtimestamp ts).

(** Lines 415-429: the publishes of one guiding sample. *)
Definition publish_guide_metrics (scale : option float)
    (ra_arcsec dec_arcsec total_arcsec dx dy snr avg_dist : pyval) : M unit :=
  (match scale with
   | Some _ =>
       publish_numeric (BASE_TOPIC cfg +:+ "/ra_error_arcsec") ra_arcsec;;
       publish_numeric (BASE_TOPIC cfg +:+ "/dec_error_arcsec") dec_arcsec;;
       publish_numeric (BASE_TOPIC cfg +:+ "/total_error_arcsec") total_arcsec
   | None => mret tt
   end);;
  publish_numeric (BASE_TOPIC cfg +:+ "/dx_px") dx;;
  publish_numeric (BASE_TOPIC cfg +:+ "/dy_px") dy;;
  publish_numeric (BASE_TOPIC cfg +:+ "/snr") snr;;
  publish_numeric (BASE_TOPIC cfg +:+ "/avg_dist") avg_dist;;
  publish_guide_star_available true.

(** The GuideStep branch (lines 378-429). *)
Definition handle_GuideStep (msg : gmap string pyval) : M unit :=
  let ts := dict_get msg "Timestamp" in
  let ra_err_px := dict_get msg "RADistanceRaw" in
  let dec_err_px := dict_get msg "DECDistanceRaw" in
  let snr := dict_get msg "SNR" in
  let avg_dist := dict_get msg "AvgDist" in
  let dx := dict_get msg "dx" in
  let dy := dict_get msg "dy" in
  g ← get_globals;
  arcsec ← compute_arcsec (PIXEL_SCALE_ARCSEC_PER_PX g) ra_err_px dec_err_px;
  convert_timestamp ts;;
  log INFO GuideStep_fmt;;
  publish_guide_metrics (PIXEL_SCALE_ARCSEC_PER_PX g)
    arcsec.1.1 arcsec.1.2 arcsec.2 dx dy snr avg_dist.

(** Event dispatch on a dict that is not an RPC response (lines 370-436). *)
Definition handle_event (msg : gmap string pyval) : M unit :=
  let evt := dict_get msg "Event" in
  if is_None evt then
    log DEBUG "PHD2 message without 'Event' and not RPC: %s"
  else
    log DEBUG "PHD2 event: %s";;
    if py_eq_str evt "GuideStep" then
      handle_GuideStep msg
    else if py_eq_str evt "StarLost" then
      log WARNING "StarLost event from PHD2: %s";;
      publish_guide_star_available false
    else
      log DEBUG "Unhandled PHD2 event type %s: %s".

(** Lines 348-436 on the value [json.loads] returned.  The tests
    ["result" in msg] and [msg.get] assume a dict: on a number, a bool or
    [None] the membership test is a [TypeError]; a string or a list passes
    it and fails at [msg.get] with an [AttributeError]. *)
Definition handle_message (msg : pyval) : M unit :=
  log DEBUG "Decoded PHD2 message: %s";;
  match msg with
  | PDict d =>
      if dict_has d "result" && dict_has d "id" then handle_rpc_response d
      else handle_event d
  | PStr _ | PList _ => raise AttributeError
  | PNone | PBool _ | PInt _ | PFloat _ => raise TypeError
  end.

(** The body of [for raw_line in f] (lines 330-436). *)
Definition process_line (l : raw_line) : M unit :=
  log DEBUG "Raw line from PHD2 (%d bytes): %r";;
  match l with
  | Undecodable => log WARNING "Unicode decode error for PHD2 line: %s"
  | Blank => log DEBUG "Skipping empty line from PHD2"
  | NotJson _ => log WARNING "JSON decode error for PHD2 line %r: %s"
  | Unparsable err => raise (loads_exn err)
  | Json msg => handle_message msg
  end.

(** How the iteration over the socket file ends: the peer closed the stream,
    a read raised [OSError], or the operator interrupted the blocked read.
    The blocked read is where the script waits; an interrupt that arrives
    elsewhere (inside [create_connection] or a write, or inside the
    [time.sleep(5)] of the [except] clause, which no clause then catches) is
    not an input of this model, and nothing below speaks of one. *)
Inductive stream_end := EndOfStream | ReadError | Interrupt.

(** What the outside world does to one pass of the [while True] loop:
    [socket.create_connection] raises [OSError]; or the connection is made
    and the first, or the second, [f.write] raises [OSError]; or both
    requests are written and the stream delivers [lines] and then ends. *)
Inductive attempt :=
| ConnectFails
| WriteFails (second : bool)
| Session (lines : list raw_line) (fin : stream_end).

(** Lines 310-324: the two requests of a fresh connection. *)
Definition send_rpc_requests (a : attempt) : M unit :=
  log DEBUG "Sending RPC to PHD2: %s";;
  (match a with
   | WriteFails false => raise OSError
   | _ => emit (SockSend req_app_state)
   end);;
  log DEBUG "Sending RPC to PHD2: %s";;
  match a with
  | WriteFails true => raise OSError
  | _ => emit (SockSend req_pixel_scale)
  end.

(** Lines 329-436 and the way the [for] statement is left. *)
Definition read_stream (a : attempt) : M unit :=
  match a with
  | Session lines fin =>
      for_each process_line lines;;
      match fin with
      | EndOfStream => mret tt
      | ReadError => raise OSError
      | Interrupt => raise KeyboardInterrupt
      end
  | _ => mret tt
  end.

(** Lines 305-324: the connection is made and the two requests are
    written. *)
Definition open_connection (a : attempt) : M unit :=
  log INFO "Connecting to PHD2 at %s:%s";;
  match a with
  | ConnectFails => raise OSError
  | _ =>
      emit (SockConnect (PHD2_HOST cfg) (PHD2_PORT cfg));;
      log INFO "Connected to PHD2 server";;
      send_rpc_requests a
  end.

(** The [try] block (lines 305-436): after the requests the scale is reset
    (line 327), then the stream is read. *)
Definition connection (a : attempt) : M unit :=
  open_connection a;;
  modify (set_PIXEL_SCALE None);;
  read_stream a.

(** The [finally] block (lines 444-450): [sock] is not [None] exactly when
    [create_connection] returned. *)
Definition close_socket (a : attempt) : M unit :=
  match a with
  | ConnectFails => mret tt
  | _ => log INFO "Closing PHD2 socket";; emit SockClose
  end.

(** How [read_phd2_events] stands when the attempts are used up: it has
    returned through [break], or it is at the top of its loop about to
    connect again. *)
Inductive loop_state := Exited | Looping.

(** One pass of [while True] (lines 303-450): [Some Exited] after [break],
    [None] when the loop goes round again; an exception that no [except]
    clause names is raised again after the [finally] block. *)
Definition iteration (a : attempt) : M (option loop_state) :=
  r ← try_ (connection a);
  match r with
  | Ret _ =>
      close_socket a;; mret None
  | Raise OSError =>
      log ERROR "PHD2 connection error: %s. Retrying in 5 seconds.";;
      emit (Sleep 5);;
      close_socket a;; mret None
  | Raise KeyboardInterrupt =>
      log INFO "Interrupted by user, exiting PHD2 loop";;
      close_socket a;; mret (Some Exited)
  | Raise e =>
      close_socket a;; raise e
  end.

Fixpoint read_phd2_events (script : list attempt) : M loop_state :=
  match script with
  | [] => mret Looping
  | a :: script' =>
      r ← iteration a;
      match r with
      | Some st => mret st
      | None => read_phd2_events script'
      end
  end.

(** ** Messages as PHD2 sends them *)

(** [{"Event": "StarLost", ...}]. *)
Definition msg_StarLost : pyval :=
  PDict (list_to_map [("Event", PStr "StarLost"); ("Timestamp", PFloat 1700000001.5);
                      ("Host", PStr "scope"); ("Inst", PInt 1); ("Frame", PInt 8);
                      ("Status", PStr "No star found")]).

(** A GuideStep event with the fields the bridge reads. *)
Definition msg_GuideStep (ra dec : pyval) : pyval :=
  PDict (list_to_map [("Event", PStr "GuideStep"); ("Timestamp", PFloat 1700000000.5);
                      ("Host", PStr "scope"); ("Inst", PInt 1); ("Frame", PInt 7);
                      ("dx", PFloat 0.25); ("dy", PFloat (-0.5));
                      ("RADistanceRaw", ra); ("DECDistanceRaw", dec);
                      ("SNR", PFloat 12.5); ("AvgDist", PFloat 0.75)]).

(** [{"jsonrpc": "2.0", "result": result, "id": id}]. *)
Definition msg_rpc_result (id : Z) (result : pyval) : pyval :=
  PDict (list_to_map [("jsonrpc", PStr "2.0"); ("result", result); ("id", PInt id)]).

(** ** The process as a whole *)

(** What happens in the process once [main] has set up the MQTT client: the
    client's network thread calls [on_connect] or [on_disconnect], or the
    main thread makes one pass of the PHD2 loop or handles one line in it. *)
Inductive activity :=
| MqttConnected (rc : Z)
| MqttDisconnected (rc : Z)
| Phd2Attempt (a : attempt)
| Phd2Line (l : raw_line).

Definition run_activity (x : activity) : M unit :=
  match x with
  | MqttConnected rc => on_connect rc
  | MqttDisconnected rc => on_disconnect rc
  | Phd2Attempt a => iteration a;; mret tt
  | Phd2Line l => process_line l
  end.

(** A history of the process; an exception escaping an activity ends it. *)
Definition run_history (h : list activity) : M unit := for_each run_activity h.

End Bridge.

(** ** The settings read from the environment (lines 31-75) *)

(** The settings of the MQTT connection (lines 46-52), which only
    [setup_mqtt] reads. *)
Record mqtt_config := {
  MQTT_HOST : string;
  MQTT_PORT : Z;
  MQTT_USERNAME : option string;
  MQTT_PASSWORD : option string;
  MQTT_CLIENT_ID : string;
  MQTT_KEEPALIVE : Z
}.

Definition default_mqtt_config : mqtt_config := {|
  MQTT_HOST := "127.0.0.1";
  MQTT_PORT := 1883;
  MQTT_USERNAME := None;
  MQTT_PASSWORD := None;
  MQTT_CLIENT_ID := "phd2_guiding_bridge";
  MQTT_KEEPALIVE := 60
|}.

Section Environment.

(** [int(val)] on a string: the integer it denotes, or nothing where Python
    raises [ValueError].  Which texts Python accepts (blanks around the
    number, a sign, underscores between digits, any Unicode decimal digit, a
    bound on the number of digits) is left open. *)
Variable py_int : string → option Z.

(** [os.environ]. *)
Variable environ : gmap string string.

(** [os.environ.get(name, fallback)]. *)
Definition environ_get (name fallback : string) : string :=
  match environ !! name with
  | Some val => val
  | None => fallback
  end.

(** [os.environ.get(name) or None] (lines 49-50): the empty string is
    falsy. *)
Definition environ_get_or_None (name : string) : option string :=
  match environ !! name with
  | Some val => if String.eqb val "" then None else Some val
  | None => None
  end.

(** Lines 31-39; the second parameter is called [default] in the script. *)
Definition getenv_int (name : string) (fallback : Z) : M Z :=
  match environ !! name with
  | None => mret fallback
  | Some val =>
      if String.eqb val "" then mret fallback
      else
        match py_int val with
        | Some n => mret n
        | None =>
            log WARNING "Invalid int for %s=%r, using default %r";;
            mret fallback
        end
  end.

(** The module-level statements of lines 42-75, in their order: the settings
    are read, then three records announce the start. *)
Definition load_settings : M (config * mqtt_config) :=
  let phd2_host := environ_get "PHD2_HOST" "127.0.0.1" in
  phd2_port ← getenv_int "PHD2_PORT" 4400;
  let mqtt_host := environ_get "MQTT_HOST" "127.0.0.1" in
  mqtt_port ← getenv_int "MQTT_PORT" 1883;
  let mqtt_username := environ_get_or_None "MQTT_USERNAME" in
  let mqtt_password := environ_get_or_None "MQTT_PASSWORD" in
  let mqtt_client_id := environ_get "MQTT_CLIENT_ID" "phd2_guiding_bridge" in
  mqtt_keepalive ← getenv_int "MQTT_KEEPALIVE" 60;
  log INFO "Starting PHD2 MQTT bridge";;
  log INFO "PHD2_HOST=%s PHD2_PORT=%s";;
  log INFO "MQTT_HOST=%s MQTT_PORT=%s CLIENT_ID=%s BASE_TOPIC=%s DEVICE_ID=%s";;
  mret ({| PHD2_HOST := phd2_host;
           PHD2_PORT := phd2_port;
           DISCOVERY_PREFIX := environ_get "DISCOVERY_PREFIX" "homeassistant";
           BASE_TOPIC := environ_get "BASE_TOPIC" "phd2/guiding";
           DEVICE_ID := environ_get "DEVICE_ID" "phd2_guiding_server";
           DEVICE_NAME := environ_get "DEVICE_NAME" "PHD2 Guiding";
           DEVICE_MANUFACTURER := environ_get "DEVICE_MANUFACTURER" "Open PHD Guiding";
           DEVICE_MODEL := environ_get "DEVICE_MODEL" "PHD2 Server" |},
        {| MQTT_HOST := mqtt_host;
           MQTT_PORT := mqtt_port;
           MQTT_USERNAME := mqtt_username;
           MQTT_PASSWORD := mqtt_password;
           MQTT_CLIENT_ID := mqtt_client_id;
           MQTT_KEEPALIVE := mqtt_keepalive |}).

End Environment.

(** ** The MQTT client and [main] (lines 264-289 and 457-470) *)

(** What the main thread asks of the paho client, besides publishing.
    [SetCallbacks] is the pair of assignments of lines 274-275. *)
Inductive client_call :=
| NewClient (client_id : string)
| UsernamePwSet (username : string) (password : option string)
| SetCallbacks
| WillSet (topic payload : string) (qos : Z) (retain : bool)
| ClientConnect (host : string) (port keepalive : Z)
| LoopStart
| LoopStop
| ClientDisconnect.

(** One observable action of the main thread: an action of the functions
    above, or a call on the client.  What the client's network thread does
    once [loop_start] has returned (the two callbacks) is not part of the
    main thread's trace. *)
Inductive main_effect :=
| Effect (e : effect)
| ClientCall (c : client_call).

(** The module-level state [main] runs on: the globals, and whether
    [mqtt_client] has been assigned (line 268) or is still [None]. *)
Record process := {
  module_globals : globals;
  mqtt_client : bool
}.

(** What the client library does to [setup_mqtt]: the constructor
    [mqtt.Client] and [connect] either return or raise; the other calls
    ([username_pw_set], [will_set], [loop_start], [loop_stop], [disconnect])
    return. *)
Record broker := {
  client_error : option exn;
  connect_error : option exn
}.

(** The monad of the main thread, of the same shape as [M]. *)
Definition Proc (A : Type) : Type := process → outcome A * process * list main_effect.

#[export] Instance Proc_ret : MRet Proc := λ A a p, (Ret a, p, []).

#[export] Instance Proc_bind : MBind Proc := λ A B k m p,
  match m p with
  | (Ret a, p1, t1) =>
      match k a p1 with
      | (r, p2, t2) => (r, p2, t1 ++ t2)
      end
  | (Raise e, p1, t1) => (Raise e, p1, t1)
  end.

(** A computation of the script, run by the main thread. *)
Definition in_script {A} (m : M A) : Proc A := λ p,
  match m (module_globals p) with
  | (r, g, t) =>
      (r, {| module_globals := g; mqtt_client := mqtt_client p |}, Effect <$> t)
  end.

(** A call on the client, which returns or raises [error]. *)
Definition call (c : client_call) (error : option exn) : Proc unit := λ p,
  match error with
  | Some e => (Raise e, p, [])
  | None => (Ret tt, p, [ClientCall c])
  end.

Definition raise_again {A} (e : exn) : Proc A := λ p, (Raise e, p, []).

Definition try_main {A} (m : Proc A) : Proc (outcome A) := λ p,
  match m p with
  | (r, p1, t1) => (Ret r, p1, t1)
  end.

Definition get_process : Proc process := λ p, (Ret p, p, []).

Definition set_mqtt_client : Proc unit := λ p,
  (Ret tt, {| module_globals := module_globals p; mqtt_client := true |}, []).

Section Main.

Context {libm : Libm}.
Variables (cfg : config) (mcfg : mqtt_config).

(** Lines 264-289. *)
Definition setup_mqtt (b : broker) : Proc unit :=
  in_script (log INFO "Setting up MQTT client");;
  call (NewClient (MQTT_CLIENT_ID mcfg)) (client_error b);;
  set_mqtt_client;;
  (match MQTT_USERNAME mcfg with
   | Some username =>
       in_script (log INFO "Using MQTT username authentication");;
       call (UsernamePwSet username (MQTT_PASSWORD mcfg)) None
   | None => mret tt
   end);;
  call SetCallbacks None;;
  in_script (log INFO "Configuring MQTT LWT on topic %s");;
  call (WillSet (AVAILABILITY_TOPIC cfg) "offline" 1 true) None;;
  in_script (log INFO "Connecting to MQTT broker at %s:%s");;
  call (ClientConnect (MQTT_HOST mcfg) (MQTT_PORT mcfg) (MQTT_KEEPALIVE mcfg))
    (connect_error b);;
  call LoopStart None;;
  in_script (log INFO "MQTT loop started").

(** The [finally] block of [main] (lines 461-470).  [except Exception] does
    not catch a [KeyboardInterrupt]. *)
Definition main_finally : Proc unit :=
  r ← try_main (in_script (set_availability cfg false));
  (match r with
   | Ret _ => mret tt
   | Raise KeyboardInterrupt => raise_again KeyboardInterrupt
   | Raise _ => in_script (log DEBUG "Error setting availability offline in shutdown: %s")
   end);;
  p ← get_process;
  (if mqtt_client p then
     in_script (log INFO "Stopping MQTT loop and disconnecting");;
     call LoopStop None;;
     call ClientDisconnect None
   else mret tt);;
  in_script (log INFO "PHD2 MQTT bridge stopped").

(** Lines 457-470.  [setup_mqtt] is called outside the [try] statement.
    While [read_phd2_events] is still in its loop the [finally] block has
    not been reached; it runs when the loop is left, by [break] or by an
    exception, which is raised again after it. *)
Definition main (b : broker) (script : list attempt) : Proc loop_state :=
  setup_mqtt b;;
  r ← try_main (in_script (read_phd2_events cfg script));
  match r with
  | Ret Looping => mret Looping
  | Ret Exited => main_finally;; mret Exited
  | Raise e => main_finally;; raise_again e
  end.

End Main.

(** * Views of the script used in the statements *)

Section Statements.

Context {libm : Libm}.

(** ** How a line is classified *)

(** How the loop body classifies a decoded dict. *)
Inductive message_kind :=
| RpcResponse
| NoEvent
| GuideStep
| StarLost
| OtherEvent.

Definition classify (msg : gmap string pyval) : message_kind :=
  if dict_has msg "result" && dict_has msg "id" then RpcResponse
  else if is_None (dict_get msg "Event") then NoEvent
  else if py_eq_str (dict_get msg "Event") "GuideStep" then GuideStep
  else if py_eq_str (dict_get msg "Event") "StarLost" then StarLost
  else OtherEvent.

(** The response that sets the scale: its id equals [PIXEL_SCALE_ID] (and
    not [APP_STATE_ID], which is tested first) and its result passes the
    [isinstance] test. *)
Definition sets_scale (msg : gmap string pyval) : bool :=
  negb (py_eq_int (dict_get msg "id") APP_STATE_ID) &&
  py_eq_int (dict_get msg "id") PIXEL_SCALE_ID &&
  isinstance_int_float (dict_get msg "result").

(** The result carried by a line that the loop body takes for an answer to
    [get_pixel_scale] and accepts: an RPC response whose id equals
    [PIXEL_SCALE_ID] and whose result passes [isinstance(result, (int,
    float))]. *)
Definition scale_response (l : raw_line) : option pyval :=
  match l with
  | Json (PDict msg) =>
      match classify msg with
      | RpcResponse => if sets_scale msg then Some (dict_get msg "result") else None
      | _ => None
      end
  | _ => None
  end.

(** The scale a stream leaves behind when every accepted response
    overwrites it. *)
Definition latest_scale (scale : option float) (ls : list raw_line) : option float :=
  fold_left
    (λ acc l,
       match scale_response l with
       | Some v => match py_float v with Ret f => Some f | Raise _ => acc end
       | None => acc
       end)
    ls scale.

(** A line one of the two decoders rejects with the exception the loop body
    catches: [UnicodeDecodeError] from [decode], [JSONDecodeError] from
    [json.loads]. *)
Definition malformed (l : raw_line) : bool :=
  match l with
  | Undecodable | NotJson _ => true
  | _ => false
  end.

(** An attempt on which no stream is read: the connection is refused, or a
    request cannot be written. *)
Definition refused (a : attempt) : bool :=
  match a with
  | Session _ _ => false
  | _ => true
  end.

(** ** Numbers *)

(** A JSON number as Python holds it: an [int], which is exact (a [bool] is
    an [int]), or a [float]. *)
Inductive number :=
| Exact (z : Z)
| Approx (a : float).

Definition number_of (v : pyval) : option number :=
  match v with
  | PInt z => Some (Exact z)
  | PBool b => Some (Exact (bool_to_Z b))
  | PFloat a => Some (Approx a)
  | _ => None
  end.

(** [float(n)]. *)
Definition to_float (n : number) : float :=
  match n with
  | Exact z => Z_to_float z
  | Approx a => a
  end.

(** The float that [a ** 2] is where [float_pow2] returns one; the other
    case does not arise in a line that is processed to the end. *)
Definition float_square (a : float) : float :=
  match float_pow2 a with
  | Ret r => r
  | Raise _ => infinity
  end.

(** [n ** 2] and [m + n]: exact on integers; a float is squared by
    [float_pow2]; an integer that meets a float is converted first. *)
Definition squared (n : number) : number :=
  match n with
  | Exact z => Exact (z * z)
  | Approx a => Approx (float_square a)
  end.

Definition plus (m n : number) : number :=
  match m, n with
  | Exact a, Exact b => Exact (a + b)
  | _, _ => Approx (to_float m + to_float n)%float
  end.

(** [math.sqrt(ra ** 2 + dec ** 2)]. *)
Definition root_of_squares (ra dec : number) : float :=
  PrimFloat.sqrt (to_float (plus (squared ra) (squared dec))).

(** ** The fields of a GuideStep *)



(** ** The guide-star flag *)

Definition guide_star_topic (cfg : config) : string :=
  BASE_TOPIC cfg +:+ "/guide_star_available".

Definition on_off (v : bool) : payload := Text (if v then "ON" else "OFF").

(** The guide-star value a line stands for: [true] for a GuideStep event,
    [false] for a StarLost event, none for anything else. *)
Definition observation (l : raw_line) : option bool :=
  match l with
  | Json (PDict msg) =>
      match classify msg with
      | GuideStep => Some true
      | StarLost => Some false
      | _ => None
      end
  | _ => None
  end.

(** The decision rule in the words of the specification
    ([guideStarTransitioned]): an observation is a transition, and is
    published and stored, iff it differs from the stored value, the unknown
    value differing from both. *)
Fixpoint spec_transitions (flag : option bool) (obs : list bool) : list bool :=
  match obs with
  | [] => []
  | v :: obs' =>
      if bool_decide (flag = Some v) then spec_transitions flag obs'
      else v :: spec_transitions (Some v) obs'
  end.

(** What each line of a stream publishes on [topic], line by line, up to
    and including a line that raises. *)
Fixpoint published_per_line (cfg : config) (topic : string) (ls : list raw_line)
    (g : globals) : list (list payload) :=
  match ls with
  | [] => []
  | l :: ls' =>
      let x := process_line cfg l g in
      published_on topic (trace_of x) ::
      match result_of x with
      | Ret _ => published_per_line cfg topic ls' (globals_of x)
      | Raise _ => []
      end
  end.

(** ** Pieces of traces *)

(** What [publish_numeric] contributes on a topic. *)
Definition numeric_payloads (v : pyval) : list payload :=
  if is_None v then [] else [Formatted v].

(** The trace of [publish_guide_metrics], piece by piece. *)
Definition numeric_trace (topic : string) (v : pyval) : list effect :=
  trace_of (publish_numeric topic v initial_globals).

Definition arcsec_trace (cfg : config) (scale : option float)
    (ra_arcsec dec_arcsec total_arcsec : pyval) : list effect :=
  match scale with
  | Some _ =>
      numeric_trace (BASE_TOPIC cfg +:+ "/ra_error_arcsec") ra_arcsec ++
      numeric_trace (BASE_TOPIC cfg +:+ "/dec_error_arcsec") dec_arcsec ++
      numeric_trace (BASE_TOPIC cfg +:+ "/total_error_arcsec") total_arcsec
  | None => []
  end.

Definition line_prefix : list effect :=
  [Log DEBUG "Raw line from PHD2 (%d bytes): %r"; Log DEBUG "Decoded PHD2 message: %s"].

(** What making a connection and writing the two requests does. *)
Definition opening_trace (cfg : config) : list effect :=
  [Log INFO "Connecting to PHD2 at %s:%s";
   SockConnect (PHD2_HOST cfg) (PHD2_PORT cfg);
   Log INFO "Connected to PHD2 server";
   Log DEBUG "Sending RPC to PHD2: %s";
   SockSend req_app_state;
   Log DEBUG "Sending RPC to PHD2: %s";
   SockSend req_pixel_scale].

Definition stream_end_outcome (fin : stream_end) : outcome unit :=
  match fin with
  | EndOfStream => Ret tt
  | ReadError => Raise OSError
  | Interrupt => Raise KeyboardInterrupt
  end.

(** What one pass of the loop appends once the stream has ended. *)
Definition closing_trace (fin : stream_end) : list effect :=
  match fin with
  | EndOfStream => [Log INFO "Closing PHD2 socket"; SockClose]
  | ReadError =>
      [Log ERROR "PHD2 connection error: %s. Retrying in 5 seconds."; Sleep 5;
       Log INFO "Closing PHD2 socket"; SockClose]
  | Interrupt =>
      [Log INFO "Interrupted by user, exiting PHD2 loop";
       Log INFO "Closing PHD2 socket"; SockClose]
  end.

(** ** Discovery records, sleeps, and what a computation leaves alone *)

(** Only [publish_discovery] publishes a [json.dumps] payload. *)
Definition is_discovery (e : effect) : bool :=
  match e with
  | Publish _ (JsonDumps _) _ _ => true
  | _ => false
  end.

Definition discovery_publishes (t : list effect) : list effect :=
  List.filter is_discovery t.

(** What the first run of [publish_discovery] does. *)
Definition discovery_trace (cfg : config) : list effect :=
  trace_of (publish_discovery cfg initial_globals).

Definition is_sleep (e : effect) : bool :=
  match e with Sleep _ => true | _ => false end.

(** The globals keep their discovery flag. *)
Definition same_discovery : relation globals :=
  λ g g', discovery_published g' = discovery_published g.

(** No constraint on the globals. *)
Definition any_globals : relation globals := λ _ _, True.

(** A computation that keeps [inv] between the globals it starts from and
    those it leaves, and whose trace shows no [hidden] effect. *)
Definition respects (inv : relation globals) (hidden : effect → bool) {A} (m : M A)
  : Prop :=
  ∀ g, inv g (globals_of (m g)) ∧ List.filter hidden (trace_of (m g)) = [].

(** ** Topics and flags *)

(** The last segment of each topic that carries a state. *)
Definition state_suffixes : list string :=
  ["/ra_error_arcsec"; "/dec_error_arcsec"; "/total_error_arcsec";
   "/dx_px"; "/dy_px"; "/snr"; "/avg_dist"; "/guide_star_available"].

Definition is_publish (e : effect) : bool :=
  match e with Publish _ _ _ _ => true | _ => false end.

Definition topic_of (e : effect) : option string :=
  match e with Publish topic _ _ _ => Some topic | _ => None end.

(** A publish on [topic]. *)
Definition on_topic (topic : string) (e : effect) : bool :=
  match e with Publish topic' _ _ _ => String.eqb topic' topic | _ => false end.

(** The string a discovery record holds under [key]. *)
Definition discovery_field (key : string) (e : effect) : option string :=
  match e with
  | Publish _ (JsonDumps (PDict config)) _ _ =>
      match config !! key with
      | Some (PStr s) => Some s
      | _ => None
      end
  | _ => None
  end.

(** What the discovery records say under [key], record by record. *)
Definition announced (cfg : config) (key : string) : list string :=
  omap (discovery_field key) (discovery_trace cfg).

(** The topics the discovery records are published on. *)
Definition discovery_topics (cfg : config) : list string :=
  omap topic_of (discovery_trace cfg).

Fixpoint last_char (s : string) : option Ascii.ascii :=
  match s with
  | "" => None
  | String c s' =>
      match last_char s' with
      | None => Some c
      | r => r
      end
  end.

(** The topics served with QoS 1: availability and discovery. *)
Definition at_least_once (cfg : config) (topic : string) : bool :=
  String.eqb topic (AVAILABILITY_TOPIC cfg) ||
  existsb (String.eqb topic) (discovery_topics cfg).

(** A publish is retained, with QoS 1 on the topics of [at_least_once] and
    QoS 0 on every other. *)
Definition flags_as_intended (cfg : config) (e : effect) : bool :=
  match e with
  | Publish topic _ qos retain =>
      retain && (qos =? if at_least_once cfg topic then 1 else 0)
  | _ => true
  end.

Definition successful_connect (x : activity) : bool :=
  match x with MqttConnected rc => rc =? 0 | _ => false end.

(** ** Histories with and without the MQTT callbacks *)

(** A finished run with [f] applied to the globals it left. *)
Definition over {A} (f : globals → globals) (x : outcome A * globals * list effect)
  : outcome A * globals * list effect :=
  match x with
  | (r, g, t) => (r, f g, t)
  end.

(** A computation that neither reads nor writes what [f] changes. *)
Definition blind_to (f : globals → globals) {A} (m : M A) : Prop :=
  ∀ g, m (f g) = over f (m g).

Definition is_phd2 (x : activity) : bool :=
  match x with Phd2Attempt _ | Phd2Line _ => true | _ => false end.

(** A publish on the availability topic or on the topic of a discovery
    record: what the MQTT callbacks publish. *)
Definition is_callback_publish (cfg : config) (e : effect) : bool :=
  match e with Publish topic _ _ _ => at_least_once cfg topic | _ => false end.

(** The actions of a trace other than the publishes of the callbacks. *)
Definition guiding_actions (cfg : config) (t : list effect) : list effect :=
  List.filter (λ e, negb (is_callback_publish cfg e)) (actions t).

(** ** Streams over several connections *)

Definition session_lines (a : attempt) : list raw_line :=
  match a with Session lines _ => lines | _ => [] end.

(** Every stream of the script is read to its end, no line raising, and is
    ended by the peer or by a read error. *)
Fixpoint streams_read_through (cfg : config) (script : list attempt) (g : globals)
  : bool :=
  match script with
  | [] => true
  | a :: script' =>
      match a with
      | Session lines fin =>
          match result_of (for_each (process_line cfg) lines (set_PIXEL_SCALE None g)), fin with
          | Ret _, (EndOfStream | ReadError) =>
              streams_read_through cfg script' (globals_of (iteration cfg a g))
          | _, _ => false
          end
      | _ => streams_read_through cfg script' (globals_of (iteration cfg a g))
      end
  end.

(** The flag after a run of observations. *)
Definition last_observation (flag : option bool) (obs : list bool) : option bool :=
  fold_left (λ _ v, Some v) obs flag.

(** The two calls on a socket: [create_connection] returning it, and its
    [close]. *)
Definition is_socket_lifetime (e : effect) : bool :=
  match e with SockConnect _ _ | SockClose => true | _ => false end.



(** ** Exceptions *)

Definition uninterrupted {A} (r : outcome A) : Prop :=
  match r with Raise KeyboardInterrupt => False | _ => True end.

Definition never_interrupts {A} (m : M A) : Prop :=
  ∀ g, uninterrupted (result_of (m g)).

(** ** The main thread *)

(** A client library none of whose calls raises. *)
Definition broker_up : broker := {| client_error := None; connect_error := None |}.

(** The process when the module has been loaded with globals [g]. *)
Definition loaded (g : globals) : process :=
  {| module_globals := g; mqtt_client := false |}.

Definition result_of_main {A} (x : outcome A * process * list main_effect) : outcome A :=
  x.1.1.

Definition trace_of_main {A} (x : outcome A * process * list main_effect)
  : list main_effect := x.2.

(** What [setup_mqtt] does when nothing raises. *)
Definition setup_trace (cfg : config) (mcfg : mqtt_config) : list main_effect :=
  trace_of_main (setup_mqtt cfg mcfg broker_up (loaded initial_globals)).

(** What the [finally] block of [main] does. *)
Definition finally_trace (cfg : config) : list main_effect :=
  [Effect (Log INFO "Publishing availability %s to %s");
   Effect (Publish (AVAILABILITY_TOPIC cfg) (Text "offline") 1 true);
   Effect (Log INFO "Stopping MQTT loop and disconnecting");
   ClientCall LoopStop;
   ClientCall ClientDisconnect;
   Effect (Log INFO "PHD2 MQTT bridge stopped")].

Definition effect_of (m : main_effect) : option effect :=
  match m with Effect e => Some e | ClientCall _ => None end.

Definition client_call_of (m : main_effect) : option client_call :=
  match m with ClientCall c => Some c | Effect _ => None end.

(** The message a registered will makes the broker publish when the client
    is lost. *)
Definition last_will (m : main_effect) : option effect :=
  match m with
  | ClientCall (WillSet topic payload qos retain) =>
      Some (Publish topic (Text payload) qos retain)
  | _ => None
  end.

Definition is_connect (m : main_effect) : bool :=
  match m with ClientCall (ClientConnect _ _ _) => true | _ => false end.

(** ** Settings *)

(** An integer setting: what [int] makes of the variable when it is set,
    not empty and accepted, the fallback otherwise. *)
Definition int_setting (py_int : string → option Z) (environ : gmap string string)
    (name : string) (fallback : Z) : Z :=
  default fallback (environ_get_or_None environ name ≫= py_int).

(** The variable is set, not empty, and [int] rejects it. *)
Definition rejected (py_int : string → option Z) (environ : gmap string string)
    (name : string) : bool :=
  match environ_get_or_None environ name with
  | Some val => match py_int val with Some _ => false | None => true end
  | None => false
  end.

Definition invalid_int_trace (py_int : string → option Z) (environ : gmap string string)
    (name : string) : list effect :=
  if rejected py_int environ name
  then [Log WARNING "Invalid int for %s=%r, using default %r"] else [].

Definition startup_trace : list effect :=
  [Log INFO "Starting PHD2 MQTT bridge";
   Log INFO "PHD2_HOST=%s PHD2_PORT=%s";
   Log INFO "MQTT_HOST=%s MQTT_PORT=%s CLIENT_ID=%s BASE_TOPIC=%s DEVICE_ID=%s"].

(** * Properties *)

(** ** Runs of composed computations *)

Section Runs.

Context {A B : Type}.
Implicit Types (m : M A) (k : A → M B) (g : globals).

Lemma run_bind m k g :
  (m ≫= k) g =
  match m g with
  | (Ret a, g1, t1) => prepend t1 (k a g1)
  | (Raise e, g1, t1) => (Raise e, g1, t1)
  end.
Proof. reflexivity. Qed.

Lemma run_bind_Ret m k g a g1 t1 :
  m g = (Ret a, g1, t1) → (m ≫= k) g = prepend t1 (k a g1).
Proof. intros H. rewrite run_bind, H. reflexivity. Qed.

Lemma run_bind_Raise m k g e g1 t1 :
  m g = (Raise e, g1, t1) → (m ≫= k) g = (Raise e, g1, t1).
Proof. intros H. rewrite run_bind, H. reflexivity. Qed.

End Runs.

Lemma run_eta {A} (x : outcome A * globals * list effect) :
  x = (result_of x, globals_of x, trace_of x).
Proof. destruct x as [[r g] t]; reflexivity. Qed.

Lemma result_of_prepend {A} t (x : outcome A * globals * list effect) :
  result_of (prepend t x) = result_of x.
Proof. destruct x as [[r g] t']; reflexivity. Qed.

Lemma globals_of_prepend {A} t (x : outcome A * globals * list effect) :
  globals_of (prepend t x) = globals_of x.
Proof. destruct x as [[r g] t']; reflexivity. Qed.

Lemma trace_of_prepend {A} t (x : outcome A * globals * list effect) :
  trace_of (prepend t x) = t ++ trace_of x.
Proof. destruct x as [[r g] t']; reflexivity. Qed.

Lemma prepend_nil {A} (x : outcome A * globals * list effect) : prepend [] x = x.
Proof. destruct x as [[r g] t']; reflexivity. Qed.

Lemma for_each_cons {A} (body : A → M unit) x xs g :
  for_each body (x :: xs) g =
  match body x g with
  | (Ret _, g1, t1) => prepend t1 (for_each body xs g1)
  | (Raise e, g1, t1) => (Raise e, g1, t1)
  end.
Proof. reflexivity. Qed.

Lemma for_each_app {A} (body : A → M unit) xs ys : ∀ g,
  for_each body (xs ++ ys) g =
  match for_each body xs g with
  | (Ret _, g1, t1) => prepend t1 (for_each body ys g1)
  | (Raise e, g1, t1) => (Raise e, g1, t1)
  end.
Proof.
  induction xs as [|x xs IH]; intros g.
  - cbn. rewrite prepend_nil. reflexivity.
  - cbn [app]. rewrite !for_each_cons.
    destruct (body x g) as [[[[]|e] g1] t1]; [|reflexivity].
    rewrite IH.
    destruct (for_each body xs g1) as [[[[]|e] g2] t2]; [|reflexivity].
    cbn [prepend]. destruct (for_each body ys g2) as [[r g3] t3].
    cbn [prepend]. rewrite app_assoc. reflexivity.
Qed.

(** ** Traces *)

Lemma published_on_app topic t1 t2 :
  published_on topic (t1 ++ t2) = published_on topic t1 ++ published_on topic t2.
Proof.
  induction t1 as [|e t1 IH]; [reflexivity|].
  destruct e; simpl; try apply IH.
  destruct (String.eqb topic0 topic); simpl; [f_equal|]; apply IH.
Qed.

Lemma logged_at_app lv t1 t2 :
  logged_at lv (t1 ++ t2) = (logged_at lv t1 + logged_at lv t2)%nat.
Proof.
  induction t1 as [|e t1 IH]; [reflexivity|].
  destruct e; simpl; try apply IH.
  destruct (level_eqb lv0 lv); simpl; rewrite IH; reflexivity.
Qed.

Lemma actions_app t1 t2 : actions (t1 ++ t2) = actions t1 ++ actions t2.
Proof. unfold actions. apply List.filter_app. Qed.

(** Publishing is an action: a trace with no action publishes nothing. *)
Lemma published_on_actions topic t :
  published_on topic (actions t) = published_on topic t.
Proof.
  induction t as [|e t IH]; [reflexivity|].
  destruct e; simpl; try apply IH.
  destruct (String.eqb topic0 topic); [f_equal|]; apply IH.
Qed.

Lemma published_on_no_actions topic t : actions t = [] → published_on topic t = [].
Proof. intros H. rewrite <- published_on_actions, H. reflexivity. Qed.

Lemma discovery_publishes_app t1 t2 :
  discovery_publishes (t1 ++ t2) = discovery_publishes t1 ++ discovery_publishes t2.
Proof. apply List.filter_app. Qed.

Lemma published_on_line_prefix topic t :
  published_on topic (line_prefix ++ t) = published_on topic t.
Proof. reflexivity. Qed.

(** ** Topics under one base are told apart by their suffix *)

Lemma eqb_append_prefix (b x y : string) :
  String.eqb (b +:+ x) (b +:+ y) = String.eqb x y.
Proof.
  induction b as [|c b IH]; [reflexivity|].
  simpl. rewrite Ascii.eqb_refl. apply IH.
Qed.

Lemma eqb_topic_suffix (b x y : string) :
  String.eqb x y = false → String.eqb (b +:+ x) (b +:+ y) = false.
Proof. intros H. rewrite eqb_append_prefix. exact H. Qed.

(** Decide the comparison of two topics under the same base. *)
Ltac topics := rewrite ?eqb_append_prefix; cbn [String.eqb Ascii.eqb Bool.eqb].

(** ** Computations that leave something alone *)

#[local] Instance same_discovery_preorder : PreOrder same_discovery.
Proof.
  split; [intros g; reflexivity|].
  intros g1 g2 g3 H12 H23. unfold same_discovery in *. congruence.
Qed.

#[local] Instance any_globals_preorder : PreOrder any_globals.
Proof. split; intros ?; intros; exact I. Qed.

Section Respects.

Context (inv : relation globals) `{!PreOrder inv} (hidden : effect → bool).

Lemma respects_ret {A} (a : A) : respects inv hidden (mret a).
Proof. intros g. split; reflexivity. Qed.

Lemma respects_raise {A} e : respects inv hidden (@raise A e).
Proof. intros g. split; reflexivity. Qed.

Lemma respects_lift {A} (r : outcome A) : respects inv hidden (lift r).
Proof. intros g. split; reflexivity. Qed.

Lemma respects_get_globals : respects inv hidden get_globals.
Proof. intros g. split; reflexivity. Qed.

Lemma respects_emit e : hidden e = false → respects inv hidden (emit e).
Proof.
  intros H g. split; [reflexivity|].
  unfold emit, trace_of. simpl. rewrite H. reflexivity.
Qed.

Lemma respects_modify f : (∀ g, inv g (f g)) → respects inv hidden (modify f).
Proof. intros H g. split; [apply H | reflexivity]. Qed.

Lemma respects_bind {A B} (m : M A) (k : A → M B) :
  respects inv hidden m → (∀ a, respects inv hidden (k a)) → respects inv hidden (m ≫= k).
Proof.
  intros Hm Hk g. rewrite run_bind. specialize (Hm g).
  destruct (m g) as [[[a|e] g1] t1]; cbn [globals_of trace_of fst snd] in Hm;
    [|exact Hm].
  destruct Hm as [Hf Ht]. destruct (Hk a g1) as [Hf' Ht'].
  rewrite globals_of_prepend, trace_of_prepend, List.filter_app, Ht, Ht'.
  split; [transitivity g1; assumption | reflexivity].
Qed.

Lemma respects_try {A} (m : M A) : respects inv hidden m → respects inv hidden (try_ m).
Proof.
  intros Hm g. specialize (Hm g). unfold try_.
  destruct (m g) as [[r g1] t1]. exact Hm.
Qed.

Lemma respects_for_each {A} (body : A → M unit) xs :
  (∀ x, respects inv hidden (body x)) → respects inv hidden (for_each body xs).
Proof.
  intros H. induction xs as [|x xs IH]; [apply respects_ret|].
  apply respects_bind; [apply H | intros _; exact IH].
Qed.

End Respects.

(** Apply a rule of [respects]; the order on the globals is found by
    instance resolution. *)
Ltac respects_rule lem := apply lem; try exact _.

(** Resolve the shape of a computation, case by case. *)
Ltac respects :=
  repeat first
    [ progress intros
    | solve [auto]
    | respects_rule respects_bind
    | respects_rule respects_ret | respects_rule respects_raise
    | respects_rule respects_lift | respects_rule respects_get_globals
    | respects_rule respects_try
    | respects_rule respects_emit; reflexivity
    | respects_rule respects_modify; intros; first [exact eq_refl | exact I]
    | match goal with
      | |- respects _ _ (if ?b then _ else _) => destruct b
      | |- respects _ _ (match ?x with _ => _ end) => destruct x
      end ].

Section Quiet.

Context (inv : relation globals) `{!PreOrder inv} (hidden : effect → bool).
Hypothesis inv_scale : ∀ s g, inv g (set_PIXEL_SCALE s g).
Hypothesis inv_guide_star : ∀ a g, inv g (set_guide_star_available a g).
Hypothesis hidden_log : ∀ lv fmt, hidden (Log lv fmt) = false.
Hypothesis hidden_publish : ∀ topic v qos retain,
  hidden (Publish topic (Formatted v) qos retain) = false.
Hypothesis hidden_text : ∀ topic s qos retain,
  hidden (Publish topic (Text s) qos retain) = false.

Lemma respects_log lv fmt : respects inv hidden (log lv fmt).
Proof. respects_rule respects_emit. apply hidden_log. Qed.

Lemma respects_publish_numeric topic v : respects inv hidden (publish_numeric topic v).
Proof.
  unfold publish_numeric, mqtt_publish. pose proof respects_log.
  destruct (is_None v); [auto|].
  respects_rule respects_bind; [auto|]. intros _.
  respects_rule respects_emit. apply hidden_publish.
Qed.

Lemma respects_publish_guide_star cfg v :
  respects inv hidden (publish_guide_star_available cfg v).
Proof.
  unfold publish_guide_star_available, mqtt_publish. pose proof respects_log.
  respects_rule respects_bind; [respects_rule respects_get_globals|]. intros g.
  destruct (bool_decide (guide_star_available g = Some v)); [auto|].
  respects_rule respects_bind; [respects_rule respects_modify; apply inv_guide_star|].
  intros _. respects_rule respects_bind; [auto|]. intros _.
  respects_rule respects_emit. apply hidden_text.
Qed.

Lemma respects_handle_rpc_response msg : respects inv hidden (handle_rpc_response msg).
Proof.
  unfold handle_rpc_response. pose proof respects_log.
  pose proof (λ s, respects_modify inv hidden (set_PIXEL_SCALE s) (inv_scale s)).
  respects.
Qed.

Lemma respects_compute_arcsec scale ra dec :
  respects inv hidden (compute_arcsec scale ra dec).
Proof. unfold compute_arcsec. pose proof respects_log. respects. Qed.

Lemma respects_handle_GuideStep cfg msg : respects inv hidden (handle_GuideStep cfg msg).
Proof.
  unfold handle_GuideStep, convert_timestamp, publish_guide_metrics.
  pose proof respects_log. pose proof respects_publish_numeric.
  pose proof (respects_publish_guide_star cfg). pose proof respects_compute_arcsec.
  respects.
Qed.

Lemma respects_process_line cfg l : respects inv hidden (process_line cfg l).
Proof.
  unfold process_line, handle_message, handle_event.
  pose proof respects_log. pose proof respects_handle_rpc_response.
  pose proof (respects_handle_GuideStep cfg). pose proof (respects_publish_guide_star cfg).
  respects.
Qed.

End Quiet.

(** Nothing in the PHD2 loop touches discovery. *)
Lemma keeps_process_line cfg l :
  respects same_discovery is_discovery (process_line cfg l).
Proof. apply respects_process_line; try exact _; intros; reflexivity. Qed.

Lemma keeps_iteration cfg a : respects same_discovery is_discovery (iteration cfg a).
Proof.
  unfold iteration, connection, open_connection, send_rpc_requests, read_stream,
    close_socket, log.
  pose proof (keeps_process_line cfg).
  respects; auto using respects_for_each, same_discovery_preorder.
Qed.

Lemma keeps_on_disconnect rc : respects same_discovery is_discovery (on_disconnect rc).
Proof. unfold on_disconnect, log. respects. Qed.

(** No line of the stream makes the loop sleep. *)
Lemma lines_never_sleep cfg lines g :
  List.filter is_sleep (trace_of (for_each (process_line cfg) lines g)) = [].
Proof.
  refine (proj2 (respects_for_each any_globals is_sleep (process_line cfg) lines _ g)).
  intros l. apply respects_process_line; try exact _; intros; first [exact I | reflexivity].
Qed.

(** ** The MQTT helpers, run *)

Lemma publish_numeric_run topic v g :
  publish_numeric topic v g =
  (Ret tt, g,
   if is_None v then [Log DEBUG "Skipping publish for %s because value is None"]
   else [Log DEBUG "Publishing numeric %s = %s"; Publish topic (Formatted v) 0 true]).
Proof. unfold publish_numeric. destruct (is_None v); reflexivity. Qed.

Lemma publish_guide_star_available_run cfg b g :
  publish_guide_star_available cfg b g =
  if bool_decide (guide_star_available g = Some b) then
    (Ret tt, g, [Log DEBUG "guide_star_available already %s, not publishing"])
  else
    (Ret tt, set_guide_star_available (Some b) g,
     [Log INFO "guide_star_available -> %s";
      Publish (BASE_TOPIC cfg +:+ "/guide_star_available")
        (Text (if b then "ON" else "OFF")) 0 true]).
Proof.
  unfold publish_guide_star_available, mbind, M_bind, get_globals.
  destruct (bool_decide (guide_star_available g = Some b)); reflexivity.
Qed.

Lemma published_on_publish_numeric topic topic' v g :
  published_on topic' (trace_of (publish_numeric topic v g)) =
  if String.eqb topic topic' then numeric_payloads v else [].
Proof.
  rewrite publish_numeric_run. unfold trace_of, numeric_payloads; simpl.
  destruct (is_None v); simpl; destruct (String.eqb topic topic'); reflexivity.
Qed.

Lemma publish_numeric_numeric_trace topic v g :
  publish_numeric topic v g = (Ret tt, g, numeric_trace topic v).
Proof. unfold numeric_trace. rewrite !publish_numeric_run. reflexivity. Qed.

Lemma published_on_numeric_trace topic topic' v :
  published_on topic' (numeric_trace topic v) =
  if String.eqb topic topic' then numeric_payloads v else [].
Proof. apply published_on_publish_numeric. Qed.

Lemma published_on_guide_star cfg topic v g :
  published_on topic (trace_of (publish_guide_star_available cfg v g)) =
  if bool_decide (guide_star_available g = Some v) then []
  else if String.eqb (BASE_TOPIC cfg +:+ "/guide_star_available") topic
       then [Text (if v then "ON" else "OFF")] else [].
Proof.
  rewrite publish_guide_star_available_run.
  destruct (bool_decide (guide_star_available g = Some v)); reflexivity.
Qed.

Lemma guide_star_after_publish cfg v g :
  guide_star_available (globals_of (publish_guide_star_available cfg v g)) = Some v.
Proof.
  rewrite publish_guide_star_available_run.
  destruct (bool_decide (guide_star_available g = Some v)) eqn:E; [|reflexivity].
  apply bool_decide_eq_true in E. exact E.
Qed.

Lemma scale_after_guide_star cfg v g :
  PIXEL_SCALE_ARCSEC_PER_PX (globals_of (publish_guide_star_available cfg v g)) =
  PIXEL_SCALE_ARCSEC_PER_PX g.
Proof.
  rewrite publish_guide_star_available_run.
  destruct (bool_decide (guide_star_available g = Some v)); reflexivity.
Qed.

Lemma publish_discovery_run cfg g :
  publish_discovery cfg g =
  if discovery_published g then (Ret tt, g, [])
  else (Ret tt, set_discovery_published true g, discovery_trace cfg).
Proof.
  unfold discovery_trace, publish_discovery.
  rewrite !(run_bind_Ret get_globals _ _ _ _ [] eq_refl), !prepend_nil.
  destruct (discovery_published g); reflexivity.
Qed.

(** The first run publishes the seven sensor records and the binary-sensor
    record, each retained with qos 1. *)
Lemma discovery_trace_publishes cfg :
  (λ e, match e with Publish _ _ qos retain => (qos, retain) | _ => (0, false) end)
    <$> discovery_publishes (discovery_trace cfg) =
  replicate 8 (1, true).
Proof. reflexivity. Qed.

Lemma on_connect_run cfg rc g :
  on_connect cfg rc g =
  if rc =? 0 then
    prepend
      [Log INFO "Connected to MQTT broker with result code %s";
       Log DEBUG "on_connect flags=%s properties=%s";
       Log INFO "Publishing availability %s to %s";
       Publish (AVAILABILITY_TOPIC cfg) (Text "online") 1 true]
      (publish_discovery cfg g)
  else
    (Ret tt, g,
     [Log INFO "Connected to MQTT broker with result code %s";
      Log DEBUG "on_connect flags=%s properties=%s";
      Log ERROR "MQTT connection failed with code %s"]).
Proof.
  unfold on_connect.
  rewrite (run_bind_Ret (log INFO _) _ g tt g
             [Log INFO "Connected to MQTT broker with result code %s"] eq_refl).
  rewrite (run_bind_Ret (log DEBUG _) _ g tt g
             [Log DEBUG "on_connect flags=%s properties=%s"] eq_refl).
  destruct (rc =? 0); [|reflexivity].
  rewrite (run_bind_Ret (set_availability cfg true) _ g tt g
             [Log INFO "Publishing availability %s to %s";
              Publish (AVAILABILITY_TOPIC cfg) (Text "online") 1 true] eq_refl).
  destruct (publish_discovery cfg g) as [[r g'] t]. reflexivity.
Qed.

(** ** The RPC-response branch *)

(** An id equal to [PIXEL_SCALE_ID] is not equal to [APP_STATE_ID], so the
    first test of the RPC branch never hides the second. *)
Lemma float_eqb_2_not_1 (f : float) :
  PrimFloat.eqb f (Z_to_float 2) = true → PrimFloat.eqb f (Z_to_float 1) = false.
Proof.
  change (Z_to_float 2) with 2%float. change (Z_to_float 1) with 1%float.
  rewrite !FloatAxioms.eqb_spec.
  change (Prim2SF 2) with (S754_finite false 4503599627370496 (-51)).
  change (Prim2SF 1) with (S754_finite false 4503599627370496 (-52)).
  destruct (Prim2SF f) as [s|s| |s m e]; try discriminate.
  - destruct s; discriminate.
  - unfold SFeqb, SFcompare. destruct s; [discriminate|].
    destruct (Z.compare_spec e (-51)) as [->| |]; try discriminate.
    intros _. reflexivity.
Qed.

Lemma py_eq_int_2_not_1 v :
  py_eq_int v PIXEL_SCALE_ID = true → py_eq_int v APP_STATE_ID = false.
Proof.
  unfold PIXEL_SCALE_ID, APP_STATE_ID.
  destruct v as [|b|z|f| | |]; simpl; try discriminate.
  - destruct b; discriminate.
  - intros H. apply Z.eqb_eq in H. subst z. reflexivity.
  - apply float_eqb_2_not_1.
Qed.

Lemma sets_scale_pixel_scale_id msg :
  py_eq_int (dict_get msg "id") PIXEL_SCALE_ID = true →
  sets_scale msg = isinstance_int_float (dict_get msg "result").
Proof. intros H. unfold sets_scale. rewrite (py_eq_int_2_not_1 _ H), H. reflexivity. Qed.

Lemma handle_rpc_response_other msg g :
  sets_scale msg = false →
  result_of (handle_rpc_response msg g) = Ret tt ∧
  globals_of (handle_rpc_response msg g) = g ∧
  actions (trace_of (handle_rpc_response msg g)) = [].
Proof.
  unfold sets_scale, handle_rpc_response. intros H.
  rewrite (run_bind_Ret (log INFO _) _ g tt g [Log INFO "PHD2 RPC response id=%s result=%s"])
    by reflexivity.
  destruct (py_eq_int (dict_get msg "id") APP_STATE_ID); [repeat split|].
  destruct (py_eq_int (dict_get msg "id") PIXEL_SCALE_ID); [|repeat split].
  destruct (isinstance_int_float (dict_get msg "result")); [discriminate|].
  repeat split.
Qed.

Lemma handle_rpc_response_sets msg g :
  sets_scale msg = true →
  handle_rpc_response msg g =
  match py_float (dict_get msg "result") with
  | Ret scale =>
      (Ret tt, set_PIXEL_SCALE (Some scale) g,
       [Log INFO "PHD2 RPC response id=%s result=%s";
        Log INFO "Pixel scale set from PHD2: %s arcsec/px"])
  | Raise e => (Raise e, g, [Log INFO "PHD2 RPC response id=%s result=%s"])
  end.
Proof.
  unfold sets_scale, handle_rpc_response. intros H.
  apply andb_prop in H as [H H3]. apply andb_prop in H as [H1 H2].
  apply negb_true_iff in H1.
  rewrite (run_bind_Ret (log INFO _) _ g tt g [Log INFO "PHD2 RPC response id=%s result=%s"])
    by reflexivity.
  rewrite H1, H2, H3. unfold mbind, M_bind, lift.
  destruct (py_float (dict_get msg "result")); reflexivity.
Qed.


(** An RPC response publishes nothing and leaves the two flags alone. *)
Lemma handle_rpc_response_quiet msg g :
  actions (trace_of (handle_rpc_response msg g)) = [] ∧
  guide_star_available (globals_of (handle_rpc_response msg g)) = guide_star_available g ∧
  discovery_published (globals_of (handle_rpc_response msg g)) = discovery_published g.
Proof.
  destruct (sets_scale msg) eqn:E.
  - rewrite (handle_rpc_response_sets _ _ E).
    destruct (py_float (dict_get msg "result")); repeat split.
  - destruct (handle_rpc_response_other msg g E) as (_ & -> & ->). repeat split.
Qed.

(** ** The GuideStep branch *)

(** [compute_arcsec] reads the scale it is given, never writes a global, and
    does nothing to the outside world (at most it logs a warning). *)
Lemma compute_arcsec_globals scale ra dec g :
  globals_of (compute_arcsec scale ra dec g) = g.
Proof.
  unfold compute_arcsec.
  destruct scale as [s|]; [|reflexivity].
  destruct (negb (is_None ra) && negb (is_None dec)); [|reflexivity].
  unfold mbind, M_bind, lift, mret, M_ret.
  destruct (py_mul_float ra s); [|reflexivity].
  destruct (py_mul_float dec s); [|reflexivity].
  destruct (py_pow2 ra) as [ra2|]; [|reflexivity].
  destruct (py_pow2 dec) as [dec2|]; [|reflexivity].
  destruct (py_add ra2 dec2) as [sum|]; [|reflexivity].
  destruct (math_sqrt sum); reflexivity.
Qed.

Lemma compute_arcsec_actions scale ra dec g :
  actions (trace_of (compute_arcsec scale ra dec g)) = [].
Proof.
  unfold compute_arcsec.
  destruct scale as [s|]; [|reflexivity].
  destruct (negb (is_None ra) && negb (is_None dec)); [|reflexivity].
  unfold mbind, M_bind, lift, mret, M_ret.
  destruct (py_mul_float ra s); [|reflexivity].
  destruct (py_mul_float dec s); [|reflexivity].
  destruct (py_pow2 ra) as [ra2|]; [|reflexivity].
  destruct (py_pow2 dec) as [dec2|]; [|reflexivity].
  destruct (py_add ra2 dec2) as [sum|]; [|reflexivity].
  destruct (math_sqrt sum); reflexivity.
Qed.



(** The arithmetic on two numbers: when it returns, it returns the two
    products and the scaled root of the sum of the squares, in Python's
    arithmetic. *)
Lemma compute_arcsec_numbers s ra dec m n g arcsec g' tc :
  number_of ra = Some m → number_of dec = Some n →
  compute_arcsec (Some s) ra dec g = (Ret arcsec, g', tc) →
  arcsec =
  (PFloat (to_float m * s)%float, PFloat (to_float n * s)%float,
   PFloat (root_of_squares m n * s)%float).
Proof.
  intros Hm Hn.
  destruct ra as [|ba|za|fa| | |]; try discriminate; injection Hm as <-;
    destruct dec as [|bb|zb|fb| | |]; try discriminate; injection Hn as <-;
    unfold compute_arcsec, root_of_squares, squared, plus, to_float, float_square;
    cbn [is_None negb andb];
    unfold mbind, M_bind, lift, mret, M_ret, py_mul_float, py_pow2, py_add, math_sqrt,
      int_to_float;
    repeat case_match; cbn [prepend]; try discriminate;
    repeat match goal with H : Ret _ = Ret _ |- _ => injection H as <- end;
    intros [= <- _ _]; reflexivity.
Qed.

(** The arithmetic on two floats whose squares [**] returns. *)
Lemma compute_arcsec_floats s ra dec ra2 dec2 g :
  float_pow2 ra = Ret ra2 → float_pow2 dec = Ret dec2 →
  (ra2 + dec2 <? 0)%float = false →
  compute_arcsec (Some s) (PFloat ra) (PFloat dec) g =
  (Ret (PFloat (ra * s)%float, PFloat (dec * s)%float,
        PFloat (PrimFloat.sqrt (ra2 + dec2) * s)%float), g, []).
Proof.
  intros Hra Hdec Hsum. unfold compute_arcsec. cbn [is_None negb andb].
  unfold mbind, M_bind, lift, mret, M_ret, py_mul_float, py_pow2, py_add, math_sqrt.
  rewrite Hra, Hdec, Hsum. reflexivity.
Qed.


Lemma convert_timestamp_run ts g :
  convert_timestamp ts g =
  (if is_None ts then Ret tt else datetime_fromtimestamp ts, g, []).
Proof. unfold convert_timestamp. destruct (is_None ts); reflexivity. Qed.

Lemma publish_guide_metrics_run cfg scale a b c dx dy snr avg g :
  publish_guide_metrics cfg scale a b c dx dy snr avg g =
  (Ret tt,
   globals_of (publish_guide_star_available cfg true g),
   arcsec_trace cfg scale a b c ++
   numeric_trace (BASE_TOPIC cfg +:+ "/dx_px") dx ++
   numeric_trace (BASE_TOPIC cfg +:+ "/dy_px") dy ++
   numeric_trace (BASE_TOPIC cfg +:+ "/snr") snr ++
   numeric_trace (BASE_TOPIC cfg +:+ "/avg_dist") avg ++
   trace_of (publish_guide_star_available cfg true g)).
Proof.
  assert (Harc :
    (match scale with
     | Some _ =>
         publish_numeric (BASE_TOPIC cfg +:+ "/ra_error_arcsec") a;;
         publish_numeric (BASE_TOPIC cfg +:+ "/dec_error_arcsec") b;;
         publish_numeric (BASE_TOPIC cfg +:+ "/total_error_arcsec") c
     | None => mret tt
     end) g = (Ret tt, g, arcsec_trace cfg scale a b c)).
  { destruct scale as [s|]; [|reflexivity]. unfold arcsec_trace.
    do 2 rewrite (run_bind_Ret _ _ _ _ _ _ (publish_numeric_numeric_trace _ _ _)).
    rewrite publish_numeric_numeric_trace. reflexivity. }
  unfold publish_guide_metrics.
  rewrite (run_bind_Ret _ _ _ _ _ _ Harc).
  do 4 rewrite (run_bind_Ret _ _ _ _ _ _ (publish_numeric_numeric_trace _ _ _)).
  destruct (publish_guide_star_available cfg true g) as [[r g'] t] eqn:E.
  rewrite publish_guide_star_available_run in E.
  destruct (bool_decide (guide_star_available g = Some true));
    inversion E; subst; reflexivity.
Qed.

Lemma published_on_arcsec_trace cfg topic scale a b c :
  published_on topic (arcsec_trace cfg scale a b c) =
  match scale with
  | Some _ =>
      (if String.eqb (BASE_TOPIC cfg +:+ "/ra_error_arcsec") topic
       then numeric_payloads a else []) ++
      (if String.eqb (BASE_TOPIC cfg +:+ "/dec_error_arcsec") topic
       then numeric_payloads b else []) ++
      (if String.eqb (BASE_TOPIC cfg +:+ "/total_error_arcsec") topic
       then numeric_payloads c else [])
  | None => []
  end.
Proof.
  destruct scale; [|reflexivity]. unfold arcsec_trace.
  rewrite !published_on_app, !published_on_numeric_trace. reflexivity.
Qed.

Lemma published_on_guide_metrics cfg topic scale a b c dx dy snr avg g :
  published_on topic
    (trace_of (publish_guide_metrics cfg scale a b c dx dy snr avg g)) =
  published_on topic (arcsec_trace cfg scale a b c) ++
  (if String.eqb (BASE_TOPIC cfg +:+ "/dx_px") topic then numeric_payloads dx else []) ++
  (if String.eqb (BASE_TOPIC cfg +:+ "/dy_px") topic then numeric_payloads dy else []) ++
  (if String.eqb (BASE_TOPIC cfg +:+ "/snr") topic then numeric_payloads snr else []) ++
  (if String.eqb (BASE_TOPIC cfg +:+ "/avg_dist") topic then numeric_payloads avg else []) ++
  published_on topic (trace_of (publish_guide_star_available cfg true g)).
Proof.
  rewrite publish_guide_metrics_run. unfold trace_of at 1. simpl.
  rewrite !published_on_app, !published_on_numeric_trace. reflexivity.
Qed.

Lemma guide_metrics_by_topic cfg scale a b c dx dy snr avg g :
  let on suffix :=
    published_on (BASE_TOPIC cfg +:+ suffix)
      (trace_of (publish_guide_metrics cfg scale a b c dx dy snr avg g)) in
  on "/ra_error_arcsec" = match scale with Some _ => numeric_payloads a | None => [] end ∧
  on "/dec_error_arcsec" = match scale with Some _ => numeric_payloads b | None => [] end ∧
  on "/total_error_arcsec" = match scale with Some _ => numeric_payloads c | None => [] end ∧
  on "/dx_px" = numeric_payloads dx ∧
  on "/dy_px" = numeric_payloads dy ∧
  on "/snr" = numeric_payloads snr ∧
  on "/avg_dist" = numeric_payloads avg.
Proof.
  cbv beta zeta.
  rewrite !published_on_guide_metrics, !published_on_arcsec_trace,
    !published_on_guide_star.
  topics.
  destruct scale, (bool_decide (guide_star_available g = Some true));
    rewrite ?app_nil_r; repeat split.
Qed.

(** The GuideStep branch in three stages: the arithmetic, the timestamp,
    the publishes.  A stage that raises ends the branch with the globals as
    they were and nothing published. *)
Lemma handle_GuideStep_run cfg msg g :
  let scale := PIXEL_SCALE_ARCSEC_PER_PX g in
  let c := compute_arcsec scale (dict_get msg "RADistanceRaw")
             (dict_get msg "DECDistanceRaw") g in
  handle_GuideStep cfg msg g =
  match result_of c with
  | Raise e => (Raise e, g, trace_of c)
  | Ret arcsec =>
      match result_of (convert_timestamp (dict_get msg "Timestamp") g) with
      | Raise e => (Raise e, g, trace_of c)
      | Ret _ =>
          (Ret tt,
           globals_of (publish_guide_star_available cfg true g),
           trace_of c ++ Log INFO GuideStep_fmt ::
           trace_of (publish_guide_metrics cfg scale arcsec.1.1 arcsec.1.2 arcsec.2
                       (dict_get msg "dx") (dict_get msg "dy")
                       (dict_get msg "SNR") (dict_get msg "AvgDist") g))
      end
  end.
Proof.
  intros scale c. unfold handle_GuideStep.
  rewrite (run_bind_Ret get_globals _ g g g []) by reflexivity.
  rewrite prepend_nil, run_bind. fold scale. fold c.
  pose proof (compute_arcsec_globals scale (dict_get msg "RADistanceRaw")
                (dict_get msg "DECDistanceRaw") g) as Hg.
  fold c in Hg. clearbody c.
  destruct c as [[[arcsec|e] gc] tc]; unfold globals_of in Hg; simpl in Hg;
    subst gc; unfold result_of at 1, trace_of at 1 2; simpl; [|reflexivity].
  rewrite run_bind, convert_timestamp_run. unfold result_of at 1. simpl.
  destruct (if is_None (dict_get msg "Timestamp") then Ret tt
            else datetime_fromtimestamp (dict_get msg "Timestamp")) as [[]|e].
  - rewrite (run_bind_Ret (log INFO GuideStep_fmt) _ g tt g [Log INFO GuideStep_fmt])
      by reflexivity.
    rewrite !publish_guide_metrics_run. reflexivity.
  - unfold prepend. rewrite app_nil_r. reflexivity.
Qed.

Lemma handle_GuideStep_Ret cfg msg g u :
  result_of (handle_GuideStep cfg msg g) = Ret u →
  ∃ arcsec tc,
    compute_arcsec (PIXEL_SCALE_ARCSEC_PER_PX g) (dict_get msg "RADistanceRaw")
      (dict_get msg "DECDistanceRaw") g = (Ret arcsec, g, tc) ∧
    handle_GuideStep cfg msg g =
    (Ret tt, globals_of (publish_guide_star_available cfg true g),
     tc ++ Log INFO GuideStep_fmt ::
     trace_of (publish_guide_metrics cfg (PIXEL_SCALE_ARCSEC_PER_PX g)
                 arcsec.1.1 arcsec.1.2 arcsec.2
                 (dict_get msg "dx") (dict_get msg "dy")
                 (dict_get msg "SNR") (dict_get msg "AvgDist") g)).
Proof.
  rewrite handle_GuideStep_run. cbv zeta.
  pose proof (compute_arcsec_globals (PIXEL_SCALE_ARCSEC_PER_PX g)
                (dict_get msg "RADistanceRaw") (dict_get msg "DECDistanceRaw") g) as Hg.
  destruct (compute_arcsec _ _ _ g) as [[[arcsec|e] gc] tc];
    unfold globals_of in Hg; simpl in Hg; subst gc;
    unfold result_of at 1 2; simpl; [|discriminate].
  destruct (result_of (convert_timestamp (dict_get msg "Timestamp") g)) as [[]|e];
    [|discriminate].
  intros _. exists arcsec, tc. split; reflexivity.
Qed.

Lemma handle_GuideStep_Raise cfg msg g e :
  result_of (handle_GuideStep cfg msg g) = Raise e →
  globals_of (handle_GuideStep cfg msg g) = g ∧
  actions (trace_of (handle_GuideStep cfg msg g)) = [].
Proof.
  rewrite handle_GuideStep_run. cbv zeta.
  pose proof (compute_arcsec_actions (PIXEL_SCALE_ARCSEC_PER_PX g)
                (dict_get msg "RADistanceRaw") (dict_get msg "DECDistanceRaw") g) as Ha.
  destruct (result_of (compute_arcsec _ _ _ g)) as [arcsec|e'].
  - destruct (result_of (convert_timestamp (dict_get msg "Timestamp") g)) as [[]|e'];
      [discriminate|].
    intros _. split; [reflexivity | exact Ha].
  - intros _. split; [reflexivity | exact Ha].
Qed.

Lemma scale_after_GuideStep cfg msg g :
  PIXEL_SCALE_ARCSEC_PER_PX (globals_of (handle_GuideStep cfg msg g)) =
  PIXEL_SCALE_ARCSEC_PER_PX g.
Proof.
  destruct (result_of (handle_GuideStep cfg msg g)) as [u|e] eqn:Er.
  - destruct (handle_GuideStep_Ret _ _ _ _ Er) as (arcsec & tc & _ & ->).
    cbn [globals_of fst snd]. apply scale_after_guide_star.
  - destruct (handle_GuideStep_Raise _ _ _ _ Er) as (-> & _). reflexivity.
Qed.

(** ** Dispatch *)

Lemma process_line_dict cfg msg g :
  process_line cfg (Json (PDict msg)) g =
  prepend line_prefix
    match classify msg with
    | RpcResponse => handle_rpc_response msg g
    | NoEvent => (Ret tt, g, [Log DEBUG "PHD2 message without 'Event' and not RPC: %s"])
    | GuideStep => prepend [Log DEBUG "PHD2 event: %s"] (handle_GuideStep cfg msg g)
    | StarLost =>
        prepend [Log DEBUG "PHD2 event: %s"; Log WARNING "StarLost event from PHD2: %s"]
          (publish_guide_star_available cfg false g)
    | OtherEvent =>
        (Ret tt, g, [Log DEBUG "PHD2 event: %s"; Log DEBUG "Unhandled PHD2 event type %s: %s"])
    end.
Proof.
  unfold process_line, handle_message, classify, handle_event, line_prefix.
  rewrite (run_bind_Ret (log DEBUG _) _ g tt g [Log DEBUG "Raw line from PHD2 (%d bytes): %r"])
    by reflexivity.
  rewrite (run_bind_Ret (log DEBUG _) _ g tt g [Log DEBUG "Decoded PHD2 message: %s"])
    by reflexivity.
  destruct (dict_has msg "result" && dict_has msg "id").
  { destruct (handle_rpc_response msg g) as [[r g'] t]. reflexivity. }
  destruct (is_None (dict_get msg "Event")); [reflexivity|].
  rewrite (run_bind_Ret (log DEBUG _) _ g tt g [Log DEBUG "PHD2 event: %s"]) by reflexivity.
  destruct (py_eq_str (dict_get msg "Event") "GuideStep").
  { destruct (handle_GuideStep cfg msg g) as [[r g'] t]. reflexivity. }
  destruct (py_eq_str (dict_get msg "Event") "StarLost"); [|reflexivity].
  rewrite (run_bind_Ret (log WARNING _) _ g tt g [Log WARNING "StarLost event from PHD2: %s"])
    by reflexivity.
  destruct (publish_guide_star_available cfg false g) as [[r g'] t]. reflexivity.
Qed.

(** A line that is not a decoded dict: skipped with one log record, or an
    exception out of the loop body. *)
Lemma process_line_not_dict cfg l g :
  (∀ msg, l ≠ Json (PDict msg)) →
  globals_of (process_line cfg l g) = g ∧ actions (trace_of (process_line cfg l g)) = [].
Proof.
  intros H. destruct l as [| | text | err | []]; try (split; reflexivity).
  exfalso. eapply H. reflexivity.
Qed.

Lemma process_line_GuideStep cfg msg g :
  classify msg = GuideStep →
  process_line cfg (Json (PDict msg)) g =
  prepend (line_prefix ++ [Log DEBUG "PHD2 event: %s"]) (handle_GuideStep cfg msg g).
Proof.
  intros H. rewrite process_line_dict, H.
  destruct (handle_GuideStep cfg msg g) as [[r g'] t]. reflexivity.
Qed.

(** A malformed line on its own: it returns, changes no global, does
    nothing to the outside world, and logs one warning. *)
Lemma process_line_malformed cfg l g :
  malformed l = true →
  ∃ t, process_line cfg l g = (Ret tt, g, t) ∧ actions t = [] ∧
       logged_at WARNING t = 1%nat.
Proof.
  destruct l as [| | text | err | msg]; try discriminate; intros _;
    eexists; (split; [reflexivity|split; reflexivity]).
Qed.

(** What a GuideStep line publishes on any topic: nothing when it raises;
    when it returns, the arcsecond values the arithmetic gave and the four
    fields as they came, then the guide-star transition. *)
Lemma published_on_GuideStep cfg topic msg g :
  classify msg = GuideStep →
  let x := process_line cfg (Json (PDict msg)) g in
  match result_of x with
  | Raise _ => published_on topic (trace_of x) = []
  | Ret _ =>
      ∃ arcsec tc,
        compute_arcsec (PIXEL_SCALE_ARCSEC_PER_PX g) (dict_get msg "RADistanceRaw")
          (dict_get msg "DECDistanceRaw") g = (Ret arcsec, g, tc) ∧
        published_on topic (trace_of x) =
        published_on topic
          (trace_of (publish_guide_metrics cfg (PIXEL_SCALE_ARCSEC_PER_PX g)
                       arcsec.1.1 arcsec.1.2 arcsec.2
                       (dict_get msg "dx") (dict_get msg "dy")
                       (dict_get msg "SNR") (dict_get msg "AvgDist") g))
  end.
Proof.
  intros Hc. cbv zeta. rewrite (process_line_GuideStep _ _ _ Hc).
  rewrite result_of_prepend, trace_of_prepend, published_on_app.
  change (published_on topic (line_prefix ++ [Log DEBUG "PHD2 event: %s"])) with (@nil payload).
  cbn [app].
  destruct (result_of (handle_GuideStep cfg msg g)) as [u|e] eqn:Er.
  - destruct (handle_GuideStep_Ret _ _ _ _ Er) as (arcsec & tc & Hcomp & ->).
    exists arcsec, tc. split; [exact Hcomp|].
    cbn [trace_of snd].
    pose proof (compute_arcsec_actions (PIXEL_SCALE_ARCSEC_PER_PX g)
                  (dict_get msg "RADistanceRaw") (dict_get msg "DECDistanceRaw") g) as Ha.
    rewrite Hcomp in Ha. cbn [trace_of snd] in Ha.
    rewrite published_on_app, (published_on_no_actions _ _ Ha). reflexivity.
  - destruct (handle_GuideStep_Raise _ _ _ _ Er) as (_ & Ha).
    apply published_on_no_actions. exact Ha.
Qed.


(** Whether a GuideStep line returns is decided by the arithmetic and then
    by the timestamp. *)
Lemma GuideStep_result cfg msg g :
  classify msg = GuideStep →
  result_of (process_line cfg (Json (PDict msg)) g) =
  match result_of (compute_arcsec (PIXEL_SCALE_ARCSEC_PER_PX g)
                     (dict_get msg "RADistanceRaw") (dict_get msg "DECDistanceRaw") g) with
  | Ret _ => result_of (convert_timestamp (dict_get msg "Timestamp") g)
  | Raise e => Raise e
  end.
Proof.
  intros Hc. rewrite (process_line_GuideStep _ _ _ Hc), result_of_prepend.
  rewrite handle_GuideStep_run. cbv zeta.
  destruct (result_of (compute_arcsec _ _ _ g)) as [arcsec|e]; [|reflexivity].
  destruct (result_of (convert_timestamp (dict_get msg "Timestamp") g)) as [[]|e];
    reflexivity.
Qed.


(** The three arcsecond topics carry what the arithmetic returned, and
    nothing when the line raises or the scale is unknown. *)
Lemma GuideStep_arcsec_fields cfg msg g :
  classify msg = GuideStep →
  let x := process_line cfg (Json (PDict msg)) g in
  let on suffix := published_on (BASE_TOPIC cfg +:+ suffix) (trace_of x) in
  match result_of x, PIXEL_SCALE_ARCSEC_PER_PX g with
  | Ret _, Some s =>
      ∃ arcsec tc,
        compute_arcsec (Some s) (dict_get msg "RADistanceRaw")
          (dict_get msg "DECDistanceRaw") g = (Ret arcsec, g, tc) ∧
        on "/ra_error_arcsec" = numeric_payloads arcsec.1.1 ∧
        on "/dec_error_arcsec" = numeric_payloads arcsec.1.2 ∧
        on "/total_error_arcsec" = numeric_payloads arcsec.2
  | _, _ =>
      on "/ra_error_arcsec" = [] ∧ on "/dec_error_arcsec" = [] ∧
      on "/total_error_arcsec" = []
  end.
Proof.
  intros Hc x on. subst on. cbv beta.
  pose proof (λ topic, published_on_GuideStep cfg topic msg g Hc) as Hp.
  cbv zeta in Hp. fold x in Hp.
  destruct (result_of x) as [u|e]; [|rewrite !Hp; destruct (PIXEL_SCALE_ARCSEC_PER_PX g); auto].
  destruct (Hp (BASE_TOPIC cfg +:+ "/dx_px")) as (arcsec & tc & Hcomp & _).
  assert (Hall : ∀ topic,
    published_on topic (trace_of x) =
    published_on topic
      (trace_of (publish_guide_metrics cfg (PIXEL_SCALE_ARCSEC_PER_PX g)
                   arcsec.1.1 arcsec.1.2 arcsec.2 (dict_get msg "dx") (dict_get msg "dy")
                   (dict_get msg "SNR") (dict_get msg "AvgDist") g))).
  { intros topic. destruct (Hp topic) as (arcsec' & tc' & Hcomp' & ->).
    rewrite Hcomp in Hcomp'. injection Hcomp' as <- _. reflexivity. }
  rewrite !Hall.
  pose proof (guide_metrics_by_topic cfg (PIXEL_SCALE_ARCSEC_PER_PX g)
                arcsec.1.1 arcsec.1.2 arcsec.2 (dict_get msg "dx") (dict_get msg "dy")
                (dict_get msg "SNR") (dict_get msg "AvgDist") g) as Ht.
  cbv beta zeta in Ht.
  destruct (PIXEL_SCALE_ARCSEC_PER_PX g) as [s|]; [|tauto].
  exists arcsec, tc. tauto.
Qed.

(** ** The connection and the loop *)

Lemma open_connection_Session cfg lines fin g :
  open_connection cfg (Session lines fin) g = (Ret tt, g, opening_trace cfg).
Proof. reflexivity. Qed.

Lemma connection_Session cfg lines fin g :
  connection cfg (Session lines fin) g =
  prepend (opening_trace cfg)
    (read_stream cfg (Session lines fin) (set_PIXEL_SCALE None g)).
Proof.
  unfold connection.
  rewrite (run_bind_Ret _ _ _ _ _ _ (open_connection_Session cfg lines fin g)).
  rewrite (run_bind_Ret (modify _) _ g tt (set_PIXEL_SCALE None g) []) by reflexivity.
  rewrite prepend_nil. reflexivity.
Qed.

Lemma read_stream_Session cfg lines fin g :
  read_stream cfg (Session lines fin) g =
  match for_each (process_line cfg) lines g with
  | (Ret _, g1, t1) => (stream_end_outcome fin, g1, t1)
  | (Raise e, g1, t1) => (Raise e, g1, t1)
  end.
Proof.
  unfold read_stream. rewrite run_bind.
  destruct (for_each (process_line cfg) lines g) as [[[[]|e] g1] t1]; [|reflexivity].
  destruct fin; unfold prepend; cbn; rewrite app_nil_r; reflexivity.
Qed.

Lemma read_stream_globals cfg lines fin g :
  globals_of (read_stream cfg (Session lines fin) g) =
  globals_of (for_each (process_line cfg) lines g).
Proof.
  rewrite read_stream_Session.
  destruct (for_each (process_line cfg) lines g) as [[[[]|e] g1] t1]; reflexivity.
Qed.

Lemma iteration_Session cfg lines fin g :
  let stream := for_each (process_line cfg) lines (set_PIXEL_SCALE None g) in
  result_of stream = Ret tt →
  iteration cfg (Session lines fin) g =
  (Ret (match fin with Interrupt => Some Exited | _ => None end),
   globals_of stream,
   opening_trace cfg ++ trace_of stream ++ closing_trace fin).
Proof.
  intros stream Hr. unfold iteration, try_. rewrite run_bind.
  rewrite connection_Session, read_stream_Session. fold stream.
  destruct stream as [[[[]|e] g1] t1]; [|discriminate].
  cbn [prepend result_of globals_of trace_of fst snd].
  destruct fin; cbn; rewrite <- ?app_assoc; reflexivity.
Qed.

Lemma iteration_refused cfg a g :
  (∀ lines fin, a ≠ Session lines fin) →
  result_of (iteration cfg a g) = Ret None ∧
  globals_of (iteration cfg a g) = g ∧
  List.filter is_sleep (trace_of (iteration cfg a g)) = [Sleep 5].
Proof.
  intros H. destruct a as [|[]|lines fin]; try (repeat split; reflexivity).
  exfalso. eapply H. reflexivity.
Qed.

Lemma iteration_same_run cfg a b g :
  result_of (connection cfg a g) = result_of (connection cfg b g) →
  globals_of (connection cfg a g) = globals_of (connection cfg b g) →
  actions (trace_of (connection cfg a g)) = actions (trace_of (connection cfg b g)) →
  close_socket a = close_socket b →
  result_of (iteration cfg a g) = result_of (iteration cfg b g) ∧
  globals_of (iteration cfg a g) = globals_of (iteration cfg b g) ∧
  actions (trace_of (iteration cfg a g)) = actions (trace_of (iteration cfg b g)).
Proof.
  unfold iteration, try_. intros Hr Hg Ht Hc. rewrite !run_bind.
  destruct (connection cfg a g) as [[ra ga] ta], (connection cfg b g) as [[rb gb] tb].
  cbn [result_of globals_of trace_of fst snd] in Hr, Hg, Ht. subst rb gb.
  rewrite !result_of_prepend, !globals_of_prepend, !trace_of_prepend, !actions_app.
  rewrite Ht, Hc. repeat split.
Qed.

(** ** C1: the guide-star flag is published on transitions only *)

(** One line, from any state: what it publishes on the guide-star topic and
    what it leaves in the flag. *)
Lemma guide_star_step cfg l g :
  let x := process_line cfg l g in
  match observation l, result_of x with
  | Some v, Ret _ =>
      published_on (guide_star_topic cfg) (trace_of x) =
        (if bool_decide (guide_star_available g = Some v) then [] else [on_off v]) ∧
      guide_star_available (globals_of x) = Some v
  | _, _ =>
      published_on (guide_star_topic cfg) (trace_of x) = [] ∧
      guide_star_available (globals_of x) = guide_star_available g
  end.
Proof.
  cbv zeta. unfold guide_star_topic.
  destruct l as [| | text | err | msg]; try (split; reflexivity).
  destruct msg as [| | | | | |d]; try (split; reflexivity).
  rewrite process_line_dict. unfold observation.
  rewrite result_of_prepend, globals_of_prepend, trace_of_prepend,
    published_on_line_prefix.
  destruct (classify d).
  - (* an RPC response *)
    destruct (handle_rpc_response_quiet d g) as (Ha & Hf & _).
    rewrite (published_on_no_actions _ _ Ha), Hf.
    destruct (result_of (handle_rpc_response d g)); split; reflexivity.
  - split; reflexivity.
  - (* GuideStep *)
    rewrite result_of_prepend, globals_of_prepend, trace_of_prepend. simpl app.
    cbn [published_on].
    destruct (result_of (handle_GuideStep cfg d g)) as [u|e] eqn:Er.
    + destruct (handle_GuideStep_Ret _ _ _ _ Er) as (arcsec & tc & Hc & ->).
      cbn [result_of globals_of trace_of fst snd].
      rewrite guide_star_after_publish. split; [|reflexivity].
      pose proof (compute_arcsec_actions (PIXEL_SCALE_ARCSEC_PER_PX g)
                    (dict_get d "RADistanceRaw") (dict_get d "DECDistanceRaw") g) as Ha.
      rewrite Hc in Ha. cbn [trace_of snd] in Ha.
      rewrite published_on_app, (published_on_no_actions _ _ Ha).
      cbn [app published_on].
      rewrite published_on_guide_metrics, published_on_arcsec_trace,
        published_on_guide_star.
      topics.
      destruct (PIXEL_SCALE_ARCSEC_PER_PX g);
        destruct (bool_decide (guide_star_available g = Some true)); reflexivity.
    + destruct (handle_GuideStep_Raise _ _ _ _ Er) as (-> & Ha).
      rewrite (published_on_no_actions _ _ Ha). split; reflexivity.
  - (* StarLost *)
    rewrite result_of_prepend, globals_of_prepend, trace_of_prepend. simpl app.
    cbn [published_on].
    rewrite published_on_guide_star, guide_star_after_publish.
    rewrite publish_guide_star_available_run. topics.
    destruct (bool_decide (guide_star_available g = Some false)); split; reflexivity.
  - split; reflexivity.
Qed.

(** A stream processed to its end publishes, on the guide-star topic, the
    transitions of its observations and nothing else. *)
Lemma guide_star_stream cfg ls : ∀ g,
  result_of (for_each (process_line cfg) ls g) = Ret tt →
  published_on (guide_star_topic cfg) (trace_of (for_each (process_line cfg) ls g)) =
  on_off <$> spec_transitions (guide_star_available g) (omap observation ls).
Proof.
  induction ls as [|l ls IH]; intros g Hr; [reflexivity|].
  rewrite for_each_cons in Hr |- *.
  pose proof (guide_star_step cfg l g) as Hs. cbv zeta in Hs.
  destruct (process_line cfg l g) as [[[[]|e] g1] t1]; [|discriminate].
  cbn [result_of globals_of trace_of fst snd] in Hs.
  rewrite result_of_prepend in Hr. rewrite trace_of_prepend, published_on_app.
  rewrite (IH g1 Hr).
  change (omap observation (l :: ls))
    with (match observation l with
          | Some v => v :: omap observation ls
          | None => omap observation ls
          end).
  destruct (observation l) as [v|].
  - destruct Hs as [-> ->]. cbn [spec_transitions].
    destruct (bool_decide (guide_star_available g = Some v)) eqn:E.
    + apply bool_decide_eq_true in E. rewrite E. reflexivity.
    + reflexivity.
  - destruct Hs as [-> ->]. reflexivity.
Qed.

(** C1.  A message goes out on the guide-star topic only when a GuideStep
    ([true]) or StarLost ([false]) observation differs from the stored flag,
    the unknown flag differing from both, and the flag is written only then:
    (1) every line, from every state, either publishes nothing there and
    leaves the flag as it was, or is such an observation [v], differing from
    the flag, publishes it once and stores it; (2) an observation that
    differs is published when its line is processed to the end; (3) a stream
    processed to its end publishes exactly the transitions of its
    observations, as the specification's rule computes them; (4) the events
    StarLost, StarLost, GuideStep, StarLost from the unknown flag publish at
    the first, third and fourth, and not at the second. *)
Theorem guide_star_published_on_transitions cfg :
  (∀ l g,
     let x := process_line cfg l g in
     (published_on (guide_star_topic cfg) (trace_of x) = [] ∧
      guide_star_available (globals_of x) = guide_star_available g) ∨
     (∃ v, observation l = Some v ∧ guide_star_available g ≠ Some v ∧
           published_on (guide_star_topic cfg) (trace_of x) = [on_off v] ∧
           guide_star_available (globals_of x) = Some v)) ∧
  (∀ l g v,
     observation l = Some v → guide_star_available g ≠ Some v →
     result_of (process_line cfg l g) = Ret tt →
     published_on (guide_star_topic cfg) (trace_of (process_line cfg l g)) = [on_off v]) ∧
  (∀ ls g,
     result_of (for_each (process_line cfg) ls g) = Ret tt →
     published_on (guide_star_topic cfg) (trace_of (for_each (process_line cfg) ls g)) =
     on_off <$> spec_transitions (guide_star_available g) (omap observation ls)) ∧
  (∀ l1 l2 l3 l4 g,
     observation l1 = Some false → observation l2 = Some false →
     observation l3 = Some true → observation l4 = Some false →
     guide_star_available g = None →
     result_of (for_each (process_line cfg) [l1; l2; l3; l4] g) = Ret tt →
     published_per_line cfg (guide_star_topic cfg) [l1; l2; l3; l4] g =
     [[on_off false]; []; [on_off true]; [on_off false]]).
Proof.
  split; [|split; [|split]].
  - intros l g x. pose proof (guide_star_step cfg l g) as Hs.
    cbv zeta in Hs. fold x in Hs.
    destruct (observation l) as [v|]; [|left; exact Hs].
    destruct (result_of x); [|left; exact Hs].
    destruct Hs as [Hp Hf].
    destruct (bool_decide (guide_star_available g = Some v)) eqn:E.
    + left. apply bool_decide_eq_true in E. split; [exact Hp | congruence].
    + right. apply bool_decide_eq_false in E. exists v. auto.
  - intros l g v Ho Hne Hr. pose proof (guide_star_step cfg l g) as Hs.
    cbv zeta in Hs. rewrite Ho, Hr in Hs. destruct Hs as [-> _].
    rewrite bool_decide_eq_false_2 by exact Hne. reflexivity.
  - intros ls g. apply guide_star_stream.
  - intros l1 l2 l3 l4 g H1 H2 H3 H4 Hg Hr.
    cbn [published_per_line].
    rewrite for_each_cons in Hr.
    pose proof (guide_star_step cfg l1 g) as S1. cbv zeta in S1. rewrite H1 in S1.
    destruct (process_line cfg l1 g) as [[[[]|e1] g1] t1]; [|discriminate].
    cbn [result_of globals_of trace_of fst snd] in *.
    rewrite result_of_prepend, for_each_cons in Hr.
    pose proof (guide_star_step cfg l2 g1) as S2. cbv zeta in S2. rewrite H2 in S2.
    destruct (process_line cfg l2 g1) as [[[[]|e2] g2] t2]; [|discriminate].
    cbn [result_of globals_of trace_of fst snd] in *.
    rewrite result_of_prepend, for_each_cons in Hr.
    pose proof (guide_star_step cfg l3 g2) as S3. cbv zeta in S3. rewrite H3 in S3.
    destruct (process_line cfg l3 g2) as [[[[]|e3] g3] t3]; [|discriminate].
    cbn [result_of globals_of trace_of fst snd] in *.
    rewrite result_of_prepend, for_each_cons in Hr.
    pose proof (guide_star_step cfg l4 g3) as S4. cbv zeta in S4. rewrite H4 in S4.
    destruct (process_line cfg l4 g3) as [[[[]|e4] g4] t4]; [|discriminate].
    cbn [result_of globals_of trace_of fst snd] in *.
    destruct S1 as [-> F1], S2 as [-> F2], S3 as [-> F3], S4 as [-> F4].
    rewrite Hg, F1, F2, F3. reflexivity.
Qed.

(** ** C2: what sets the scale factor *)

(** One line, from any state: the scale it leaves. *)
Lemma scale_step cfg l g :
  PIXEL_SCALE_ARCSEC_PER_PX (globals_of (process_line cfg l g)) =
  match scale_response l with
  | Some v =>
      match py_float v with
      | Ret f => Some f
      | Raise _ => PIXEL_SCALE_ARCSEC_PER_PX g
      end
  | None => PIXEL_SCALE_ARCSEC_PER_PX g
  end.
Proof.
  destruct l as [| | text | err | msg]; try reflexivity.
  destruct msg as [| | | | | |d]; try reflexivity.
  rewrite process_line_dict, globals_of_prepend. unfold scale_response.
  destruct (classify d).
  - destruct (sets_scale d) eqn:E.
    + rewrite (handle_rpc_response_sets _ _ E).
      destruct (py_float (dict_get d "result")); reflexivity.
    + destruct (handle_rpc_response_other d g E) as (_ & -> & _). reflexivity.
  - reflexivity.
  - rewrite globals_of_prepend. apply scale_after_GuideStep.
  - rewrite globals_of_prepend. apply scale_after_guide_star.
  - reflexivity.
Qed.

Lemma scale_stream cfg ls : ∀ g,
  result_of (for_each (process_line cfg) ls g) = Ret tt →
  PIXEL_SCALE_ARCSEC_PER_PX (globals_of (for_each (process_line cfg) ls g)) =
  latest_scale (PIXEL_SCALE_ARCSEC_PER_PX g) ls.
Proof.
  induction ls as [|l ls IH]; intros g Hr; [reflexivity|].
  rewrite for_each_cons in Hr |- *.
  pose proof (scale_step cfg l g) as Hs.
  destruct (process_line cfg l g) as [[[[]|e] g1] t1]; [|discriminate].
  cbn [globals_of fst snd] in Hs.
  rewrite result_of_prepend in Hr. rewrite globals_of_prepend, (IH g1 Hr), Hs.
  reflexivity.
Qed.

Lemma scale_response_spec l v :
  scale_response l = Some v ↔
  ∃ msg, l = Json (PDict msg) ∧
         dict_has msg "result" = true ∧ dict_has msg "id" = true ∧
         py_eq_int (dict_get msg "id") PIXEL_SCALE_ID = true ∧
         isinstance_int_float (dict_get msg "result") = true ∧
         v = dict_get msg "result".
Proof.
  split.
  - destruct l as [| | text | err | [| | | | | |msg]]; try discriminate.
    unfold scale_response, classify, sets_scale.
    destruct (dict_has msg "result") eqn:Hr, (dict_has msg "id") eqn:Hi; cbn [andb];
      try (repeat match goal with |- context [if ?b then _ else _] => destruct b end;
           discriminate).
    destruct (py_eq_int (dict_get msg "id") APP_STATE_ID); [discriminate|].
    destruct (py_eq_int (dict_get msg "id") PIXEL_SCALE_ID) eqn:Hid; [|discriminate].
    destruct (isinstance_int_float (dict_get msg "result")) eqn:Hn; [|discriminate].
    intros [= <-]. exists msg. repeat split; assumption.
  - intros (msg & -> & Hr & Hi & Hid & Hn & ->).
    unfold scale_response, classify. rewrite Hr, Hi. cbn [andb].
    rewrite (sets_scale_pixel_scale_id _ Hid), Hn. reflexivity.
Qed.

(** What an accepted answer to [get_pixel_scale] does: the scale becomes
    [float(result)], or [float] raises and the scale is left. *)
Lemma scale_response_run cfg l v g :
  scale_response l = Some v →
  process_line cfg l g =
  prepend line_prefix
    match py_float v with
    | Ret f =>
        (Ret tt, set_PIXEL_SCALE (Some f) g,
         [Log INFO "PHD2 RPC response id=%s result=%s";
          Log INFO "Pixel scale set from PHD2: %s arcsec/px"])
    | Raise e => (Raise e, g, [Log INFO "PHD2 RPC response id=%s result=%s"])
    end.
Proof.
  destruct l as [| | text | err | [| | | | | |msg]]; try discriminate.
  unfold scale_response. destruct (classify msg) eqn:Hc; try discriminate.
  destruct (sets_scale msg) eqn:Hs; [|discriminate]. intros [= <-].
  rewrite process_line_dict, Hc, (handle_rpc_response_sets _ _ Hs). reflexivity.
Qed.

(** [float] of a number raises only on an integer too large for a float. *)
Lemma py_float_Raise v e :
  isinstance_int_float v = true → py_float v = Raise e →
  e = OverflowError ∧ ∃ z, v = PInt z ∧ is_infinity (Z_to_float z) = true.
Proof.
  destruct v as [|[]|z|f| | |]; try discriminate; intros _; try (vm_compute; discriminate).
  unfold py_float, int_to_float.
  destruct (is_infinity (Z_to_float z)) eqn:E; [|discriminate].
  intros [= <-]. split; [reflexivity|]. exists z. split; [reflexivity|exact E].
Qed.

(** C2, amended.  Call a line a scale response when it is a dict with a
    [result] and an [id], the id equal to the pixel-scale id and the result
    a number (0).  The scale is unknown when a connection starts reading
    (1); a line that is not a scale response leaves it as it was (2); every
    scale response sets it to [float(result)], whether or not it was set
    before on the connection, but for one case: on an integer too large for
    a float, [float] raises [OverflowError] and every global is left as it
    was (3); so at the end of a stream processed to its end the scale is
    that of the latest scale response (4). *)
Theorem pixel_scale_set_by_each_response cfg :
  (∀ l v,
     scale_response l = Some v ↔
     ∃ msg, l = Json (PDict msg) ∧
            dict_has msg "result" = true ∧ dict_has msg "id" = true ∧
            py_eq_int (dict_get msg "id") PIXEL_SCALE_ID = true ∧
            isinstance_int_float (dict_get msg "result") = true ∧
            v = dict_get msg "result") ∧
  (∀ fin g,
     PIXEL_SCALE_ARCSEC_PER_PX (globals_of (connection cfg (Session [] fin) g)) = None) ∧
  (∀ l g,
     scale_response l = None →
     PIXEL_SCALE_ARCSEC_PER_PX (globals_of (process_line cfg l g)) =
     PIXEL_SCALE_ARCSEC_PER_PX g) ∧
  (∀ l g v,
     scale_response l = Some v →
     let x := process_line cfg l g in
     match py_float v with
     | Ret f =>
         result_of x = Ret tt ∧ globals_of x = set_PIXEL_SCALE (Some f) g ∧
         PIXEL_SCALE_ARCSEC_PER_PX (globals_of x) = Some f
     | Raise e =>
         (∃ z, v = PInt z ∧ is_infinity (Z_to_float z) = true) ∧
         result_of x = Raise OverflowError ∧ globals_of x = g
     end) ∧
  (∀ ls fin g,
     result_of (for_each (process_line cfg) ls (set_PIXEL_SCALE None g)) = Ret tt →
     PIXEL_SCALE_ARCSEC_PER_PX (globals_of (connection cfg (Session ls fin) g)) =
     latest_scale None ls).
Proof.
  split; [|split; [|split; [|split]]].
  - apply scale_response_spec.
  - intros fin g. rewrite connection_Session, globals_of_prepend, read_stream_globals.
    reflexivity.
  - intros l g H. rewrite scale_step, H. reflexivity.
  - intros l g v H x. subst x. rewrite (scale_response_run cfg l v g H).
    rewrite result_of_prepend, globals_of_prepend.
    apply scale_response_spec in H as (msg & _ & _ & _ & _ & Hn & ->).
    destruct (py_float (dict_get msg "result")) as [f|e] eqn:Ef; [repeat split|].
    destruct (py_float_Raise _ _ Hn Ef) as (-> & Hz). repeat split. exact Hz.
  - intros ls fin g Hr.
    rewrite connection_Session, globals_of_prepend, read_stream_globals.
    rewrite (scale_stream _ _ _ Hr). reflexivity.
Qed.

(** ** C3: which results are rejected *)


(** ** C4: when the scale is reset *)

(** C4, amended.  On every connection on which both requests were written,
    the scale is cleared after the requests and before the first line is
    read: the connection is the opening followed by the stream read from
    the globals with the scale unknown (1), so what a connection does and
    leaves does not depend on the scale the previous one left (2).  When a
    request cannot be written nothing is read and the scale is not touched
    (3). *)
Theorem scale_reset_before_reading cfg :
  (∀ lines fin g,
     connection cfg (Session lines fin) g =
     prepend (opening_trace cfg)
       (read_stream cfg (Session lines fin) (set_PIXEL_SCALE None g))) ∧
  (∀ lines fin g s,
     connection cfg (Session lines fin) (set_PIXEL_SCALE s g) =
     connection cfg (Session lines fin) g) ∧
  (∀ second g,
     result_of (connection cfg (WriteFails second) g) = Raise OSError ∧
     globals_of (connection cfg (WriteFails second) g) = g).
Proof.
  split; [|split].
  - intros. apply connection_Session.
  - intros. rewrite !connection_Session. reflexivity.
  - intros [] g; split; reflexivity.
Qed.

(** ** C5: the end of the stream *)

(** C5, at the failing input.  When the peer closes the stream and every
    line was processed, the pass ends without an exception: the socket is
    closed and the loop goes round at once, with no record of an error and
    no sleep (1); a read error at the same point is logged and followed by
    the five-second sleep (2).  Two passes ended by the peer and a third
    refused: each connect follows the close before it directly, and only the
    refusal is followed by a sleep (3). *)
Theorem end_of_stream_reconnects_without_delay cfg :
  (∀ lines g,
     let stream := for_each (process_line cfg) lines (set_PIXEL_SCALE None g) in
     let x := iteration cfg (Session lines EndOfStream) g in
     result_of stream = Ret tt →
     result_of x = Ret None ∧
     trace_of x =
       opening_trace cfg ++ trace_of stream ++ [Log INFO "Closing PHD2 socket"; SockClose] ∧
     List.filter is_sleep (trace_of x) = []) ∧
  (∀ lines g,
     let stream := for_each (process_line cfg) lines (set_PIXEL_SCALE None g) in
     let x := iteration cfg (Session lines ReadError) g in
     result_of stream = Ret tt →
     result_of x = Ret None ∧
     trace_of x =
       opening_trace cfg ++ trace_of stream ++
       [Log ERROR "PHD2 connection error: %s. Retrying in 5 seconds."; Sleep 5;
        Log INFO "Closing PHD2 socket"; SockClose] ∧
     List.filter is_sleep (trace_of x) = [Sleep 5]) ∧
  (∀ g,
     actions (trace_of (read_phd2_events cfg
                          [Session [] EndOfStream; Session [] EndOfStream; ConnectFails] g)) =
     [SockConnect (PHD2_HOST cfg) (PHD2_PORT cfg); SockSend req_app_state;
      SockSend req_pixel_scale; SockClose;
      SockConnect (PHD2_HOST cfg) (PHD2_PORT cfg); SockSend req_app_state;
      SockSend req_pixel_scale; SockClose;
      Sleep 5]).
Proof.
  split; [|split].
  - intros lines g stream x Hr. unfold x.
    rewrite (iteration_Session cfg lines EndOfStream g Hr). fold stream.
    cbn [result_of trace_of fst snd closing_trace]. repeat split.
    rewrite !List.filter_app. unfold stream. rewrite lines_never_sleep. reflexivity.
  - intros lines g stream x Hr. unfold x.
    rewrite (iteration_Session cfg lines ReadError g Hr). fold stream.
    cbn [result_of trace_of fst snd closing_trace]. repeat split.
    rewrite !List.filter_app. unfold stream. rewrite lines_never_sleep. reflexivity.
  - intros g. reflexivity.
Qed.

(** ** C6: a GuideStep while the scale is unknown *)


(** ** C7: the arcsecond values *)

(** A GuideStep with numeric distances, processed to the end while the
    scale is known: what goes out on the three arcsecond topics. *)
Lemma GuideStep_numeric_distances cfg msg g s ra dec :
  classify msg = GuideStep →
  PIXEL_SCALE_ARCSEC_PER_PX g = Some s →
  number_of (dict_get msg "RADistanceRaw") = Some ra →
  number_of (dict_get msg "DECDistanceRaw") = Some dec →
  let x := process_line cfg (Json (PDict msg)) g in
  let on suffix := published_on (BASE_TOPIC cfg +:+ suffix) (trace_of x) in
  result_of x = Ret tt →
  on "/ra_error_arcsec" = [Formatted (PFloat (to_float ra * s)%float)] ∧
  on "/dec_error_arcsec" = [Formatted (PFloat (to_float dec * s)%float)] ∧
  on "/total_error_arcsec" = [Formatted (PFloat (root_of_squares ra dec * s)%float)].
Proof.
  intros Hc Hs Hra Hdec x on Hr.
  pose proof (GuideStep_arcsec_fields cfg msg g Hc) as H. cbv zeta in H.
  fold x in H. rewrite Hr, Hs in H.
  destruct H as (arcsec & tc & Hcomp & H1 & H2 & H3).
  apply (compute_arcsec_numbers _ _ _ _ _ _ _ _ _ Hra Hdec) in Hcomp. subst arcsec.
  subst on. cbv beta. rewrite H1, H2, H3. repeat split.
Qed.

(** C7, amended.  A GuideStep with numeric distances [ra] and [dec]
    (integers, booleans or floats), processed to the end while the scale is
    [s], publishes [float(ra) * s], [float(dec) * s] and
    [sqrt(ra ** 2 + dec ** 2) * s]: the products, the square root and a sum
    with a float in it are IEEE-754 binary64 operations rounded to nearest,
    integers are squared and added exactly, and a float is squared by the C
    library's [pow] (1).  For float distances whose squares [**] returns as
    the rounded products, the total is [sqrt (ra * ra + dec * dec) * s] (2).
    After a [get_pixel_scale] answer of 0.5, on a library whose [pow] is
    exact at 3.0 and 4.0, these distances are published as 1.5, 2.0 and
    2.5 (3). *)
Theorem arcsec_values_are_scaled cfg :
  (∀ msg g s ra dec,
     classify msg = GuideStep →
     PIXEL_SCALE_ARCSEC_PER_PX g = Some s →
     number_of (dict_get msg "RADistanceRaw") = Some ra →
     number_of (dict_get msg "DECDistanceRaw") = Some dec →
     let x := process_line cfg (Json (PDict msg)) g in
     let on suffix := published_on (BASE_TOPIC cfg +:+ suffix) (trace_of x) in
     result_of x = Ret tt →
     on "/ra_error_arcsec" = [Formatted (PFloat (to_float ra * s)%float)] ∧
     on "/dec_error_arcsec" = [Formatted (PFloat (to_float dec * s)%float)] ∧
     on "/total_error_arcsec" =
       [Formatted (PFloat (root_of_squares ra dec * s)%float)]) ∧
  (∀ msg g s ra dec,
     classify msg = GuideStep →
     PIXEL_SCALE_ARCSEC_PER_PX g = Some s →
     dict_get msg "RADistanceRaw" = PFloat ra →
     dict_get msg "DECDistanceRaw" = PFloat dec →
     float_pow2 ra = Ret (ra * ra)%float →
     float_pow2 dec = Ret (dec * dec)%float →
     let x := process_line cfg (Json (PDict msg)) g in
     let on suffix := published_on (BASE_TOPIC cfg +:+ suffix) (trace_of x) in
     result_of x = Ret tt →
     on "/ra_error_arcsec" = [Formatted (PFloat (ra * s)%float)] ∧
     on "/dec_error_arcsec" = [Formatted (PFloat (dec * s)%float)] ∧
     on "/total_error_arcsec" =
       [Formatted (PFloat (PrimFloat.sqrt (ra * ra + dec * dec) * s)%float)]) ∧
  (libm_pow 3 2 = (9%float, NoError) →
   libm_pow 4 2 = (16%float, NoError) →
   let x :=
     for_each (process_line cfg)
       [Json (msg_rpc_result 2 (PFloat 0.5)); Json (msg_GuideStep (PFloat 3) (PFloat 4))]
       initial_globals in
   let on suffix := published_on (BASE_TOPIC cfg +:+ suffix) (trace_of x) in
   result_of x = Ret tt ∧
   on "/ra_error_arcsec" = [Formatted (PFloat 1.5)] ∧
   on "/dec_error_arcsec" = [Formatted (PFloat 2)] ∧
   on "/total_error_arcsec" = [Formatted (PFloat 2.5)]).
Proof.
  split; [apply GuideStep_numeric_distances|].
  assert (Hfloats : ∀ msg g s ra dec,
    classify msg = GuideStep →
    PIXEL_SCALE_ARCSEC_PER_PX g = Some s →
    dict_get msg "RADistanceRaw" = PFloat ra →
    dict_get msg "DECDistanceRaw" = PFloat dec →
    float_pow2 ra = Ret (ra * ra)%float →
    float_pow2 dec = Ret (dec * dec)%float →
    let x := process_line cfg (Json (PDict msg)) g in
    let on suffix := published_on (BASE_TOPIC cfg +:+ suffix) (trace_of x) in
    result_of x = Ret tt →
    on "/ra_error_arcsec" = [Formatted (PFloat (ra * s)%float)] ∧
    on "/dec_error_arcsec" = [Formatted (PFloat (dec * s)%float)] ∧
    on "/total_error_arcsec" =
      [Formatted (PFloat (PrimFloat.sqrt (ra * ra + dec * dec) * s)%float)]).
  { intros msg g s ra dec Hc Hs Hra Hdec Hra2 Hdec2 x on Hr.
    pose proof (GuideStep_numeric_distances cfg msg g s (Approx ra) (Approx dec) Hc Hs) as H.
    rewrite Hra, Hdec in H. specialize (H eq_refl eq_refl). cbv zeta in H.
    fold x in H. specialize (H Hr).
    unfold root_of_squares, squared, plus, to_float, float_square in H.
    rewrite Hra2, Hdec2 in H. exact H. }
  split; [exact Hfloats|].
  intros Hpow3 Hpow4. cbv zeta. rewrite for_each_cons.
  (* the answer to get_pixel_scale: the scale becomes 0.5, nothing is published *)
  change (process_line cfg (Json (msg_rpc_result 2 (PFloat 0.5))) initial_globals)
    with (@Ret unit tt, set_PIXEL_SCALE (Some 0.5%float) initial_globals,
          line_prefix ++
          [Log INFO "PHD2 RPC response id=%s result=%s";
           Log INFO "Pixel scale set from PHD2: %s arcsec/px"]).
  cbv iota. rewrite result_of_prepend, trace_of_prepend, for_each_cons.
  (* the GuideStep, from that state *)
  assert (H3 : float_pow2 3 = Ret (3 * 3)%float).
  { unfold float_pow2. cbn [is_nan]. change (abs 3) with 3%float.
    change (is_nan 3) with false. change (is_infinity 3) with false.
    change (is_zero 3) with false. change (3 =? one)%float with false.
    cbv iota. rewrite Hpow3. reflexivity. }
  assert (H4 : float_pow2 4 = Ret (4 * 4)%float).
  { unfold float_pow2. change (abs 4) with 4%float.
    change (is_nan 4) with false. change (is_infinity 4) with false.
    change (is_zero 4) with false. change (4 =? one)%float with false.
    cbv iota. rewrite Hpow4. reflexivity. }
  pose proof (Hfloats
    (list_to_map [("Event", PStr "GuideStep"); ("Timestamp", PFloat 1700000000.5);
                  ("Host", PStr "scope"); ("Inst", PInt 1); ("Frame", PInt 7);
                  ("dx", PFloat 0.25); ("dy", PFloat (-0.5));
                  ("RADistanceRaw", PFloat 3); ("DECDistanceRaw", PFloat 4);
                  ("SNR", PFloat 12.5); ("AvgDist", PFloat 0.75)])
    (set_PIXEL_SCALE (Some 0.5%float) initial_globals) 0.5%float 3%float 4%float
    eq_refl eq_refl eq_refl eq_refl H3 H4) as H.
  cbv zeta in H.
  change (Json (PDict (list_to_map
               [("Event", PStr "GuideStep"); ("Timestamp", PFloat 1700000000.5);
                ("Host", PStr "scope"); ("Inst", PInt 1); ("Frame", PInt 7);
                ("dx", PFloat 0.25); ("dy", PFloat (-0.5));
                ("RADistanceRaw", PFloat 3); ("DECDistanceRaw", PFloat 4);
                ("SNR", PFloat 12.5); ("AvgDist", PFloat 0.75)])))
    with (Json (msg_GuideStep (PFloat 3) (PFloat 4))) in H.
  assert (Hr : result_of (process_line cfg (Json (msg_GuideStep (PFloat 3) (PFloat 4)))
                            (set_PIXEL_SCALE (Some 0.5%float) initial_globals)) = Ret tt).
  { unfold msg_GuideStep. rewrite GuideStep_result by reflexivity.
    change (dict_get _ "RADistanceRaw") with (PFloat 3).
    change (dict_get _ "DECDistanceRaw") with (PFloat 4).
    change (PIXEL_SCALE_ARCSEC_PER_PX _) with (Some 0.5%float).
    rewrite (compute_arcsec_floats _ _ _ _ _ _ H3 H4) by reflexivity.
    reflexivity. }
  specialize (H Hr).
  destruct (process_line cfg (Json (msg_GuideStep (PFloat 3) (PFloat 4)))
              (set_PIXEL_SCALE (Some 0.5%float) initial_globals)) as [[r2 g2] t2].
  cbn [result_of trace_of fst snd] in H, Hr. subst r2.
  change (for_each (process_line cfg) [] g2) with (@Ret unit tt, g2, @nil effect).
  cbn [prepend result_of trace_of fst snd].
  rewrite app_nil_r, !published_on_app.
  destruct H as (-> & -> & ->).
  repeat split.
Qed.

(** ** C8: which lines are skipped *)

(** A blank line is not handed to [json.loads]: it is skipped with two debug
    records and no warning. *)
Lemma blank_line_skipped cfg g :
  process_line cfg Blank g =
  (Ret tt, g,
   [Log DEBUG "Raw line from PHD2 (%d bytes): %r"; Log DEBUG "Skipping empty line from PHD2"]).
Proof. reflexivity. Qed.

(** The lines the loop body catches.  A line on which [decode] raises
    [UnicodeDecodeError], or [json.loads] raises [JSONDecodeError], is
    logged with one warning and skipped (1).  Taking it out of a stream
    changes nothing else: with or without it the stream ends the same way,
    leaves the same globals and publishes the same messages in the same
    order (2); so does the whole pass of the loop, which opens and closes
    the socket once either way (3); and when the lines before it are
    processed to the end, the stream with it logs exactly one warning more
    (4). *)
Lemma caught_line_skipped cfg l :
  malformed l = true →
  (∀ g, ∃ t, process_line cfg l g = (Ret tt, g, t) ∧ actions t = [] ∧
             logged_at WARNING t = 1%nat) ∧
  (∀ before after g,
     let with_l := for_each (process_line cfg) (before ++ l :: after) g in
     let without := for_each (process_line cfg) (before ++ after) g in
     result_of with_l = result_of without ∧
     globals_of with_l = globals_of without ∧
     actions (trace_of with_l) = actions (trace_of without)) ∧
  (∀ before after fin g,
     let with_l := iteration cfg (Session (before ++ l :: after) fin) g in
     let without := iteration cfg (Session (before ++ after) fin) g in
     result_of with_l = result_of without ∧
     globals_of with_l = globals_of without ∧
     actions (trace_of with_l) = actions (trace_of without)) ∧
  (∀ before after g,
     result_of (for_each (process_line cfg) before g) = Ret tt →
     logged_at WARNING (trace_of (for_each (process_line cfg) (before ++ l :: after) g)) =
     S (logged_at WARNING (trace_of (for_each (process_line cfg) (before ++ after) g)))).
Proof.
  intros Hm.
  assert (Hstream : ∀ before after g,
    let with_l := for_each (process_line cfg) (before ++ l :: after) g in
    let without := for_each (process_line cfg) (before ++ after) g in
    result_of with_l = result_of without ∧
    globals_of with_l = globals_of without ∧
    actions (trace_of with_l) = actions (trace_of without)).
  { intros before after g. cbv zeta. rewrite !for_each_app.
    destruct (for_each (process_line cfg) before g) as [[[[]|e] g1] t1];
      [|repeat split].
    rewrite for_each_cons.
    destruct (process_line_malformed cfg l g1 Hm) as (t & -> & Ha & _).
    rewrite !result_of_prepend, !globals_of_prepend, !trace_of_prepend, !actions_app.
    rewrite Ha. repeat split. }
  split; [|split; [|split]].
  - intros g. apply process_line_malformed. exact Hm.
  - exact Hstream.
  - intros before after fin g. cbv zeta.
    apply iteration_same_run; [| | |reflexivity];
      rewrite !connection_Session, ?result_of_prepend, ?globals_of_prepend,
        ?trace_of_prepend, ?actions_app, !read_stream_Session;
      destruct (Hstream before after (set_PIXEL_SCALE None g)) as (Hr & Hg & Ht);
      destruct (for_each (process_line cfg) (before ++ l :: after) _) as [[r1 g1] t1],
               (for_each (process_line cfg) (before ++ after) _) as [[r2 g2] t2];
      cbn [result_of globals_of trace_of fst snd] in Hr, Hg, Ht; subst r2 g2;
      destruct r1 as [[]|e]; cbn [result_of globals_of trace_of fst snd];
      rewrite ?Ht; reflexivity.
  - intros before after g Hr. rewrite !for_each_app.
    destruct (for_each (process_line cfg) before g) as [[[[]|e] g1] t1];
      [|discriminate].
    rewrite for_each_cons.
    destruct (process_line_malformed cfg l g1 Hm) as (t & -> & _ & Hw).
    rewrite !trace_of_prepend, !logged_at_app, Hw. lia.
Qed.

(** C8, at the failing input.  A line on which [decode] raises
    [UnicodeDecodeError] or [json.loads] raises [JSONDecodeError] is logged
    with one warning and skipped, and the lines around it are processed as
    if it were not there (1).  A line on which [json.loads] raises another
    exception (a [RecursionError] on brackets nested too deeply, a plain
    [ValueError] on an integer literal with too many digits) is not caught:
    the line raises that exception, with no warning logged (2), and the
    exception ends the loop: the lines after it are not read, the socket is
    closed, no further attempt is made and the exception leaves
    [read_phd2_events] (3). *)
Theorem uncaught_loads_error_ends_the_loop cfg :
  (∀ l,
     malformed l = true →
     (∀ g, ∃ t, process_line cfg l g = (Ret tt, g, t) ∧ actions t = [] ∧
                logged_at WARNING t = 1%nat) ∧
     (∀ before after g,
        let with_l := for_each (process_line cfg) (before ++ l :: after) g in
        let without := for_each (process_line cfg) (before ++ after) g in
        result_of with_l = result_of without ∧
        globals_of with_l = globals_of without ∧
        actions (trace_of with_l) = actions (trace_of without)) ∧
     (∀ before after fin g,
        let with_l := iteration cfg (Session (before ++ l :: after) fin) g in
        let without := iteration cfg (Session (before ++ after) fin) g in
        result_of with_l = result_of without ∧
        globals_of with_l = globals_of without ∧
        actions (trace_of with_l) = actions (trace_of without)) ∧
     (∀ before after g,
        result_of (for_each (process_line cfg) before g) = Ret tt →
        logged_at WARNING (trace_of (for_each (process_line cfg) (before ++ l :: after) g)) =
        S (logged_at WARNING (trace_of (for_each (process_line cfg) (before ++ after) g))))) ∧
  (∀ err g,
     let x := process_line cfg (Unparsable err) g in
     result_of x = Raise (loads_exn err) ∧ globals_of x = g ∧
     logged_at WARNING (trace_of x) = O ∧ actions (trace_of x) = []) ∧
  (∀ before err after fin script g,
     let stream := for_each (process_line cfg) before (set_PIXEL_SCALE None g) in
     result_of stream = Ret tt →
     read_phd2_events cfg (Session (before ++ Unparsable err :: after) fin :: script) g =
     (Raise (loads_exn err), globals_of stream,
      opening_trace cfg ++ trace_of stream ++
      [Log DEBUG "Raw line from PHD2 (%d bytes): %r";
       Log INFO "Closing PHD2 socket"; SockClose])).
Proof.
  split; [apply caught_line_skipped|]. split.
  - intros err g. repeat split.
  - intros before err after fin script g stream Hs.
    cbn [read_phd2_events]. rewrite run_bind.
    unfold iteration, try_. rewrite run_bind, connection_Session, read_stream_Session.
    rewrite for_each_app. fold stream.
    destruct stream as [[[[]|es] g1] t1]; [|discriminate].
    rewrite for_each_cons.
    change (process_line cfg (Unparsable err) g1)
      with (@Raise unit (loads_exn err), g1,
            [Log DEBUG "Raw line from PHD2 (%d bytes): %r"]).
    destruct err; cbv -[app opening_trace]; rewrite <- ?app_assoc; reflexivity.
Qed.

(** ** C9: discovery is published once *)

(** Every activity but the first successful [on_connect] leaves discovery
    alone. *)
Lemma keeps_run_activity cfg x g :
  discovery_published g = true ∨ (∀ rc, x = MqttConnected rc → rc ≠ 0) →
  discovery_published (globals_of (run_activity cfg x g)) = discovery_published g ∧
  discovery_publishes (trace_of (run_activity cfg x g)) = [].
Proof.
  intros H. destruct x as [rc|rc|a|l]; cbn [run_activity].
  - rewrite on_connect_run. destruct (Z.eqb_spec rc 0) as [->|Hrc].
    + destruct H as [H|H]; [|exfalso; exact (H 0 eq_refl eq_refl)].
      rewrite publish_discovery_run, H. split; [exact H | reflexivity].
    + split; reflexivity.
  - apply keeps_on_disconnect.
  - apply (respects_bind same_discovery is_discovery (iteration cfg a) (λ _, mret tt));
      [apply keeps_iteration | intros; apply respects_ret; exact _].
  - apply keeps_process_line.
Qed.

Lemma history_after_discovery cfg h : ∀ g,
  discovery_published g = true →
  discovery_publishes (trace_of (run_history cfg h g)) = [] ∧
  discovery_published (globals_of (run_history cfg h g)) = true.
Proof.
  unfold run_history. induction h as [|x h IH]; intros g Hg; [split; [reflexivity|exact Hg]|].
  rewrite for_each_cons.
  destruct (keeps_run_activity cfg x g (or_introl Hg)) as [Hf Ht].
  destruct (run_activity cfg x g) as [[[[]|e] g1] t1];
    cbn [globals_of trace_of fst snd] in Hf, Ht.
  - rewrite Hg in Hf. destruct (IH g1 Hf) as [Ht' Hf'].
    rewrite trace_of_prepend, globals_of_prepend, discovery_publishes_app, Ht, Ht'.
    split; [reflexivity | exact Hf'].
  - cbn [globals_of trace_of fst snd]. rewrite Ht, Hf. split; [reflexivity | exact Hg].
Qed.

Lemma history_discovery_once cfg h : ∀ g,
  discovery_published g = false →
  discovery_publishes (trace_of (run_history cfg h g)) = [] ∨
  discovery_publishes (trace_of (run_history cfg h g)) =
    discovery_publishes (discovery_trace cfg).
Proof.
  unfold run_history. induction h as [|x h IH]; intros g Hg; [left; reflexivity|].
  rewrite for_each_cons.
  assert (Hcase : x = MqttConnected 0 ∨ ∀ rc, x = MqttConnected rc → rc ≠ 0).
  { destruct x as [rc| | |]; try (right; intros; discriminate).
    destruct (Z.eq_dec rc 0) as [->|Hrc]; [left; reflexivity|].
    right. intros rc' [= <-]. exact Hrc. }
  destruct Hcase as [->|Hne].
  - (* the first successful connect: the batch, then nothing *)
    right. cbn [run_activity]. rewrite on_connect_run, publish_discovery_run, Hg.
    cbn [Z.eqb prepend].
    rewrite trace_of_prepend, !discovery_publishes_app.
    destruct (history_after_discovery cfg h (set_discovery_published true g) eq_refl)
      as [Ht _].
    unfold run_history in Ht. rewrite Ht, app_nil_r. reflexivity.
  - destruct (keeps_run_activity cfg x g (or_intror Hne)) as [Hf Ht].
    destruct (run_activity cfg x g) as [[[[]|e] g1] t1];
      cbn [globals_of trace_of fst snd] in Hf, Ht.
    + rewrite Hg in Hf. rewrite trace_of_prepend, discovery_publishes_app, Ht.
      exact (IH g1 Hf).
    + left. exact Ht.
Qed.

(** C9.  Discovery metadata is published at most once in the life of the
    process.  The first run of [publish_discovery] publishes the eight
    records and sets the flag (1, 2); with the flag set, a run does nothing
    at all (3); nothing in the process clears the flag or publishes a
    discovery record again, whatever follows, MQTT reconnects included (4);
    so over any history from the start of the process the discovery records
    are published not at all or exactly once (5). *)
Theorem discovery_published_at_most_once cfg :
  (∀ g, discovery_published g = false →
        publish_discovery cfg g =
        (Ret tt, set_discovery_published true g, discovery_trace cfg)) ∧
  length (discovery_publishes (discovery_trace cfg)) = 8%nat ∧
  (∀ g, discovery_published g = true → publish_discovery cfg g = (Ret tt, g, [])) ∧
  (∀ h g, discovery_published g = true →
          discovery_publishes (trace_of (run_history cfg h g)) = [] ∧
          discovery_published (globals_of (run_history cfg h g)) = true) ∧
  (∀ h, discovery_publishes (trace_of (run_history cfg h initial_globals)) = [] ∨
        discovery_publishes (trace_of (run_history cfg h initial_globals)) =
          discovery_publishes (discovery_trace cfg)).
Proof.
  split; [|split; [|split; [|split]]].
  - intros g Hg. rewrite publish_discovery_run, Hg. reflexivity.
  - reflexivity.
  - intros g Hg. rewrite publish_discovery_run, Hg. reflexivity.
  - intros h g. apply history_after_discovery.
  - intros h. apply history_discovery_once. reflexivity.
Qed.

(** ** C10: absent fields *)


(** ** The retry policy on socket errors, and the interrupt *)

(** However many attempts fail in a row, each is followed by one sleep of
    five seconds, the globals are left alone and the loop is still running:
    the delay does not grow and the retries are not counted. *)
Theorem socket_errors_retried_every_five_seconds cfg script : ∀ g,
  forallb refused script = true →
  read_phd2_events cfg script g = (Ret Looping, g, trace_of (read_phd2_events cfg script g)) ∧
  List.filter is_sleep (trace_of (read_phd2_events cfg script g)) =
  replicate (length script) (Sleep 5).
Proof.
  induction script as [|a script IH]; intros g Hs; [split; reflexivity|].
  cbn [forallb] in Hs. apply andb_prop in Hs as [Ha Hs].
  assert (Hne : ∀ lines fin, a ≠ Session lines fin)
    by (intros lines fin ->; discriminate).
  destruct (iteration_refused cfg a g Hne) as (Hr & Hg & Ht).
  destruct (IH g Hs) as [Hrun Hsleep].
  cbn [read_phd2_events]. rewrite run_bind.
  destruct (iteration cfg a g) as [[r g1] t1].
  cbn [result_of globals_of trace_of fst snd] in Hr, Hg, Ht. subst r g1.
  rewrite Hrun. cbn [prepend trace_of snd length replicate].
  rewrite List.filter_app, Ht. split; [reflexivity|].
  cbn [app]. f_equal.
  rewrite Hrun in Hsleep. exact Hsleep.
Qed.

(** An operator interrupt while the stream is read closes the socket and
    leaves the loop: whatever attempts might have followed are not made. *)
Theorem interrupt_exits_the_loop cfg lines script g :
  let stream := for_each (process_line cfg) lines (set_PIXEL_SCALE None g) in
  result_of stream = Ret tt →
  read_phd2_events cfg (Session lines Interrupt :: script) g =
  (Ret Exited, globals_of stream,
   opening_trace cfg ++ trace_of stream ++
   [Log INFO "Interrupted by user, exiting PHD2 loop";
    Log INFO "Closing PHD2 socket"; SockClose]).
Proof.
  intros stream Hr. cbn [read_phd2_events]. rewrite run_bind.
  rewrite (iteration_Session cfg lines Interrupt g Hr). fold stream.
  unfold mret, M_ret. cbn [prepend closing_trace]. rewrite app_nil_r. reflexivity.
Qed.

(** ** A line that raises *)

Lemma process_line_Raise cfg l g e :
  result_of (process_line cfg l g) = Raise e →
  globals_of (process_line cfg l g) = g ∧ actions (trace_of (process_line cfg l g)) = [].
Proof.
  intros Hr.
  destruct l as [| | text | err | msg]; try (split; reflexivity).
  destruct msg as [| | | | | |d]; try (split; reflexivity).
  rewrite process_line_dict in Hr |- *.
  rewrite result_of_prepend in Hr.
  rewrite globals_of_prepend, trace_of_prepend, actions_app.
  change (actions line_prefix) with (@nil effect). cbn [app].
  destruct (classify d).
  - destruct (handle_rpc_response_quiet d g) as (Ha & _). split; [|exact Ha].
    destruct (sets_scale d) eqn:E.
    + rewrite (handle_rpc_response_sets _ _ E) in Hr |- *.
      destruct (py_float (dict_get d "result")); [discriminate|reflexivity].
    + destruct (handle_rpc_response_other d g E) as (Hr' & Hg & _). exact Hg.
  - discriminate.
  - rewrite result_of_prepend in Hr.
    rewrite globals_of_prepend, trace_of_prepend, actions_app.
    exact (handle_GuideStep_Raise _ _ _ _ Hr).
  - rewrite result_of_prepend, publish_guide_star_available_run in Hr.
    destruct (bool_decide (guide_star_available g = Some false)); discriminate.
  - discriminate.
Qed.


(** ** Which lines act on the outside world *)


(** ** Sockets *)

Lemma lines_leave_the_socket cfg lines g :
  List.filter is_socket_lifetime (trace_of (for_each (process_line cfg) lines g)) = [].
Proof.
  refine (proj2 (respects_for_each any_globals is_socket_lifetime (process_line cfg) lines _ g)).
  intros l. apply respects_process_line; try exact _; intros; first [exact I | reflexivity].
Qed.

(** One pass of the loop opens no socket, or opens one and calls its
    [close]. *)
Lemma iteration_socket_lifetime cfg a g :
  List.filter is_socket_lifetime (trace_of (iteration cfg a g)) =
  match a with
  | ConnectFails => []
  | _ => [SockConnect (PHD2_HOST cfg) (PHD2_PORT cfg); SockClose]
  end.
Proof.
  destruct a as [|[]|lines fin]; try reflexivity.
  unfold iteration, try_. rewrite run_bind, connection_Session, read_stream_Session.
  pose proof (lines_leave_the_socket cfg lines (set_PIXEL_SCALE None g)) as Hl.
  destruct (for_each (process_line cfg) lines (set_PIXEL_SCALE None g)) as [[[[]|e] g1] t1];
    cbn [trace_of snd] in Hl.
  - destruct fin; cbn [prepend stream_end_outcome];
      rewrite trace_of_prepend, !List.filter_app, Hl; reflexivity.
  - destruct e; cbn [prepend];
      rewrite trace_of_prepend, !List.filter_app, Hl; reflexivity.
Qed.

(** [sock.close()] is called once for every connection that
    [create_connection] returned, after the pass that made it and before
    the next attempt to connect, however the pass ends: whatever the
    attempts bring, the connects and the calls of [close] in the trace are
    a run of connect-close pairs, at most one per attempt.  (The call is
    all that is shown: the connection itself is released when the file
    object of line 308 is, which is not followed here.) *)
Theorem close_called_once_per_connection cfg script : ∀ g,
  ∃ n, (n ≤ length script)%nat ∧
    List.filter is_socket_lifetime (trace_of (read_phd2_events cfg script g)) =
    mjoin (replicate n [SockConnect (PHD2_HOST cfg) (PHD2_PORT cfg); SockClose]).
Proof.
  induction script as [|a script IH]; intros g; [exists O; split; [lia|reflexivity]|].
  cbn [read_phd2_events]. rewrite run_bind.
  pose proof (iteration_socket_lifetime cfg a g) as Ha.
  destruct (iteration cfg a g) as [[[r|e] g1] t1]; cbn [trace_of snd] in Ha.
  - destruct r as [st|].
    + unfold mret, M_ret. cbn [prepend trace_of snd]. rewrite app_nil_r, Ha.
      destruct a; [exists O|exists 1%nat..]; (split; [cbn [length]; lia|reflexivity]).
    + destruct (IH g1) as (n & Hn & Ht).
      rewrite trace_of_prepend, List.filter_app, Ha, Ht.
      destruct a; [exists n|exists (S n)..]; (split; [cbn [length]; lia|reflexivity]).
  - cbn [trace_of snd]. rewrite Ha.
    destruct a; [exists O|exists 1%nat..]; (split; [cbn [length]; lia|reflexivity]).
Qed.




(** ** How the loop is left *)

Lemma never_interrupts_bind {A B} (m : M A) (k : A → M B) :
  never_interrupts m → (∀ a, never_interrupts (k a)) → never_interrupts (m ≫= k).
Proof.
  intros Hm Hk g. rewrite run_bind. specialize (Hm g).
  destruct (m g) as [[[a|e] g1] t1]; [|exact Hm].
  rewrite result_of_prepend. apply Hk.
Qed.

Lemma never_interrupts_for_each {A} (body : A → M unit) xs :
  (∀ x, never_interrupts (body x)) → never_interrupts (for_each body xs).
Proof.
  intros H. induction xs as [|x xs IH]; [intros g; exact I|].
  apply never_interrupts_bind; [apply H | intros _; exact IH].
Qed.

Lemma never_interrupts_lift {A} (r : outcome A) : uninterrupted r → never_interrupts (lift r).
Proof. intros H g. exact H. Qed.








(** Resolve the shape of a computation that raises no [KeyboardInterrupt]. *)
Ltac never_interrupts :=
  repeat first
    [ progress intros
    | solve [auto]
    | exact I
    | apply never_interrupts_bind
    | apply never_interrupts_lift
    | match goal with
      | |- never_interrupts (if ?b then _ else _) => destruct b
      | |- never_interrupts (match ?x with _ => _ end) => destruct x
      | |- never_interrupts _ => intros ?; exact I
      end ].


Lemma iteration_leaves cfg a g :
  result_of (iteration cfg a g) ≠ Raise OSError.
Proof.
  destruct a as [|[]|lines fin]; try discriminate.
  unfold iteration, try_. rewrite run_bind, connection_Session, read_stream_Session.
  destruct (for_each (process_line cfg) lines (set_PIXEL_SCALE None g)) as [[[[]|e] g1] t1].
  - destruct fin; cbn [prepend stream_end_outcome]; rewrite result_of_prepend; discriminate.
  - destruct e; cbn [prepend]; rewrite result_of_prepend; discriminate.
Qed.

(** A pass of the loop in which a line raises [OSError]: the error is
    logged as a connection error, the sleep follows, [close] is called and
    the loop goes round. *)
Lemma iteration_line_OSError cfg lines l rest fin g :
  let stream := for_each (process_line cfg) lines (set_PIXEL_SCALE None g) in
  let x := process_line cfg l (globals_of stream) in
  result_of stream = Ret tt →
  result_of x = Raise OSError →
  iteration cfg (Session (lines ++ l :: rest) fin) g =
  (Ret None, globals_of stream,
   opening_trace cfg ++ trace_of stream ++ trace_of x ++
   [Log ERROR "PHD2 connection error: %s. Retrying in 5 seconds."; Sleep 5;
    Log INFO "Closing PHD2 socket"; SockClose]).
Proof.
  intros stream x Hs Hx.
  unfold iteration, try_. rewrite run_bind, connection_Session, read_stream_Session.
  rewrite for_each_app. fold stream.
  destruct stream as [[[[]|es] g1] t1]; [|discriminate].
  cbn [globals_of fst snd trace_of] in *. rewrite for_each_cons.
  subst x. destruct (process_line_Raise cfg l g1 OSError Hx) as [Hg _].
  destruct (process_line cfg l g1) as [[[[]|e'] g2] t2]; [discriminate|].
  cbn [result_of globals_of trace_of fst snd] in *.
  injection Hx as ->. subst g2.
  cbv -[app opening_trace]. rewrite <- ?app_assoc. reflexivity.
Qed.

(** No [OSError] leaves [read_phd2_events]: whatever the attempts bring,
    the function is still in its loop, has returned, or has raised another
    exception (1).  That holds of an [OSError] that is no socket error too:
    when a line raises one ([datetime.fromtimestamp] does, on a timestamp
    [localtime] cannot break down), the [except] clause of the connection
    takes it for a connection error: the lines after it are not read, the
    error is logged, the bridge sleeps five seconds, calls [close] and
    goes on to the next attempt (2). *)
Theorem socket_errors_never_leave_the_loop cfg :
  (∀ script g, result_of (read_phd2_events cfg script g) ≠ Raise OSError) ∧
  (∀ lines l rest fin script g,
     let stream := for_each (process_line cfg) lines (set_PIXEL_SCALE None g) in
     let x := process_line cfg l (globals_of stream) in
     result_of stream = Ret tt →
     result_of x = Raise OSError →
     read_phd2_events cfg (Session (lines ++ l :: rest) fin :: script) g =
     prepend
       (opening_trace cfg ++ trace_of stream ++ trace_of x ++
        [Log ERROR "PHD2 connection error: %s. Retrying in 5 seconds."; Sleep 5;
         Log INFO "Closing PHD2 socket"; SockClose])
       (read_phd2_events cfg script (globals_of stream))).
Proof.
  split.
  - induction script as [|a script IH]; intros g; [discriminate|].
    cbn [read_phd2_events]. rewrite run_bind.
    pose proof (iteration_leaves cfg a g) as Ha.
    destruct (iteration cfg a g) as [[[[st|]|e] g1] t1]; cbn [result_of fst] in Ha.
    + discriminate.
    + rewrite result_of_prepend. apply IH.
    + cbn [result_of fst]. intros [= ->]. apply Ha. reflexivity.
  - intros lines l rest fin script g stream x Hs Hx.
    cbn [read_phd2_events]. rewrite run_bind.
    rewrite (iteration_line_OSError cfg lines l rest fin g Hs Hx). reflexivity.
Qed.



(** ** Invariants of every publish *)

(** As [respects], with the side condition of an emitted effect left to
    [tac]. *)
Ltac respects_by tac :=
  repeat first
    [ progress intros
    | solve [auto]
    | respects_rule respects_bind
    | respects_rule respects_ret | respects_rule respects_raise
    | respects_rule respects_lift | respects_rule respects_get_globals
    | respects_rule respects_try
    | respects_rule respects_emit; tac
    | respects_rule respects_modify; intros; exact I
    | match goal with
      | |- respects _ _ (if ?b then _ else _) => destruct b
      | |- respects _ _ (match ?x with _ => _ end) => destruct x
      end ].

Section Telemetry.

(** A class of effects no publish on a state topic belongs to, nor anything
    that is not a publish: the PHD2 loop and [on_disconnect] show none of
    it. *)
Context (cfg : config) (hidden : effect → bool).
Hypothesis hidden_other : ∀ e, is_publish e = false → hidden e = false.
Hypothesis hidden_state : ∀ suffix p,
  In suffix state_suffixes → hidden (Publish (BASE_TOPIC cfg +:+ suffix) p 0 true) = false.

Lemma telemetry_process_line l : respects any_globals hidden (process_line cfg l).
Proof.
  unfold process_line, handle_message, handle_event, handle_GuideStep, handle_rpc_response,
    compute_arcsec, convert_timestamp, publish_guide_metrics, publish_numeric,
    publish_guide_star_available, mqtt_publish, log.
  respects_by ltac:(first [apply hidden_other; reflexivity
                          | apply hidden_state; cbn; tauto]).
Qed.

Lemma telemetry_iteration a : respects any_globals hidden (iteration cfg a).
Proof.
  unfold iteration, connection, open_connection, send_rpc_requests, read_stream,
    close_socket, log.
  pose proof telemetry_process_line.
  respects_by ltac:(apply hidden_other; reflexivity);
    auto using respects_for_each, any_globals_preorder.
Qed.

Lemma telemetry_on_disconnect rc : respects any_globals hidden (on_disconnect rc).
Proof. unfold on_disconnect, log. respects_by ltac:(apply hidden_other; reflexivity). Qed.

End Telemetry.

Lemma filter_nil_forallb {A} (f : A → bool) l :
  List.filter (λ x, negb (f x)) l = [] → forallb f l = true.
Proof.
  induction l as [|x l IH]; [reflexivity|]. simpl.
  destruct (f x); simpl; [exact IH | discriminate].
Qed.

Lemma filter_negb_forallb {A} (f : A → bool) l :
  forallb f l = true → List.filter (λ x, negb (f x)) l = [].
Proof.
  induction l as [|x l IH]; [reflexivity|]. simpl.
  destruct (f x); simpl; [exact IH | discriminate].
Qed.

Lemma filter_nil_In {A} (f : A → bool) l x : List.filter f l = [] → In x l → f x = false.
Proof.
  induction l as [|y l IH]; [intros _ []|]. simpl.
  destruct (f y) eqn:E; [discriminate|]. intros H [<-|Hin]; auto.
Qed.

Lemma published_on_none topic t :
  List.filter (on_topic topic) t = [] → published_on topic t = [].
Proof.
  induction t as [|e t IH]; [reflexivity|]. simpl.
  destruct e; auto. cbn [on_topic]. destruct (String.eqb topic0 topic); [discriminate | exact IH].
Qed.

(** ** Discovery and the state topics *)

Lemma NoDup_prefixed (b : string) (l : list string) :
  NoDup l → NoDup ((λ s, b +:+ s) <$> l).
Proof.
  apply NoDup_fmap_2. intros x y H.
  apply String.eqb_eq. rewrite <- (eqb_append_prefix b). apply String.eqb_eq. exact H.
Qed.

(** What discovery announces is what the bridge does.  The eight records
    name, as their state topics, the eight topics under the base topic (1),
    and no line of the PHD2 stream is ever published on another topic (2);
    each record names the availability topic the bridge publishes on (3);
    the state topics, the unique ids and the topics of the records are
    pairwise distinct, whatever the settings (4, 5, 6); the payloads the
    records declare for the availability and for the guide star are the
    ones the bridge sends (7 to 10). *)
Theorem discovery_announces_the_state_topics cfg :
  announced cfg "state_topic" = (λ s, BASE_TOPIC cfg +:+ s) <$> state_suffixes ∧
  (∀ l g topic p qos retain,
     In (Publish topic p qos retain) (trace_of (process_line cfg l g)) →
     In topic (announced cfg "state_topic")) ∧
  announced cfg "availability_topic" = replicate 8 (AVAILABILITY_TOPIC cfg) ∧
  NoDup (announced cfg "state_topic") ∧
  NoDup (announced cfg "unique_id") ∧
  NoDup (discovery_topics cfg) ∧
  announced cfg "payload_available" = replicate 8 "online" ∧
  announced cfg "payload_not_available" = replicate 8 "offline" ∧
  Text <$> announced cfg "payload_on" = [on_off true] ∧
  Text <$> announced cfg "payload_off" = [on_off false].
Proof.
  assert (Hst : announced cfg "state_topic" = (λ s, BASE_TOPIC cfg +:+ s) <$> state_suffixes)
    by reflexivity.
  split; [exact Hst|].
  split; [|split; [reflexivity|split; [|split; [|split; [|repeat split]]]]].
  - intros l g topic p qos retain Hin.
    pose (hidden := λ e, match e with
                         | Publish topic _ _ _ =>
                             negb (existsb (String.eqb topic) (announced cfg "state_topic"))
                         | _ => false
                         end).
    assert (Hq : respects any_globals hidden (process_line cfg l)).
    { apply telemetry_process_line.
      - intros [] H; try discriminate; reflexivity.
      - intros suffix p' Hs. unfold hidden. rewrite Hst.
        cbn in Hs. cbn [existsb fmap list_fmap state_suffixes].
        rewrite !eqb_append_prefix.
        repeat (destruct Hs as [<-|Hs]; [reflexivity|]). destruct Hs. }
    pose proof (filter_nil_In _ _ _ (proj2 (Hq g)) Hin) as Hh. cbn in Hh.
    apply negb_false_iff in Hh.
    apply existsb_exists in Hh as (s & Hs & He). apply String.eqb_eq in He. subst s. exact Hs.
  - rewrite Hst. apply NoDup_prefixed. unfold state_suffixes.
    apply NoDup_ListNoDup. repeat (constructor; [cbn; intuition discriminate|]). constructor.
  - change (announced cfg "unique_id")
      with ((λ s, DEVICE_ID cfg +:+ s) <$>
            ["_ra_error_arcsec"; "_dec_error_arcsec"; "_total_error_arcsec";
             "_dx_px"; "_dy_px"; "_snr"; "_avg_dist"; "_guide_star_available"]).
    apply NoDup_prefixed.
    apply NoDup_ListNoDup. repeat (constructor; [cbn; intuition discriminate|]). constructor.
  - change (discovery_topics cfg)
      with ((λ s, DISCOVERY_PREFIX cfg +:+ s) <$>
            (((λ s, "/sensor/" +:+ DEVICE_ID cfg +:+ s) <$>
              ["/ra_error_arcsec/config"; "/dec_error_arcsec/config";
               "/total_error_arcsec/config"; "/dx_px/config"; "/dy_px/config";
               "/snr/config"; "/avg_dist/config"]) ++
             ["/binary_sensor/" +:+ DEVICE_ID cfg +:+ "/guide_star_available/config"])).
    apply NoDup_prefixed. apply NoDup_app. split; [|split].
    + change (NoDup ((λ s, "/sensor/" +:+ s) <$>
                     ((λ s, DEVICE_ID cfg +:+ s) <$>
                      ["/ra_error_arcsec/config"; "/dec_error_arcsec/config";
                       "/total_error_arcsec/config"; "/dx_px/config"; "/dy_px/config";
                       "/snr/config"; "/avg_dist/config"]))).
      do 2 apply NoDup_prefixed.
      apply NoDup_ListNoDup. repeat (constructor; [cbn; intuition discriminate|]). constructor.
    + intros x Hx Hb. apply list_elem_of_singleton in Hb. subst x.
      apply list_elem_of_fmap in Hx as (s & Hx & _). discriminate.
    + apply NoDup_singleton.
Qed.

(** ** Retention and quality of service *)

Lemma last_char_append a s c : last_char s = Some c → last_char (a +:+ s) = Some c.
Proof. intros H. induction a as [|c' a IH]; [exact H|]. simpl. rewrite IH. reflexivity. Qed.

Lemma eqb_last_char x y : last_char x ≠ last_char y → String.eqb x y = false.
Proof. intros H. apply String.eqb_neq. congruence. Qed.

Lemma discovery_topics_end_in_g cfg topic :
  In topic (discovery_topics cfg) → last_char topic = last_char "g".
Proof.
  intros Hin.
  change (discovery_topics cfg)
    with [DISCOVERY_PREFIX cfg +:+ "/sensor/" +:+ DEVICE_ID cfg +:+ "/ra_error_arcsec/config";
          DISCOVERY_PREFIX cfg +:+ "/sensor/" +:+ DEVICE_ID cfg +:+ "/dec_error_arcsec/config";
          DISCOVERY_PREFIX cfg +:+ "/sensor/" +:+ DEVICE_ID cfg +:+ "/total_error_arcsec/config";
          DISCOVERY_PREFIX cfg +:+ "/sensor/" +:+ DEVICE_ID cfg +:+ "/dx_px/config";
          DISCOVERY_PREFIX cfg +:+ "/sensor/" +:+ DEVICE_ID cfg +:+ "/dy_px/config";
          DISCOVERY_PREFIX cfg +:+ "/sensor/" +:+ DEVICE_ID cfg +:+ "/snr/config";
          DISCOVERY_PREFIX cfg +:+ "/sensor/" +:+ DEVICE_ID cfg +:+ "/avg_dist/config";
          DISCOVERY_PREFIX cfg +:+ "/binary_sensor/" +:+ DEVICE_ID cfg
            +:+ "/guide_star_available/config"] in Hin.
  cbn [In] in Hin.
  repeat (destruct Hin as [<-|Hin]; [repeat apply last_char_append; reflexivity|]).
  destruct Hin.
Qed.

Lemma state_topics_do_not_end_in_g cfg suffix :
  In suffix state_suffixes → last_char (BASE_TOPIC cfg +:+ suffix) ≠ last_char "g".
Proof.
  intros Hs. cbn in Hs.
  repeat (destruct Hs as [<-|Hs];
          [erewrite last_char_append by reflexivity; discriminate|]).
  destruct Hs.
Qed.

Lemma availability_is_no_state_topic cfg suffix :
  In suffix state_suffixes →
  String.eqb (BASE_TOPIC cfg +:+ suffix) (AVAILABILITY_TOPIC cfg) = false.
Proof.
  intros Hs. unfold AVAILABILITY_TOPIC. rewrite eqb_append_prefix.
  cbn in Hs. repeat (destruct Hs as [<-|Hs]; [reflexivity|]). destruct Hs.
Qed.

Lemma availability_is_no_discovery_topic cfg topic :
  In topic (discovery_topics cfg) →
  String.eqb topic (AVAILABILITY_TOPIC cfg) = false.
Proof.
  intros Hin. apply eqb_last_char. rewrite (discovery_topics_end_in_g cfg topic Hin).
  unfold AVAILABILITY_TOPIC.
  erewrite (last_char_append (BASE_TOPIC cfg) "/availability") by reflexivity.
  discriminate.
Qed.

Lemma state_topics_not_at_least_once cfg suffix :
  In suffix state_suffixes → at_least_once cfg (BASE_TOPIC cfg +:+ suffix) = false.
Proof.
  intros Hs. unfold at_least_once. rewrite (availability_is_no_state_topic cfg suffix Hs).
  cbn [orb]. destruct (existsb _ _) eqn:E; [|reflexivity].
  apply existsb_exists in E as (topic & Hin & He). apply String.eqb_eq in He. subst topic.
  destruct (state_topics_do_not_end_in_g cfg suffix Hs).
  exact (discovery_topics_end_in_g cfg _ Hin).
Qed.

Lemma discovery_topics_at_least_once cfg topic :
  In topic (discovery_topics cfg) → at_least_once cfg topic = true.
Proof.
  intros Hin. unfold at_least_once. apply orb_true_iff. right.
  apply existsb_exists. exists topic. split; [exact Hin | apply String.eqb_refl].
Qed.

Lemma flags_of_discovery cfg :
  forallb (flags_as_intended cfg) (discovery_trace cfg) = true.
Proof.
  apply forallb_forall. intros e Hin.
  assert (Hf : forallb (λ e, match e with
                             | Publish _ _ qos retain => retain && (qos =? 1)
                             | _ => true
                             end) (discovery_trace cfg) = true) by reflexivity.
  pose proof (proj1 (forallb_forall _ _) Hf e Hin) as He.
  destruct e as [topic p qos retain| | | | |]; try reflexivity.
  cbn [flags_as_intended]. rewrite discovery_topics_at_least_once; [exact He|].
  unfold discovery_topics. apply list_elem_of_In, list_elem_of_omap.
  exists (Publish topic p qos retain). split; [apply list_elem_of_In; exact Hin | reflexivity].
Qed.

Lemma flagged_run_activity cfg x :
  respects any_globals (λ e, negb (flags_as_intended cfg e)) (run_activity cfg x).
Proof.
  assert (Ho : ∀ e, is_publish e = false → negb (flags_as_intended cfg e) = false)
    by (intros [] H; try discriminate; reflexivity).
  assert (Hs : ∀ suffix p, In suffix state_suffixes →
            negb (flags_as_intended cfg (Publish (BASE_TOPIC cfg +:+ suffix) p 0 true)) = false).
  { intros suffix p H. cbn [flags_as_intended].
    rewrite (state_topics_not_at_least_once cfg suffix H). reflexivity. }
  destruct x as [rc|rc|a|l]; cbn [run_activity].
  - intros g. split; [exact I|]. rewrite on_connect_run.
    destruct (rc =? 0); [|reflexivity].
    rewrite trace_of_prepend, List.filter_app, publish_discovery_run.
    assert (Ha : at_least_once cfg (AVAILABILITY_TOPIC cfg) = true)
      by (unfold at_least_once; rewrite String.eqb_refl; reflexivity).
    cbn [List.filter flags_as_intended]. rewrite Ha. cbn [app].
    destruct (discovery_published g); [reflexivity|].
    apply filter_negb_forallb, flags_of_discovery.
  - apply telemetry_on_disconnect; assumption.
  - apply (respects_bind any_globals _ (iteration cfg a) (λ _, mret tt));
      [apply telemetry_iteration; assumption | intros; apply respects_ret; exact _].
  - apply telemetry_process_line; assumption.
Qed.

(** Whatever happens in the process, every message the callbacks and the
    PHD2 loop publish is retained; it is published with QoS 1 when its topic
    is the availability topic or the topic of a discovery record, and with
    QoS 0 on every other topic. *)
Theorem every_publish_is_retained cfg h g :
  forallb (flags_as_intended cfg) (trace_of (run_history cfg h g)) = true.
Proof.
  apply filter_nil_forallb.
  exact (proj2 (respects_for_each any_globals _ (run_activity cfg) h
                  (flagged_run_activity cfg) g)).
Qed.

(** ** Availability *)

Lemma availability_untouched cfg x :
  successful_connect x = false →
  respects any_globals (on_topic (AVAILABILITY_TOPIC cfg)) (run_activity cfg x).
Proof.
  intros Hx.
  assert (Ho : ∀ e, is_publish e = false → on_topic (AVAILABILITY_TOPIC cfg) e = false)
    by (intros [] H; try discriminate; reflexivity).
  assert (Hs : ∀ suffix p, In suffix state_suffixes →
            on_topic (AVAILABILITY_TOPIC cfg) (Publish (BASE_TOPIC cfg +:+ suffix) p 0 true)
            = false)
    by (intros suffix p H; apply availability_is_no_state_topic, H).
  destruct x as [rc|rc|a|l]; cbn [run_activity].
  - cbn in Hx. intros g. split; [exact I|]. rewrite on_connect_run, Hx. reflexivity.
  - apply telemetry_on_disconnect; assumption.
  - apply (respects_bind any_globals _ (iteration cfg a) (λ _, mret tt));
      [apply telemetry_iteration; assumption | intros; apply respects_ret; exact _].
  - apply telemetry_process_line; assumption.
Qed.

Lemma discovery_off_availability cfg :
  published_on (AVAILABILITY_TOPIC cfg) (discovery_trace cfg) = [].
Proof.
  apply published_on_none.
  assert (H : ∀ t, (∀ topic, In topic (omap topic_of t) →
                      String.eqb topic (AVAILABILITY_TOPIC cfg) = false) →
              List.filter (on_topic (AVAILABILITY_TOPIC cfg)) t = []).
  { induction t as [|e t IH]; [reflexivity|]. intros Ht.
    destruct e as [topic p qos retain| | | | |]; cbn [List.filter on_topic];
      try (apply IH; exact Ht).
    rewrite (Ht topic (or_introl eq_refl)). apply IH. intros topic' Hin. apply Ht. right. exact Hin. }
  apply H. intros topic Hin. apply availability_is_no_discovery_topic. exact Hin.
Qed.

(** The availability topic carries one "online" for each successful
    connection to the broker, reconnections included, and nothing else: a
    refused connection, a disconnection and the PHD2 loop publish nothing
    there, and nothing in a history publishes "offline". *)
Theorem online_published_at_each_connect cfg h : ∀ g,
  result_of (run_history cfg h g) = Ret tt →
  published_on (AVAILABILITY_TOPIC cfg) (trace_of (run_history cfg h g)) =
  replicate (length (List.filter successful_connect h)) (Text "online").
Proof.
  unfold run_history. induction h as [|x h IH]; intros g Hr; [reflexivity|].
  rewrite for_each_cons in Hr |- *. cbn [List.filter].
  destruct (successful_connect x) eqn:Ex.
  - destruct x as [rc| | |]; try discriminate. cbn in Ex. cbn [run_activity] in *.
    rewrite on_connect_run, Ex in Hr |- *.
    assert (Hd : published_on (AVAILABILITY_TOPIC cfg) (trace_of (publish_discovery cfg g)) = [])
      by (rewrite publish_discovery_run; destruct (discovery_published g);
          [reflexivity | apply discovery_off_availability]).
    assert (Hret : result_of (publish_discovery cfg g) = Ret tt)
      by (rewrite publish_discovery_run; destruct (discovery_published g); reflexivity).
    destruct (publish_discovery cfg g) as [[[[]|e] g1] t1]; [|discriminate].
    cbn [prepend trace_of snd] in *. rewrite result_of_prepend in Hr.
    rewrite trace_of_prepend, !published_on_app, Hd, (IH g1 Hr).
    cbn [published_on]. rewrite String.eqb_refl. reflexivity.
  - pose proof (proj2 (availability_untouched cfg x Ex g)) as Hq.
    destruct (run_activity cfg x g) as [[[[]|e] g1] t1]; [|discriminate].
    cbn [trace_of snd] in Hq. rewrite result_of_prepend in Hr.
    rewrite trace_of_prepend, published_on_app, (published_on_none _ _ Hq), (IH g1 Hr).
    reflexivity.
Qed.

(** ** The MQTT callbacks and the guiding *)

(** A computation that is [blind_to] a change [f] of the globals runs the
    same from [g] and from [f g]: same result, same trace, and the change
    is still there at the end. *)
Section Frame.

Context (f : globals → globals).

Lemma over_prepend {A} t (x : outcome A * globals * list effect) :
  over f (prepend t x) = prepend t (over f x).
Proof. destruct x as [[r g] t']. reflexivity. Qed.

Lemma blind_ret {A} (a : A) : blind_to f (mret a).
Proof. intros g. reflexivity. Qed.

Lemma blind_raise {A} e : blind_to f (@raise A e).
Proof. intros g. reflexivity. Qed.

Lemma blind_lift {A} (r : outcome A) : blind_to f (lift r).
Proof. intros g. reflexivity. Qed.

Lemma blind_emit e : blind_to f (emit e).
Proof. intros g. reflexivity. Qed.

Lemma blind_modify h : (∀ g, h (f g) = f (h g)) → blind_to f (modify h).
Proof. intros H g. unfold modify, over. rewrite H. reflexivity. Qed.

Lemma blind_bind {A B} (m : M A) (k : A → M B) :
  blind_to f m → (∀ a, blind_to f (k a)) → blind_to f (m ≫= k).
Proof.
  intros Hm Hk g. rewrite !run_bind, Hm.
  destruct (m g) as [[[a|e] g1] t1]; cbn [over]; [|reflexivity].
  rewrite Hk, over_prepend. reflexivity.
Qed.

(** Reading the globals is allowed when what follows cannot tell [g] from
    [f g]. *)
Lemma blind_get_globals {B} (k : globals → M B) :
  (∀ g, k (f g) = k g) → (∀ g, blind_to f (k g)) → blind_to f (get_globals ≫= k).
Proof.
  intros Hsame Hk g. rewrite !run_bind. unfold get_globals.
  rewrite !prepend_nil, Hsame. apply Hk.
Qed.

Lemma blind_try {A} (m : M A) : blind_to f m → blind_to f (try_ m).
Proof.
  intros Hm g. unfold try_. rewrite Hm. destruct (m g) as [[r g1] t1]. reflexivity.
Qed.

Lemma blind_for_each {A} (body : A → M unit) xs :
  (∀ x, blind_to f (body x)) → blind_to f (for_each body xs).
Proof.
  intros H. induction xs as [|x xs IH]; [apply blind_ret|].
  apply blind_bind; [apply H | intros _; exact IH].
Qed.

End Frame.

(** Resolve the shape of a computation that is [blind_to] a change. *)
Ltac blind :=
  repeat first
    [ progress intros
    | solve [auto]
    | apply blind_get_globals; [intros; reflexivity|]
    | apply blind_bind
    | apply blind_ret | apply blind_raise | apply blind_lift | apply blind_emit
    | apply blind_try
    | apply blind_modify; intros; reflexivity
    | match goal with
      | |- blind_to _ (if ?b then _ else _) => destruct b
      | |- blind_to _ (match ?x with _ => _ end) => destruct x
      end ].

(** The PHD2 loop neither reads nor writes the discovery flag. *)
Lemma process_line_blind cfg b l : blind_to (set_discovery_published b) (process_line cfg l).
Proof.
  unfold process_line, handle_message, handle_event, handle_GuideStep, handle_rpc_response,
    compute_arcsec, convert_timestamp, publish_guide_metrics, publish_numeric,
    publish_guide_star_available, mqtt_publish, log.
  blind.
Qed.

Lemma iteration_blind cfg b a : blind_to (set_discovery_published b) (iteration cfg a).
Proof.
  unfold iteration, connection, open_connection, send_rpc_requests, read_stream,
    close_socket, log.
  pose proof (process_line_blind cfg b).
  blind; auto using blind_for_each.
Qed.

Lemma guiding_actions_app cfg t1 t2 :
  guiding_actions cfg (t1 ++ t2) = guiding_actions cfg t1 ++ guiding_actions cfg t2.
Proof. unfold guiding_actions. rewrite actions_app. apply List.filter_app. Qed.

Lemma guiding_actions_all cfg t :
  List.filter (is_callback_publish cfg) t = [] → guiding_actions cfg t = actions t.
Proof.
  unfold guiding_actions, actions. induction t as [|e t IH]; [reflexivity|].
  cbn [List.filter]. destruct (is_callback_publish cfg e) eqn:E; [discriminate|].
  intros H. destruct (negb (is_log e)); cbn [List.filter]; rewrite ?E; cbn [negb];
    rewrite (IH H); reflexivity.
Qed.

Lemma guiding_actions_none cfg t :
  forallb (λ e, is_log e || is_callback_publish cfg e) t = true → guiding_actions cfg t = [].
Proof.
  unfold guiding_actions, actions. induction t as [|e t IH]; [reflexivity|].
  cbn [forallb List.filter]. intros H. apply andb_prop in H as [He H].
  destruct (is_log e); cbn [negb]; [exact (IH H)|].
  cbn [orb] in He. cbn [List.filter]. rewrite He. exact (IH H).
Qed.

Lemma phd2_activity_guiding cfg x :
  is_phd2 x = true →
  respects any_globals (is_callback_publish cfg) (run_activity cfg x).
Proof.
  intros Hx.
  assert (Ho : ∀ e, is_publish e = false → is_callback_publish cfg e = false)
    by (intros [] H; try discriminate; reflexivity).
  assert (Hs : ∀ suffix p, In suffix state_suffixes →
            is_callback_publish cfg (Publish (BASE_TOPIC cfg +:+ suffix) p 0 true) = false)
    by (intros suffix p H; apply state_topics_not_at_least_once, H).
  destruct x as [rc|rc|a|l]; try discriminate; cbn [run_activity].
  - apply (respects_bind any_globals _ (iteration cfg a) (λ _, mret tt));
      [apply telemetry_iteration; assumption | intros; apply respects_ret; exact _].
  - apply telemetry_process_line; assumption.
Qed.

Lemma phd2_activity_blind cfg b x :
  is_phd2 x = true → blind_to (set_discovery_published b) (run_activity cfg x).
Proof.
  destruct x as [rc|rc|a|l]; try discriminate; intros _; cbn [run_activity].
  - apply blind_bind; [apply iteration_blind | intros; apply blind_ret].
  - apply process_line_blind.
Qed.

(** A callback returns, writes at most the discovery flag, and acts only on
    the availability and discovery topics. *)
Lemma callback_run cfg x g :
  is_phd2 x = false →
  ∃ b t, run_activity cfg x g = (Ret tt, set_discovery_published b g, t) ∧
         guiding_actions cfg t = [].
Proof.
  destruct x as [rc|rc|a|l]; try discriminate; intros _; cbn [run_activity].
  - rewrite on_connect_run. destruct (rc =? 0).
    + rewrite publish_discovery_run. destruct (discovery_published g) eqn:Ed.
      * exists true. eexists. split.
        { cbn [prepend]. destruct g as [d gs sc]. cbn in Ed. subst d. reflexivity. }
        apply guiding_actions_none. cbn. unfold at_least_once.
        rewrite String.eqb_refl. reflexivity.
      * exists true. eexists. split; [reflexivity|].
        rewrite guiding_actions_app. rewrite (guiding_actions_none cfg (discovery_trace cfg)).
        { rewrite app_nil_r. apply guiding_actions_none. cbn. unfold at_least_once.
          rewrite String.eqb_refl. reflexivity. }
        apply forallb_forall. intros e Hin.
        assert (Hk : forallb (λ e, is_log e || is_publish e) (discovery_trace cfg) = true)
          by reflexivity.
        pose proof (proj1 (forallb_forall _ _) Hk e Hin) as He.
        destruct e as [topic p qos retain| | | | |]; try reflexivity; try discriminate He.
        cbn. apply discovery_topics_at_least_once.
        unfold discovery_topics. apply list_elem_of_In, list_elem_of_omap.
        exists (Publish topic p qos retain).
        split; [apply list_elem_of_In; exact Hin | reflexivity].
    + exists (discovery_published g). eexists. split.
      { destruct g as [d gs sc]. reflexivity. }
      reflexivity.
  - exists (discovery_published g). eexists. split.
    { destruct g as [d gs sc]. reflexivity. }
    reflexivity.
Qed.

Lemma history_without_callbacks cfg h : ∀ g b,
  let x := run_history cfg h (set_discovery_published b g) in
  let y := run_history cfg (List.filter is_phd2 h) g in
  result_of x = result_of y ∧
  globals_of x = set_discovery_published (discovery_published (globals_of x)) (globals_of y) ∧
  guiding_actions cfg (trace_of x) = actions (trace_of y).
Proof.
  unfold run_history. induction h as [|a h IH]; intros g b.
  - repeat split.
  - cbn [List.filter]. destruct (is_phd2 a) eqn:Ea.
    + rewrite !for_each_cons, !(phd2_activity_blind cfg b a Ea).
      pose proof (proj2 (phd2_activity_guiding cfg a Ea g)) as Hq.
      destruct (run_activity cfg a g) as [[[[]|e] g1] t1]; cbn [over trace_of snd] in *.
      * specialize (IH g1 b). cbv zeta in IH. destruct IH as (Hr & Hg & Ht).
        rewrite !result_of_prepend, !globals_of_prepend, !trace_of_prepend.
        rewrite guiding_actions_app, actions_app, Ht, (guiding_actions_all _ _ Hq).
        auto.
      * cbn [result_of globals_of trace_of fst snd].
        split; [reflexivity|]. split; [reflexivity|].
        apply guiding_actions_all, Hq.
    + rewrite for_each_cons.
      destruct (callback_run cfg a (set_discovery_published b g) Ea) as (b' & t & -> & Ht).
      replace (set_discovery_published b' (set_discovery_published b g))
        with (set_discovery_published b' g) by reflexivity.
      specialize (IH g b'). cbv zeta in IH. destruct IH as (Hr & Hg & Ht').
      rewrite result_of_prepend, globals_of_prepend, trace_of_prepend,
        guiding_actions_app, Ht, Ht'.
      auto.
Qed.

(** The MQTT callbacks do not disturb the guiding.  Take the callbacks out
    of a history: the PHD2 activities end in the same way and leave the same
    guide-star flag and the same scale, and the outside world sees the same
    actions in the same order, the publishes on the availability topic and
    on the topics of the discovery records apart. *)
Theorem callbacks_do_not_disturb_guiding cfg h g :
  let x := run_history cfg h g in
  let y := run_history cfg (List.filter is_phd2 h) g in
  result_of x = result_of y ∧
  guide_star_available (globals_of x) = guide_star_available (globals_of y) ∧
  PIXEL_SCALE_ARCSEC_PER_PX (globals_of x) = PIXEL_SCALE_ARCSEC_PER_PX (globals_of y) ∧
  guiding_actions cfg (trace_of x) = actions (trace_of y).
Proof.
  pose proof (history_without_callbacks cfg h g (discovery_published g)) as H.
  cbv zeta in H.
  replace (set_discovery_published (discovery_published g) g) with g in H
    by (destruct g; reflexivity).
  destruct H as (Hr & Hg & Ht).
  cbv zeta. rewrite Hg. auto.
Qed.

(** ** The guide-star flag across connections *)

Lemma spec_transitions_app obs1 : ∀ flag obs2,
  spec_transitions flag (obs1 ++ obs2) =
  spec_transitions flag obs1 ++ spec_transitions (last_observation flag obs1) obs2.
Proof.
  induction obs1 as [|v obs1 IH]; intros flag obs2; [reflexivity|].
  cbn [app spec_transitions last_observation fold_left].
  destruct (bool_decide (flag = Some v)) eqn:E.
  - apply bool_decide_eq_true in E. subst flag. apply IH.
  - cbn [app]. f_equal. apply IH.
Qed.

Lemma guide_star_after_stream cfg ls : ∀ g,
  result_of (for_each (process_line cfg) ls g) = Ret tt →
  guide_star_available (globals_of (for_each (process_line cfg) ls g)) =
  last_observation (guide_star_available g) (omap observation ls).
Proof.
  induction ls as [|l ls IH]; intros g Hr; [reflexivity|].
  rewrite for_each_cons in Hr |- *.
  pose proof (guide_star_step cfg l g) as Hs. cbv zeta in Hs.
  destruct (process_line cfg l g) as [[[[]|e] g1] t1]; [|discriminate].
  cbn [result_of globals_of trace_of fst snd] in Hs.
  rewrite result_of_prepend in Hr. rewrite globals_of_prepend, (IH g1 Hr).
  change (omap observation (l :: ls))
    with (match observation l with
          | Some v => v :: omap observation ls
          | None => omap observation ls
          end).
  destruct (observation l) as [v|]; destruct Hs as [_ ->]; reflexivity.
Qed.

Lemma iteration_guide_star cfg a g :
  (match a with
   | Session lines _ =>
       result_of (for_each (process_line cfg) lines (set_PIXEL_SCALE None g)) = Ret tt
   | _ => True
   end) →
  published_on (guide_star_topic cfg) (trace_of (iteration cfg a g)) =
    on_off <$> spec_transitions (guide_star_available g) (omap observation (session_lines a)) ∧
  guide_star_available (globals_of (iteration cfg a g)) =
    last_observation (guide_star_available g) (omap observation (session_lines a)).
Proof.
  destruct a as [|[]|lines fin]; try (intros _; split; reflexivity).
  intros Hr. rewrite (iteration_Session cfg lines fin g Hr).
  cbn [trace_of globals_of fst snd session_lines].
  rewrite !published_on_app, (guide_star_stream cfg lines _ Hr),
    (guide_star_after_stream cfg lines _ Hr).
  split; [|reflexivity].
  change (published_on (guide_star_topic cfg) (opening_trace cfg)) with (@nil payload).
  destruct fin; cbn; rewrite app_nil_r; reflexivity.
Qed.

(** The guide-star flag outlives a connection.  When the streams of a script
    are read through, what goes out on the guide-star topic is the
    transitions of all their observations taken as one run, and the flag is
    left at the last of them: neither a failed attempt nor a reconnection
    publishes there or resets the flag, so a GuideStep that follows a
    reconnection publishes nothing when the star was there before it. *)
Theorem guide_star_kept_across_reconnects cfg script : ∀ g,
  streams_read_through cfg script g = true →
  published_on (guide_star_topic cfg) (trace_of (read_phd2_events cfg script g)) =
    on_off <$> spec_transitions (guide_star_available g)
                 (omap observation (script ≫= session_lines)) ∧
  guide_star_available (globals_of (read_phd2_events cfg script g)) =
    last_observation (guide_star_available g) (omap observation (script ≫= session_lines)).
Proof.
  induction script as [|a script IH]; intros g Hs; [split; reflexivity|].
  cbn [streams_read_through] in Hs.
  assert (Ha : (match a with
                | Session lines _ =>
                    result_of (for_each (process_line cfg) lines (set_PIXEL_SCALE None g)) = Ret tt
                | _ => True
                end) ∧
               result_of (iteration cfg a g) = Ret None ∧
               streams_read_through cfg script (globals_of (iteration cfg a g)) = true).
  { destruct a as [|[]|lines fin]; try (split; [exact I|split; [reflexivity|exact Hs]]).
    destruct (result_of (for_each (process_line cfg) lines (set_PIXEL_SCALE None g)))
      as [[]|e] eqn:Er; [|discriminate].
    split; [reflexivity|].
    rewrite (iteration_Session cfg lines fin g Er) in Hs |- *.
    destruct fin; try discriminate; split; first [reflexivity | exact Hs]. }
  destruct Ha as (Hlines & Hret & Hrest).
  destruct (iteration_guide_star cfg a g Hlines) as [Hp Hf].
  cbn [read_phd2_events]. rewrite run_bind.
  destruct (iteration cfg a g) as [[r g1] t1].
  cbn [result_of globals_of trace_of fst snd] in *. subst r.
  destruct (IH g1 Hrest) as [Hp' Hf'].
  rewrite trace_of_prepend, globals_of_prepend, published_on_app, Hp, Hp', Hf', Hf.
  change ((a :: script) ≫= session_lines) with (session_lines a ++ (script ≫= session_lines)).
  rewrite omap_app, spec_transitions_app, fmap_app.
  split; [reflexivity|].
  unfold last_observation. rewrite fold_left_app. reflexivity.
Qed.

(** ** [main] *)

Lemma main_bind {A B} (m : Proc A) (k : A → Proc B) p :
  (m ≫= k) p =
  match m p with
  | (Ret a, p1, t1) =>
      match k a p1 with
      | (r, p2, t2) => (r, p2, t1 ++ t2)
      end
  | (Raise e, p1, t1) => (Raise e, p1, t1)
  end.
Proof. reflexivity. Qed.

Lemma setup_mqtt_up cfg mcfg p :
  setup_mqtt cfg mcfg broker_up p =
  (Ret tt, {| module_globals := module_globals p; mqtt_client := true |},
   setup_trace cfg mcfg).
Proof.
  unfold setup_trace, setup_mqtt. destruct p as [g c].
  destruct (MQTT_USERNAME mcfg); reflexivity.
Qed.

Lemma main_finally_run cfg g :
  main_finally cfg {| module_globals := g; mqtt_client := true |} =
  (Ret tt, {| module_globals := g; mqtt_client := true |}, finally_trace cfg).
Proof. reflexivity. Qed.

(** However the PHD2 loop is left, by the operator's interrupt or by an
    exception, the main thread says goodbye: after what the loop did it
    publishes "offline" on the availability topic, stops the client's loop
    and disconnects, and only then returns or raises the loop's exception
    again (1, 2).  The message it publishes is the one the will registered
    by [setup_mqtt] makes the broker publish when the process dies without
    saying so: same topic, payload, QoS and retention (3). *)
Theorem main_goes_offline_on_the_way_out cfg mcfg script g :
  let loop := read_phd2_events cfg script g in
  let x := main cfg mcfg broker_up script (loaded g) in
  result_of loop ≠ Ret Looping →
  result_of_main x = result_of loop ∧
  trace_of_main x = setup_trace cfg mcfg ++ (Effect <$> trace_of loop) ++ finally_trace cfg ∧
  omap last_will (setup_trace cfg mcfg) =
    List.filter is_publish (omap effect_of (finally_trace cfg)).
Proof.
  intros loop x Hl. subst x. unfold main.
  rewrite main_bind, setup_mqtt_up. cbn [module_globals loaded].
  rewrite main_bind. unfold try_main, in_script. cbn [module_globals mqtt_client].
  fold loop. destruct loop as [[[[]|e] g1] t1]; cbn [result_of fst snd] in Hl.
  - rewrite main_bind, main_finally_run.
    unfold mret, Proc_ret, result_of_main, trace_of_main. cbn [fst snd result_of trace_of].
    rewrite !app_nil_r. repeat split.
    unfold setup_trace, setup_mqtt. destruct (MQTT_USERNAME mcfg); reflexivity.
  - congruence.
  - rewrite main_bind, main_finally_run.
    unfold raise_again, result_of_main, trace_of_main. cbn [fst snd result_of trace_of].
    rewrite !app_nil_r. repeat split.
    unfold setup_trace, setup_mqtt. destruct (MQTT_USERNAME mcfg); reflexivity.
Qed.

(** A failure to set up the client is final.  When the constructor of the
    client or the connection to the broker raises, [main] raises the same
    exception having done only a beginning of the setup: the PHD2 loop is
    not entered whatever it would have met, nothing is published, the
    [finally] block does not run, and there is no second try. *)
Theorem main_gives_up_when_setup_fails cfg mcfg b script g e :
  client_error b = Some e ∨ client_error b = None ∧ connect_error b = Some e →
  let x := main cfg mcfg b script (loaded g) in
  result_of_main x = Raise e ∧
  trace_of_main x `prefix_of` setup_trace cfg mcfg ∧
  List.filter is_connect (trace_of_main x) = [].
Proof.
  intros H x. subst x. destruct b as [ce co]. cbn in H.
  unfold main, setup_trace, setup_mqtt.
  destruct H as [->|[-> ->]]; destruct (MQTT_USERNAME mcfg);
    (split; [reflexivity|]); (split; [|reflexivity]);
    eexists; cbn; reflexivity.
Qed.

(** ** Settings *)

Lemma getenv_int_run py_int environ name fallback g :
  getenv_int py_int environ name fallback g =
  (Ret (int_setting py_int environ name fallback), g, invalid_int_trace py_int environ name).
Proof.
  unfold getenv_int, int_setting, invalid_int_trace, rejected, environ_get_or_None.
  destruct (environ !! name) as [val|]; [|reflexivity].
  destruct (String.eqb val ""); [reflexivity|]. cbn.
  destruct (py_int val); reflexivity.
Qed.

Lemma load_settings_run py_int environ g :
  ∃ cfg mcfg,
    load_settings py_int environ g =
    (Ret (cfg, mcfg), g,
     invalid_int_trace py_int environ "PHD2_PORT" ++
     invalid_int_trace py_int environ "MQTT_PORT" ++
     invalid_int_trace py_int environ "MQTT_KEEPALIVE" ++ startup_trace) ∧
    PHD2_PORT cfg = int_setting py_int environ "PHD2_PORT" 4400 ∧
    MQTT_PORT mcfg = int_setting py_int environ "MQTT_PORT" 1883 ∧
    MQTT_KEEPALIVE mcfg = int_setting py_int environ "MQTT_KEEPALIVE" 60 ∧
    BASE_TOPIC cfg = environ_get environ "BASE_TOPIC" "phd2/guiding" ∧
    MQTT_HOST mcfg = environ_get environ "MQTT_HOST" "127.0.0.1" ∧
    MQTT_CLIENT_ID mcfg = environ_get environ "MQTT_CLIENT_ID" "phd2_guiding_bridge" ∧
    MQTT_USERNAME mcfg = environ_get_or_None environ "MQTT_USERNAME" ∧
    MQTT_PASSWORD mcfg = environ_get_or_None environ "MQTT_PASSWORD".
Proof.
  unfold load_settings.
  do 3 (erewrite run_bind_Ret by apply getenv_int_run).
  do 2 eexists. split.
  { cbn [prepend]. unfold log, emit, mbind, M_bind, mret, M_ret. cbn [prepend].
    reflexivity. }
  repeat split.
Qed.

(** Reading the settings cannot fail.  Whatever the environment holds and
    whatever [int] makes of it, the settings are loaded: each of the three
    integer settings is what [int] makes of its variable when that is set,
    not empty and accepted, and its default otherwise (1); the globals are
    untouched and nothing is done but logging (2, 3), with one warning for
    each integer variable that is set, not empty and rejected (4); and an
    empty environment gives the defaults, without a warning (5). *)
Theorem settings_fall_back_to_defaults py_int environ g :
  let x := load_settings py_int environ g in
  (∃ cfg mcfg,
     result_of x = Ret (cfg, mcfg) ∧
     PHD2_PORT cfg = int_setting py_int environ "PHD2_PORT" 4400 ∧
     MQTT_PORT mcfg = int_setting py_int environ "MQTT_PORT" 1883 ∧
     MQTT_KEEPALIVE mcfg = int_setting py_int environ "MQTT_KEEPALIVE" 60) ∧
  globals_of x = g ∧
  actions (trace_of x) = [] ∧
  logged_at WARNING (trace_of x) =
    length (List.filter (rejected py_int environ) ["PHD2_PORT"; "MQTT_PORT"; "MQTT_KEEPALIVE"]) ∧
  load_settings py_int ∅ g = (Ret (default_config, default_mqtt_config), g, startup_trace).
Proof.
  intros x. subst x.
  destruct (load_settings_run py_int environ g) as (cfg & mcfg & -> & H1 & H2 & H3 & _).
  cbn [result_of globals_of trace_of fst snd].
  split; [exists cfg, mcfg; auto|]. split; [reflexivity|].
  unfold invalid_int_trace. cbn [List.filter].
  destruct (rejected py_int environ "PHD2_PORT"), (rejected py_int environ "MQTT_PORT"),
    (rejected py_int environ "MQTT_KEEPALIVE"); repeat split.
Qed.

(** What [setup_mqtt] asks of the client, from the environment on.  The
    client is made with the configured id; a user name and password are
    handed over exactly when [MQTT_USERNAME] is set and not empty, the
    password being [None] when [MQTT_PASSWORD] is unset or empty, so that a
    password without a user name is ignored; then the callbacks are
    installed and the will ("offline", QoS 1, retained, on the availability
    topic) is registered, both before the connection is made; the loop is
    started last. *)
Theorem setup_mqtt_calls py_int environ g p :
  ∃ cfg mcfg,
    result_of (load_settings py_int environ g) = Ret (cfg, mcfg) ∧
    omap client_call_of (trace_of_main (setup_mqtt cfg mcfg broker_up p)) =
    [NewClient (environ_get environ "MQTT_CLIENT_ID" "phd2_guiding_bridge")] ++
    match environ !! "MQTT_USERNAME" with
    | Some username =>
        if String.eqb username "" then []
        else [UsernamePwSet username (environ_get_or_None environ "MQTT_PASSWORD")]
    | None => []
    end ++
    [SetCallbacks;
     WillSet (environ_get environ "BASE_TOPIC" "phd2/guiding" +:+ "/availability")
       "offline" 1 true;
     ClientConnect (environ_get environ "MQTT_HOST" "127.0.0.1")
       (int_setting py_int environ "MQTT_PORT" 1883)
       (int_setting py_int environ "MQTT_KEEPALIVE" 60);
     LoopStart].
Proof.
  destruct (load_settings_run py_int environ g)
    as (cfg & mcfg & -> & _ & Hport & Hkeep & Hbase & Hhost & Hid & Huser & Hpass).
  exists cfg, mcfg. split; [reflexivity|].
  unfold setup_mqtt, AVAILABILITY_TOPIC.
  rewrite Hport, Hkeep, Hbase, Hhost, Hid, Huser, Hpass.
  unfold environ_get_or_None at 1.
  destruct (environ !! "MQTT_USERNAME") as [username|]; [|reflexivity].
  destruct (String.eqb username ""); reflexivity.
Qed.

End Statements.

(** * Examples *)

(** The examples run on the sampled C library. *)
#[export] Existing Instance sampled_pow.

(** C1 at the four events of the specification, as PHD2 sends them. *)
Lemma guide_star_published_on_transitions_witness :
  published_per_line default_config (guide_star_topic default_config)
    [Json msg_StarLost; Json msg_StarLost;
     Json (msg_GuideStep (PFloat 3) (PFloat 4)); Json msg_StarLost]
    initial_globals =
  [[on_off false]; []; [on_off true]; [on_off false]].
Proof.
  apply (proj2 (proj2 (proj2 (guide_star_published_on_transitions default_config))));
    vm_compute; reflexivity.
Defined.

(** C2, amended, at a stream with two answers to [get_pixel_scale]. *)
Lemma pixel_scale_set_by_each_response_witness :
  PIXEL_SCALE_ARCSEC_PER_PX
    (globals_of
       (connection default_config
          (Session [Json (msg_rpc_result 2 (PFloat 0.5)); Json msg_StarLost;
                    Json (msg_rpc_result 2 (PFloat 0.75))] EndOfStream)
          initial_globals)) =
  Some 0.75%float.
Proof.
  rewrite (proj2 (proj2 (proj2 (proj2
             (pixel_scale_set_by_each_response default_config)))));
    vm_compute; reflexivity.
Defined.

(** C2, against the claim: two answers to [get_pixel_scale] on one
    connection set the scale twice; the second value replaces the first. *)
Lemma pixel_scale_set_twice :
  let first := Json (msg_rpc_result 2 (PFloat 0.5)) in
  let second := Json (msg_rpc_result 2 (PFloat 0.75)) in
  let after ls :=
    globals_of (connection default_config (Session ls EndOfStream) initial_globals) in
  PIXEL_SCALE_ARCSEC_PER_PX (after [first]) = Some 0.5%float ∧
  PIXEL_SCALE_ARCSEC_PER_PX (after [first; second]) = Some 0.75%float.
Proof. split; vm_compute; reflexivity. Qed.



(** C4, against the claim: when both requests have been written the scale
    of the previous connection is still stored; line 327 clears it after
    them. *)
Lemma scale_still_set_when_requests_are_sent :
  let g := set_PIXEL_SCALE (Some 0.5%float) initial_globals in
  let x := open_connection default_config (Session [] EndOfStream) g in
  actions (trace_of x) =
    [SockConnect "127.0.0.1" 4400; SockSend req_app_state; SockSend req_pixel_scale] ∧
  PIXEL_SCALE_ARCSEC_PER_PX (globals_of x) = Some 0.5%float.
Proof. split; reflexivity. Qed.

(** C5 at a stream of two lines closed by the peer. *)
Lemma end_of_stream_reconnects_without_delay_witness :
  let lines := [Json (msg_rpc_result 2 (PFloat 0.5)); Json (msg_GuideStep (PFloat 3) (PFloat 4))] in
  let x := iteration default_config (Session lines EndOfStream) initial_globals in
  result_of x = Ret None ∧
  trace_of x =
    opening_trace default_config ++
    trace_of (for_each (process_line default_config) lines
                (set_PIXEL_SCALE None initial_globals)) ++
    [Log INFO "Closing PHD2 socket"; SockClose] ∧
  List.filter is_sleep (trace_of x) = [].
Proof.
  apply (proj1 (end_of_stream_reconnects_without_delay default_config)).
  vm_compute. reflexivity.
Defined.


(** C7 at the scale 0.5 and the distances 3.0 and 4.0, whose squares the
    sampled library returns exactly. *)
Lemma arcsec_values_are_scaled_witness :
  let x :=
    for_each (process_line default_config)
      [Json (msg_rpc_result 2 (PFloat 0.5)); Json (msg_GuideStep (PFloat 3) (PFloat 4))]
      initial_globals in
  let on suffix := published_on ("phd2/guiding" +:+ suffix) (trace_of x) in
  result_of x = Ret tt ∧
  on "/ra_error_arcsec" = [Formatted (PFloat 1.5)] ∧
  on "/dec_error_arcsec" = [Formatted (PFloat 2)] ∧
  on "/total_error_arcsec" = [Formatted (PFloat 2.5)].
Proof.
  apply (proj2 (proj2 (arcsec_values_are_scaled default_config))); reflexivity.
Defined.

(** C7, against the claim: at the scale 0.5 and the distances 7.964 and
    2.957 the total that is published is one unit in the last place below
    [sqrt (ra * ra + dec * dec) * s]: [7.964 ** 2] is
    [0x1.fb670196d8f50p+5] where [7.964 * 7.964] is
    [0x1.fb670196d8f51p+5]. *)
Lemma total_is_not_the_rounded_formula :
  let s := 0.5%float in
  let ra := 0x1.fdb22d0e56042p+2%float in
  let dec := 0x1.7a7ef9db22d0ep+1%float in
  let x :=
    process_line default_config (Json (msg_GuideStep (PFloat ra) (PFloat dec)))
      (set_PIXEL_SCALE (Some s) initial_globals) in
  result_of x = Ret tt ∧
  published_on "phd2/guiding/total_error_arcsec" (trace_of x) =
    [Formatted (PFloat 0x1.0fd906c86879ap+2)] ∧
  (PrimFloat.sqrt (ra * ra + dec * dec) * s)%float = 0x1.0fd906c86879bp+2%float ∧
  (0x1.0fd906c86879ap+2 =? 0x1.0fd906c86879bp+2)%float = false.
Proof. repeat split; vm_compute; reflexivity. Qed.

(** C8 at the specification's example, a broken line between two GuideStep
    lines, and at the same stream with a line [json.loads] cannot take in
    its place. *)
Lemma uncaught_loads_error_ends_the_loop_witness :
  let first := Json (msg_GuideStep (PFloat 3) (PFloat 4)) in
  let second := Json (msg_GuideStep (PFloat 1) (PFloat 2)) in
  let with_l :=
    for_each (process_line default_config) ([first] ++ NotJson "{not json" :: [second])
      initial_globals in
  let without :=
    for_each (process_line default_config) ([first] ++ [second]) initial_globals in
  ((result_of with_l = result_of without ∧
    globals_of with_l = globals_of without ∧
    actions (trace_of with_l) = actions (trace_of without)) ∧
   logged_at WARNING (trace_of with_l) = S (logged_at WARNING (trace_of without))) ∧
  result_of
    (read_phd2_events default_config
       [Session ([first] ++ Unparsable TooDeep :: [second]) EndOfStream;
        Session [] EndOfStream]
       initial_globals) =
  Raise RecursionError.
Proof.
  split; [split|].
  - apply (proj1 (proj2 (proj1 (uncaught_loads_error_ends_the_loop default_config)
                           (NotJson "{not json") eq_refl))).
  - apply (proj2 (proj2 (proj2 (proj1 (uncaught_loads_error_ends_the_loop default_config)
                                  (NotJson "{not json") eq_refl))));
      vm_compute; reflexivity.
  - exact (f_equal result_of
             (proj2 (proj2 (uncaught_loads_error_ends_the_loop default_config))
                [Json (msg_GuideStep (PFloat 3) (PFloat 4))] TooDeep
                [Json (msg_GuideStep (PFloat 1) (PFloat 2))] EndOfStream
                [Session [] EndOfStream] initial_globals eq_refl)).
Defined.

(** C9 at a history with two later MQTT reconnects. *)
Lemma discovery_published_at_most_once_witness :
  let connected := globals_of (on_connect default_config 0 initial_globals) in
  let later :=
    run_history default_config
      [Phd2Attempt (Session [Json (msg_GuideStep (PFloat 3) (PFloat 4))] ReadError);
       MqttDisconnected 7; MqttConnected 0; Phd2Attempt ConnectFails;
       MqttConnected 5; MqttConnected 0]
      connected in
  discovery_publishes (trace_of later) = [] ∧
  discovery_published (globals_of later) = true.
Proof.
  apply (proj1 (proj2 (proj2 (proj2
           (discovery_published_at_most_once default_config))))).
  vm_compute. reflexivity.
Defined.



(** Four failures in a row: four sleeps of five seconds. *)
Lemma socket_errors_retried_every_five_seconds_witness :
  List.filter is_sleep
    (trace_of (read_phd2_events default_config
                 [ConnectFails; WriteFails false; ConnectFails; WriteFails true]
                 initial_globals)) =
  [Sleep 5; Sleep 5; Sleep 5; Sleep 5].
Proof.
  apply (socket_errors_retried_every_five_seconds default_config
           [ConnectFails; WriteFails false; ConnectFails; WriteFails true]
           initial_globals eq_refl).
Defined.

(** An interrupt on the first connection: the loop is left. *)
Lemma interrupt_exits_the_loop_witness :
  result_of (read_phd2_events default_config
               [Session [Json msg_StarLost] Interrupt; ConnectFails; Session [] EndOfStream]
               initial_globals) = Ret Exited.
Proof.
  rewrite (interrupt_exits_the_loop default_config [Json msg_StarLost]
             [ConnectFails; Session [] EndOfStream] initial_globals eq_refl).
  reflexivity.
Defined.

(** A GuideStep stamped 1e18, which [localtime] cannot break down, on the
    first line of a stream: the second line is not read, the bridge sleeps
    and connects again. *)
Lemma socket_errors_never_leave_the_loop_witness :
  let late : gmap string pyval :=
    list_to_map [("Event", PStr "GuideStep"); ("Timestamp", PFloat 1e18);
                 ("RADistanceRaw", PFloat 3); ("DECDistanceRaw", PFloat 4)] in
  let x :=
    read_phd2_events default_config
      [Session [Json (PDict late); Json msg_StarLost] EndOfStream; ConnectFails]
      initial_globals in
  result_of x = Ret Looping ∧
  actions (trace_of x) =
    [SockConnect "127.0.0.1" 4400; SockSend req_app_state; SockSend req_pixel_scale;
     Sleep 5; SockClose; Sleep 5].
Proof.
  pose proof (proj2 (socket_errors_never_leave_the_loop default_config)
                [] (Json (PDict (list_to_map
                      [("Event", PStr "GuideStep"); ("Timestamp", PFloat 1e18);
                       ("RADistanceRaw", PFloat 3); ("DECDistanceRaw", PFloat 4)])))
                [Json msg_StarLost] EndOfStream [ConnectFails] initial_globals) as H.
  cbv zeta in H.
  assert (Hs : result_of (for_each (process_line default_config) []
                            (set_PIXEL_SCALE None initial_globals)) = Ret tt)
    by reflexivity.
  specialize (H Hs). clear Hs.
  match type of H with ?P → _ => assert (Hx : P) by (vm_compute; reflexivity) end.
  specialize (H Hx). clear Hx. cbn [app] in H.
  cbv zeta. rewrite H. split; vm_compute; reflexivity.
Defined.




(** The OFF a first StarLost publishes goes to an announced state topic. *)
Lemma discovery_announces_the_state_topics_witness :
  In "phd2/guiding/guide_star_available" (announced default_config "state_topic").
Proof.
  apply (proj1 (proj2 (discovery_announces_the_state_topics default_config))
           (Json msg_StarLost) initial_globals "phd2/guiding/guide_star_available"
           (Text "OFF") 0 true).
  vm_compute. repeat (first [left; reflexivity | right]).
Defined.

(** Two successful connections among five activities: "online" twice. *)
Lemma online_published_at_each_connect_witness :
  published_on (AVAILABILITY_TOPIC default_config)
    (trace_of (run_history default_config
                 [MqttConnected 0; Phd2Line (Json msg_StarLost); MqttDisconnected 1;
                  MqttConnected 5; MqttConnected 0]
                 initial_globals)) =
  [Text "online"; Text "online"].
Proof.
  apply (online_published_at_each_connect default_config
           [MqttConnected 0; Phd2Line (Json msg_StarLost); MqttDisconnected 1;
            MqttConnected 5; MqttConnected 0]
           initial_globals).
  vm_compute. reflexivity.
Defined.

(** A GuideStep, a read error, a refused attempt, then a second connection
    with a GuideStep and a StarLost: ON once, then OFF. *)
Lemma guide_star_kept_across_reconnects_witness :
  published_on (guide_star_topic default_config)
    (trace_of (read_phd2_events default_config
                 [Session [Json (msg_GuideStep (PFloat 3) (PFloat 4))] ReadError;
                  ConnectFails;
                  Session [Json (msg_GuideStep (PFloat 3) (PFloat 4)); Json msg_StarLost]
                    EndOfStream]
                 initial_globals)) =
  [Text "ON"; Text "OFF"].
Proof.
  apply (proj1 (guide_star_kept_across_reconnects default_config
                  [Session [Json (msg_GuideStep (PFloat 3) (PFloat 4))] ReadError;
                   ConnectFails;
                   Session [Json (msg_GuideStep (PFloat 3) (PFloat 4)); Json msg_StarLost]
                     EndOfStream]
                  initial_globals eq_refl)).
Defined.

(** A number where an object is expected: [main] raises the [TypeError]
    after the goodbye. *)
Lemma main_goes_offline_on_the_way_out_witness :
  let script := [Session [Json (PInt 5)] EndOfStream] in
  let loop := read_phd2_events default_config script initial_globals in
  let x := main default_config default_mqtt_config broker_up script (loaded initial_globals) in
  result_of_main x = Raise TypeError ∧
  trace_of_main x =
    setup_trace default_config default_mqtt_config ++ (Effect <$> trace_of loop) ++
    finally_trace default_config.
Proof.
  intros script loop x.
  destruct (main_goes_offline_on_the_way_out default_config default_mqtt_config script
              initial_globals) as (Hr & Ht & _).
  - vm_compute. discriminate.
  - split; [exact Hr | exact Ht].
Defined.

(** The broker refuses the connection: [main] raises the [OSError]. *)
Lemma main_gives_up_when_setup_fails_witness :
  result_of_main
    (main default_config default_mqtt_config
       {| client_error := None; connect_error := Some OSError |}
       [Session [] EndOfStream] (loaded initial_globals)) = Raise OSError.
Proof.
  apply (main_gives_up_when_setup_fails default_config default_mqtt_config
           {| client_error := None; connect_error := Some OSError |}
           [Session [] EndOfStream] initial_globals OSError).
  right. split; reflexivity.
Defined.

